(** * google-mcp: the OAuth session manager

    A shallow embedding of the authentication module (the file that the
    tests import as auth/oauth): the platform path resolver, the port
    allocator, the credential store and the session manager with its
    interactive authorization flow.  Line numbers in the comments are those
    of that file.

    What the module takes from outside is kept as a parameter:
    - [process.env], [os.platform()] and [os.homedir()] form a [Host];
    - the outcome of a loopback bind probe is an oracle on the port numbers
      0..65535; for any other number [server.listen] throws a RangeError;
    - [JSON.parse] / [JSON.stringify] and the OAuth provider calls
      ([refreshAccessToken], [getToken]) are functions given to the model;
    - the file system is a finite map from paths to files, with a set of
      locked paths on which the operating system refuses access. *)

From Stdlib Require Import ZArith Lia Bool.
From stdpp Require Import gmap strings list pretty.
From Equations Require Import Equations.

Local Open Scope Z_scope.
Local Open Scope string_scope.

(** ** Constants of the module *)

Definition APP_NAME : string := "google-mcp".
Definition PORT_RANGE_START : Z := 3000.
Definition PORT_RANGE_END : Z := 3100.

(** ** JavaScript truthiness of an environment lookup

    [process.env.X] is [undefined] when the variable is not in the
    environment and a string otherwise; [undefined] and the empty string
    are the falsy ones. *)

Definition truthy (v : option string) : bool :=
  match v with
  | Some s => negb (String.eqb s "")
  | None => false
  end.

(** ** Paths

    A path is kept as the sequence of components handed to [path.join];
    joining concatenates.  A directory that comes as one string (the home
    directory, the value of an environment variable) is one component. *)

Definition path : Type := list string.

Definition path_join (parts : list path) : path := concat parts.

Definition dirname (p : path) : path := removelast p.

(** ** The host: what [os] and [process.env] answer *)

Record Host := mkHost {
  platform : string;
  homedir : string;
  environ : gmap string string
}.

Definition getenv (h : Host) (name : string) : option string :=
  environ h !! name.

(** The directory named by an environment variable, when the lookup is
    truthy. *)
Definition env_dir (h : Host) (name : string) : option path :=
  match getenv h name with
  | Some s => if truthy (Some s) then Some [s] else None
  | None => None
  end.

(** [process.env.NAME || fallback], for a directory. *)
Definition env_or (h : Host) (name : string) (fallback : path) : path :=
  default fallback (env_dir h name).

(** ** Platform path resolver (lines 88-142) *)

Definition getConfigDir (h : Host) : path :=
  if String.eqb (platform h) "win32" then
    let appData := env_or h "APPDATA" (path_join [[homedir h]; ["AppData"]; ["Roaming"]]) in
    path_join [appData; [APP_NAME]]
  else if String.eqb (platform h) "darwin" then
    match env_dir h "XDG_CONFIG_HOME" with
    | Some xdg => path_join [xdg; [APP_NAME]]
    | None => path_join [[homedir h]; ["Library"]; ["Application Support"]; [APP_NAME]]
    end
  else
    let xdgConfig := env_or h "XDG_CONFIG_HOME" (path_join [[homedir h]; [".config"]]) in
    path_join [xdgConfig; [APP_NAME]].

Definition getDataDir (h : Host) : path :=
  if String.eqb (platform h) "win32" then
    let appData := env_or h "APPDATA" (path_join [[homedir h]; ["AppData"]; ["Roaming"]]) in
    path_join [appData; [APP_NAME]]
  else if String.eqb (platform h) "darwin" then
    match env_dir h "XDG_DATA_HOME" with
    | Some xdg => path_join [xdg; [APP_NAME]]
    | None => path_join [[homedir h]; ["Library"]; ["Application Support"]; [APP_NAME]]
    end
  else
    let xdgData := env_or h "XDG_DATA_HOME" (path_join [[homedir h]; [".local"]; ["share"]]) in
    path_join [xdgData; [APP_NAME]].

Definition CREDENTIALS_PATH (h : Host) : path :=
  path_join [getConfigDir h; ["credentials.json"]].

Definition TOKEN_PATH (h : Host) : path :=
  path_join [getDataDir h; ["tokens.json"]].

(** ** Port allocator (lines 22-53) *)

(** How [findAvailablePort] ends: with a port, with its own error, or
    with the RangeError that [server.listen] throws inside
    [isPortAvailable] for a number that is no port. *)
Inductive PortResult :=
| PortFound (port : Z)
| NoPortAvailable (startPort endPort : Z)
| BadPort (port : Z).

(** The numbers that [server.listen] takes as a port. *)
Definition valid_port (port : Z) : bool := Z.leb 0 port && Z.leb port 65535.

(** How the [for] loop ends. *)
Inductive Scan :=
| Found (port : Z)
| Exhausted
| OutOfRange (port : Z).

Section PortAllocator.

(** The outcome of binding a fresh listener to 127.0.0.1:port and
    releasing it at once, for a valid port. *)
Variable isPortAvailable : Z -> bool.

(** The [for] loop of [findAvailablePort], entered at [port]: the numbers
    handed to [isPortAvailable], in order, and how the loop ends. *)
Equations? scanPorts (port endPort : Z) : list Z * Scan
  by wf (Z.to_nat (endPort + 1 - port)) lt :=
  scanPorts port endPort with Z_le_gt_dec port endPort => {
    | left _ =>
        if valid_port port then
          if isPortAvailable port then ([port], Found port)
          else let rest := scanPorts (port + 1) endPort in
               (port :: fst rest, snd rest)
        else ([port], OutOfRange port)
    | right _ => ([], Exhausted)
  }.
Proof. lia. Qed.

Definition findAvailablePort (startPort endPort : Z) : PortResult :=
  match snd (scanPorts startPort endPort) with
  | Found port => PortFound port
  | Exhausted => NoPortAvailable startPort endPort
  | OutOfRange port => BadPort port
  end.

Definition probedPorts (startPort endPort : Z) : list Z :=
  fst (scanPorts startPort endPort).

Definition findAvailablePort_default : PortResult :=
  findAvailablePort PORT_RANGE_START PORT_RANGE_END.

End PortAllocator.

(** ** Token sets and client credentials *)

(** A number as a token set can hold it: an integer, or [NaN] (which
    stands for the numbers that JSON writes as [null]). *)
Inductive JsNumber :=
| Finite (z : Z)
| NaN.

(** [Auth.Credentials]: the token set. *)
Record Credentials := mkCredentials {
  access_token : option string;
  refresh_token : option string;
  expiry_date : option JsNumber;
  scope : option string;
  token_type : option string
}.

(** One block of the credentials file; a field the JSON lacks is [None]. *)
Record ClientBlock := mkClientBlock {
  client_id : option string;
  client_secret : option string;
  redirect_uris : list string
}.

Record CredentialsFile := mkCredentialsFile {
  installed : option ClientBlock;
  web : option ClientBlock
}.

(** What [JSON.parse] does with a text: it throws, or yields a falsy
    value ([null], [false], [0], the empty string), or yields a value that
    the code then reads as the expected object. *)
Inductive Parsed (A : Type) :=
| SyntaxError
| ParsedFalsy
| ParsedValue (a : A).
Arguments SyntaxError {A}.
Arguments ParsedFalsy {A}.
Arguments ParsedValue {A} a.

(** The client handle: [google.auth.OAuth2].  A new handle has no token
    set bound; [setCredentials] binds one. *)
Record OAuth2Client := mkClient {
  clientId : string;
  clientSecret : string;
  redirectUri : string;
  credentials : option Credentials
}.

Definition new_OAuth2 (id secret redirect : string) : OAuth2Client :=
  mkClient id secret redirect None.

Definition with_credentials (tokens : Credentials) (c : OAuth2Client) : OAuth2Client :=
  mkClient (clientId c) (clientSecret c) (redirectUri c) (Some tokens).

(** [this.credentials = {}] *)
Definition without_credentials (c : OAuth2Client) : OAuth2Client :=
  mkClient (clientId c) (clientSecret c) (redirectUri c) None.

(** ** The file system *)

Record FileSystem := mkFS {
  files : gmap path (string * Z);   (* content and permission bits *)
  dirs : gmap path Z;               (* permission bits *)
  locked : gset path                (* access refused by the system *)
}.

Inductive FsCall :=
| ExistsSync (p : path)
| ReadFileSync (p : path)
| WriteFileSync (p : path) (data : string) (mode : Z)
| MkdirSync (p : path) (mode : Z)
| UnlinkSync (p : path).

Inductive NetCall :=
| RefreshAccessToken
| GetToken (code : string)
| RevokeCredentials (token : option string)
| OpenBrowser (url : string).

Inductive Error :=
| FsError (code : string) (p : path)
| JsonSyntaxError
| ProviderError
| NoAvailablePorts (startPort endPort : Z)
| RangeError (port : Z)
| TypeError
| InvalidURL.

(** ** The session object and the state of the process *)

Record GoogleOAuth := mkOAuth {
  oauth2Client : option OAuth2Client;
  isAuthenticated : bool;
  directoriesInitialized : bool
}.

Record State := mkState {
  this : GoogleOAuth;
  disk : FileSystem;
  fs_calls : list FsCall;        (* in the order they were made *)
  net_calls : list NetCall;
  console : list string
}.

Definition set_this (f : GoogleOAuth -> GoogleOAuth) (s : State) : State :=
  mkState (f (this s)) (disk s) (fs_calls s) (net_calls s) (console s).
Definition set_disk (f : FileSystem -> FileSystem) (s : State) : State :=
  mkState (this s) (f (disk s)) (fs_calls s) (net_calls s) (console s).
Definition log_fs (c : FsCall) (s : State) : State :=
  mkState (this s) (disk s) (fs_calls s ++ [c]) (net_calls s) (console s).
Definition log_net (c : NetCall) (s : State) : State :=
  mkState (this s) (disk s) (fs_calls s) (net_calls s ++ [c]) (console s).
Definition log_console (msg : string) (s : State) : State :=
  mkState (this s) (disk s) (fs_calls s) (net_calls s) (console s ++ [msg]).

Definition set_client (c : option OAuth2Client) (o : GoogleOAuth) : GoogleOAuth :=
  mkOAuth c (isAuthenticated o) (directoriesInitialized o).
Definition set_authenticated (b : bool) (o : GoogleOAuth) : GoogleOAuth :=
  mkOAuth (oauth2Client o) b (directoriesInitialized o).
Definition set_directoriesInitialized (b : bool) (o : GoogleOAuth) : GoogleOAuth :=
  mkOAuth (oauth2Client o) (isAuthenticated o) b.

(** ** A state and exception monad for the synchronous code *)

Inductive Result (A : Type) :=
| Return (a : A) (s : State)
| Throw (e : Error) (s : State).
Arguments Return {A} a s.
Arguments Throw {A} e s.

Definition M (A : Type) : Type := State -> Result A.

Definition ret {A} (a : A) : M A := fun s => Return a s.
Definition throw {A} (e : Error) : M A := fun s => Throw e s.
Definition bind {A B} (m : M A) (k : A -> M B) : M B :=
  fun s => match m s with
           | Return a s' => k a s'
           | Throw e s' => Throw e s'
           end.
(** [try { m } catch (error) { h error }] *)
Definition try_catch {A} (m : M A) (h : Error -> M A) : M A :=
  fun s => match m s with
           | Return a s' => Return a s'
           | Throw e s' => h e s'
           end.
Definition gets {A} (f : State -> A) : M A := fun s => Return (f s) s.
Definition modify (f : State -> State) : M unit := fun s => Return tt (f s).

Declare Scope js_scope.
Delimit Scope js_scope with js.
Notation "'let*' x ':=' m 'in' k" := (bind m (fun x => k))
  (at level 10, x name, m at level 100, k at level 200) : js_scope.
Notation "m ;; k" := (bind m (fun _ => k))
  (at level 100, k at level 200, right associativity) : js_scope.
Local Open Scope js_scope.

Definition final_state {A} (r : Result A) : State :=
  match r with Return _ s | Throw _ s => s end.

Definition returns {A} (r : Result A) : Prop :=
  match r with Return _ _ => True | Throw _ _ => False end.

Definition console_error (msg : string) : M unit := modify (log_console msg).

(** ** [fs] primitives *)

Definition exists_on (d : FileSystem) (p : path) : bool :=
  bool_decide (is_Some (files d !! p)) || bool_decide (is_Some (dirs d !! p)).

Definition existsSync (p : path) : M bool :=
  modify (log_fs (ExistsSync p)) ;;
  gets (fun s => exists_on (disk s) p).

Definition readFileSync (p : path) : M string :=
  modify (log_fs (ReadFileSync p)) ;;
  let* d := gets disk in
  if bool_decide (p ∈ locked d) then throw (FsError "EACCES" p)
  else match files d !! p with
       | Some (data, _) => ret data
       | None => throw (FsError (if bool_decide (is_Some (dirs d !! p)) then "EISDIR" else "ENOENT") p)
       end.

(** The permission bits of an existing file are kept; [mode] is used when
    the file is created.  [writeFileSync] fails here as the open can fail;
    a failure after the open, which leaves the file empty, is not
    modelled. *)
Definition write_file (p : path) (data : string) (mode : Z) (d : FileSystem) : FileSystem :=
  let m := match files d !! p with Some (_, m) => m | None => mode end in
  mkFS (<[p := (data, m)]> (files d)) (dirs d) (locked d).

Definition writeFileSync (p : path) (data : string) (mode : Z) : M unit :=
  modify (log_fs (WriteFileSync p data mode)) ;;
  let* d := gets disk in
  if bool_decide (p ∈ locked d) then throw (FsError "EACCES" p)
  else if bool_decide (is_Some (dirs d !! p)) then throw (FsError "EISDIR" p)
  else if bool_decide (is_Some (dirs d !! dirname p)) then modify (set_disk (write_file p data mode))
  else throw (FsError "ENOENT" p).

(** The non-empty prefixes of a path: the directory and its ancestors. *)
Fixpoint ancestors (p : path) : list path :=
  match p with
  | [] => []
  | x :: q => [x] :: map (cons x) (ancestors q)
  end.

Definition add_dir (q : path) (mode : Z) (d : FileSystem) : FileSystem :=
  mkFS (files d) (<[q := mode]> (dirs d)) (locked d).

(** The walk of a recursive [mkdir] from the root down: a directory that
    is there is passed, a regular file in the way is an error ([target]
    is the path asked for), a missing directory is created with [mode]
    unless the system refuses.  What was created before an error stays. *)
Fixpoint make_dirs (target : path) (qs : list path) (mode : Z) : M unit :=
  match qs with
  | [] => ret tt
  | q :: rest =>
      let* d := gets disk in
      if bool_decide (is_Some (dirs d !! q)) then make_dirs target rest mode
      else if bool_decide (is_Some (files d !! q)) then
        throw (FsError (if bool_decide (q = target) then "EEXIST" else "ENOTDIR") target)
      else if bool_decide (q ∈ locked d) then throw (FsError "EACCES" target)
      else modify (set_disk (add_dir q mode)) ;; make_dirs target rest mode
  end.

(** [mkdirSync(p, { recursive: true, mode })] *)
Definition mkdirSync (p : path) (mode : Z) : M unit :=
  modify (log_fs (MkdirSync p mode)) ;;
  make_dirs p (ancestors p) mode.

Definition remove_file (p : path) (d : FileSystem) : FileSystem :=
  mkFS (delete p (files d)) (dirs d) (locked d).

Definition unlinkSync (p : path) : M unit :=
  modify (log_fs (UnlinkSync p)) ;;
  let* d := gets disk in
  if bool_decide (p ∈ locked d) then throw (FsError "EPERM" p)
  else match files d !! p with
       | Some _ => modify (set_disk (remove_file p))
       | None => throw (FsError "ENOENT" p)
       end.

(** ** What the module calls outside itself *)

Record Runtime := mkRuntime {
  host : Host;
  (** [Date.now()] *)
  now : Z;
  (** [JSON.parse] read at the two shapes, and [JSON.stringify(tokens, null, 2)] *)
  parseCredentialsFile : string -> Parsed CredentialsFile;
  parseTokens : string -> Parsed Credentials;
  stringifyTokens : Credentials -> string;
  (** the provider, through the client handle; [None] is a rejected call *)
  refreshAccessToken : OAuth2Client -> option Credentials;
  getToken : OAuth2Client -> string -> option Credentials;
  generateAuthUrl : OAuth2Client -> string;
  (** the loopback bind probe *)
  isPortAvailable : Z -> bool
}.

Definition MODE_DIR : Z := 448.   (* 0o700 *)
Definition MODE_FILE : Z := 384.  (* 0o600 *)
Definition DEFAULT_REDIRECT : string := "http://localhost:3000/oauth2callback".
Definition CALLBACK_PATH : string := "/oauth2callback".

Section Session.

Variable rt : Runtime.

Definition JSON_parse {A} (parse : string -> Parsed A) (text : string) : M (option A) :=
  match parse text with
  | SyntaxError => throw JsonSyntaxError
  | ParsedFalsy => ret None
  | ParsedValue a => ret (Some a)
  end.

(** *** Credential store *)

(** Lines 171-196. *)
Definition ensureDirectoriesExist : M unit :=
  let* initialized := gets (fun s => directoriesInitialized (this s)) in
  if initialized then ret tt
  else
    try_catch
      (let configDir := getConfigDir (host rt) in
       let* haveConfig := existsSync configDir in
       (if haveConfig then ret tt
        else mkdirSync configDir MODE_DIR ;;
             console_error "Created config directory") ;;
       let dataDir := getDataDir (host rt) in
       let* haveData := existsSync dataDir in
       (if haveData then ret tt
        else mkdirSync dataDir MODE_DIR ;;
             console_error "Created data directory") ;;
       modify (set_this (set_directoriesInitialized true)))
      (fun _ => console_error "Error creating directories:").

(** [new GoogleOAuth()] (lines 158-164). *)
Definition fresh_session : GoogleOAuth := mkOAuth None false false.
Definition new_GoogleOAuth : M unit :=
  modify (set_this (fun _ => fresh_session)) ;;
  ensureDirectoriesExist.

(** Lines 202-209 and 490-496. *)
Definition getPaths : path * path * path * path :=
  (getConfigDir (host rt), getDataDir (host rt),
   CREDENTIALS_PATH (host rt), TOKEN_PATH (host rt)).
Definition getCredentialsPath : path := CREDENTIALS_PATH (host rt).
Definition getTokenPath : path := TOKEN_PATH (host rt).

(** The file fallback of the two loaders: [existsSync], [readFileSync],
    [JSON.parse]. *)
Definition read_json_file {A} (parse : string -> Parsed A) (p : path) : M (option A) :=
  let* found := existsSync p in
  if found then
    let* content := readFileSync p in
    JSON_parse parse content
  else ret None.

(** Lines 211-227. *)
Definition loadCredentials : M (option CredentialsFile) :=
  try_catch
    (let envCredentials := getenv (host rt) "GOOGLE_CREDENTIALS_JSON" in
     match envCredentials with
     | Some text =>
         if truthy envCredentials then JSON_parse (parseCredentialsFile rt) text
         else read_json_file (parseCredentialsFile rt) (CREDENTIALS_PATH (host rt))
     | None => read_json_file (parseCredentialsFile rt) (CREDENTIALS_PATH (host rt))
     end)
    (fun _ => console_error "Error loading credentials:" ;; ret None).

(** Lines 229-237. *)
Definition saveTokens (tokens : Credentials) : M unit :=
  if truthy (getenv (host rt) "GOOGLE_TOKENS_JSON") then ret tt
  else
    ensureDirectoriesExist ;;
    writeFileSync (TOKEN_PATH (host rt)) (stringifyTokens rt tokens) MODE_FILE.

(** Lines 239-255. *)
Definition loadTokens : M (option Credentials) :=
  try_catch
    (let envTokens := getenv (host rt) "GOOGLE_TOKENS_JSON" in
     match envTokens with
     | Some text =>
         if truthy envTokens then JSON_parse (parseTokens rt) text
         else read_json_file (parseTokens rt) (TOKEN_PATH (host rt))
     | None => read_json_file (parseTokens rt) (TOKEN_PATH (host rt))
     end)
    (fun _ => console_error "Error loading tokens:" ;; ret None).

(** *** Session manager *)

(** A method call on [this.oauth2Client]: a [TypeError] when it is null. *)
Definition the_client : M OAuth2Client :=
  let* c := gets (fun s => oauth2Client (this s)) in
  match c with
  | Some c => ret c
  | None => throw TypeError
  end.

Definition setCredentials (tokens : Credentials) : M unit :=
  let* c := the_client in
  modify (set_this (set_client (Some (with_credentials tokens c)))).

(** [refreshAccessToken] binds the token set it obtains to the handle
    before it returns it. *)
Definition call_refreshAccessToken : M Credentials :=
  let* c := the_client in
  modify (log_net RefreshAccessToken) ;;
  match refreshAccessToken rt c with
  | Some newTokens =>
      modify (set_this (set_client (Some (with_credentials newTokens c)))) ;;
      ret newTokens
  | None => throw ProviderError
  end.

Definition call_getToken (code : string) : M Credentials :=
  let* c := the_client in
  modify (log_net (GetToken code)) ;;
  match getToken rt c code with
  | Some tokens => ret tokens
  | None => throw ProviderError
  end.

(** [credentials.installed || credentials.web || {}] *)
Definition client_block (c : CredentialsFile) : ClientBlock :=
  match installed c with
  | Some b => b
  | None => match web c with
            | Some b => b
            | None => mkClientBlock None None []
            end
  end.

(** The pair of a truthy client id and a truthy client secret. *)
Definition client_keys (b : ClientBlock) : option (string * string) :=
  match client_id b, client_secret b with
  | Some id, Some secret =>
      if truthy (Some id) && truthy (Some secret) then Some (id, secret) else None
  | _, _ => None
  end.

(** [redirect_uris?.[0] || "http://localhost:3000/oauth2callback"] *)
Definition first_redirect (b : ClientBlock) : string :=
  match redirect_uris b with
  | u :: _ => if truthy (Some u) then u else DEFAULT_REDIRECT
  | [] => DEFAULT_REDIRECT
  end.

(** [tokens.expiry_date && tokens.expiry_date < Date.now()] *)
Definition needs_refresh (tokens : Credentials) : bool :=
  match expiry_date tokens with
  | Some (Finite e) => negb (Z.eqb e 0) && Z.ltb e (now rt)
  | Some NaN => false
  | None => false
  end.

(** Lines 257-308.  The value computed in the middle is what the [try]
    statement returns from the function, if it does. *)
Definition initialize : M bool :=
  let* credentials := loadCredentials in
  match credentials with
  | None =>
      console_error "No credentials found. Please place your Google OAuth credentials at:" ;;
      console_error "You can download credentials from: https://console.cloud.google.com/apis/credentials" ;;
      ret false
  | Some credentials =>
      match client_keys (client_block credentials) with
      | None =>
          console_error "Invalid credentials file format" ;;
          ret false
      | Some (id, secret) =>
          modify (set_this (set_client
            (Some (new_OAuth2 id secret (first_redirect (client_block credentials)))))) ;;
          let* tokens := loadTokens in
          match tokens with
          | Some tokens =>
              setCredentials tokens ;;
              let* returned :=
                (if needs_refresh tokens then
                   try_catch
                     (let* newTokens := call_refreshAccessToken in
                      saveTokens newTokens ;;
                      setCredentials newTokens ;;
                      ret None)
                     (fun _ =>
                        console_error "Error refreshing token, re-authentication required:" ;;
                        modify (set_this (set_authenticated false)) ;;
                        ret (Some false))
                 else ret None) in
              match returned with
              | Some b => ret b
              | None =>
                  modify (set_this (set_authenticated true)) ;;
                  ret true
              end
          | None => ret false
          end
      end
  end.

(** Lines 439-458. *)
Definition setAuthCode (code : string) : M bool :=
  let* c := gets (fun s => oauth2Client (this s)) in
  (if bool_decide (c = None) then initialize ;; ret tt else ret tt) ;;
  let* c := gets (fun s => oauth2Client (this s)) in
  match c with
  | None => ret false
  | Some _ =>
      try_catch
        (let* tokens := call_getToken code in
         setCredentials tokens ;;
         saveTokens tokens ;;
         modify (set_this (set_authenticated true)) ;;
         ret true)
        (fun _ => console_error "Error exchanging auth code:" ;; ret false)
  end.

(** Lines 460-478. *)
Definition getClient : M (option OAuth2Client) :=
  gets (fun s => oauth2Client (this s)).

Definition is_ready (o : GoogleOAuth) : bool :=
  isAuthenticated o && bool_decide (oauth2Client o <> None).

Definition isReady : M bool := gets (fun s => is_ready (this s)).

Definition getAuthUrl : M (option string) :=
  let* c := gets (fun s => oauth2Client (this s)) in
  match c with
  | None => ret None
  | Some c => ret (Some (generateAuthUrl rt c))
  end.

(** [this.oauth2Client.revokeCredentials()], not awaited: before its
    first [await] the library empties the token set of the handle; then it
    asks the provider to revoke the access token it found, and with no
    access token the promise it has returned rejects. *)
Definition revokeCredentials : M unit :=
  let* c := the_client in
  modify (set_this (set_client (Some (without_credentials c)))) ;;
  modify (log_net (RevokeCredentials
    (match credentials c with Some t => access_token t | None => None end))).

(** Lines 480-488. *)
Definition logout : M unit :=
  let* found := existsSync (TOKEN_PATH (host rt)) in
  (if found then unlinkSync (TOKEN_PATH (host rt)) else ret tt) ;;
  modify (set_this (set_authenticated false)) ;;
  let* c := gets (fun s => oauth2Client (this s)) in
  match c with
  | Some _ => revokeCredentials
  | None => ret tt
  end.

(** *** The interactive flow

    [authenticate] returns a promise.  Its prefix runs at once and either
    returns a value or leaves a pending flow: a listener, the promise to
    settle, and the handlers that the event loop will run. *)

Inductive Listener := Binding | Open | Closed.
Inductive Outcome := Success | Failure | TimedOut.

Record Flow := mkFlow {
  flow_port : Z;
  flow_authUrl : string;
  server : Listener;
  settled : option Outcome;    (* the promise; the first [resolve] wins *)
  responses : list Z;          (* status codes sent, in order *)
  exchanges : list (OAuth2Client * string)
                               (* [getToken] calls in flight: handle and code *)
}.

Inductive Started :=
| Resolved (b : bool)
| Pending (f : Flow).

Definition server_close (f : Flow) : Flow :=
  mkFlow (flow_port f) (flow_authUrl f) Closed (settled f) (responses f) (exchanges f).
Definition server_listening (f : Flow) : Flow :=
  mkFlow (flow_port f) (flow_authUrl f) Open (settled f) (responses f) (exchanges f).
Definition resolve (o : Outcome) (f : Flow) : Flow :=
  match settled f with
  | Some _ => f
  | None => mkFlow (flow_port f) (flow_authUrl f) (server f) (Some o) (responses f) (exchanges f)
  end.
Definition respond (status : Z) (f : Flow) : Flow :=
  mkFlow (flow_port f) (flow_authUrl f) (server f) (settled f) (responses f ++ [status]) (exchanges f).
Definition set_exchanges (l : list (OAuth2Client * string)) (f : Flow) : Flow :=
  mkFlow (flow_port f) (flow_authUrl f) (server f) (settled f) (responses f) l.

(** The value the promise holds. *)
Definition promise_value (f : Flow) : option bool :=
  match settled f with
  | Some Success => Some true
  | Some _ => Some false
  | None => None
  end.

Definition loopback_redirect (port : Z) : string :=
  "http://localhost:" +:+ pretty port +:+ CALLBACK_PATH.

(** Lines 329-370: [authenticate] up to the creation of the listener. *)
Definition authenticate : M Started :=
  let* c := gets (fun s => oauth2Client (this s)) in
  let* returned :=
    (if bool_decide (c = None) then
       let* initialized := initialize in
       let* c := gets (fun s => oauth2Client (this s)) in
       if negb initialized && bool_decide (c = None) then ret (Some false) else ret None
     else ret None) in
  match returned with
  | Some b => ret (Resolved b)
  | None =>
      let* authenticated := gets (fun s => isAuthenticated (this s)) in
      if authenticated then ret (Resolved true)
      else
        let* found :=
          try_catch
            (match findAvailablePort_default (isPortAvailable rt) with
             | PortFound port => console_error "Found available port:" ;; ret (Some port)
             | NoPortAvailable a b => throw (NoAvailablePorts a b)
             | BadPort port => throw (RangeError port)
             end)
            (fun _ =>
               console_error "Failed to find available port for OAuth callback:" ;;
               ret None) in
        match found with
        | None => ret (Resolved false)
        | Some port =>
            let redirectUri := loopback_redirect port in
            let* credentials := loadCredentials in
            (match credentials with
             | Some credentials =>
                 match client_keys (client_block credentials) with
                 | Some (id, secret) =>
                     modify (set_this (set_client (Some (new_OAuth2 id secret redirectUri))))
                 | None => ret tt
                 end
             | None => ret tt
             end) ;;
            let* c := the_client in
            ret (Pending (mkFlow port (generateAuthUrl rt c) Binding None [] []))
        end
  end.

(** Lines 314-327. *)
Definition initializeWithAuth : M Started :=
  let* initialized := initialize in
  let* authenticated := gets (fun s => isAuthenticated (this s)) in
  if initialized && authenticated then ret (Resolved true)
  else
    let* c := gets (fun s => oauth2Client (this s)) in
    match c with
    | Some _ =>
        console_error "No valid tokens found, starting authentication flow..." ;;
        authenticate
    | None => ret (Resolved false)
    end.

(** The result of [new URL(req.url, base)] as the handler reads it. *)
Record URL := mkURL {
  pathname : string;
  code_param : option string    (* [searchParams.get("code")] *)
}.

(** What the event loop can deliver to a pending flow. *)
Inductive Event :=
| Listening                      (* the bind succeeded *)
| Request (url : option URL)     (* a request; [None]: [new URL] throws *)
| TokenResponse (i : nat)        (* the provider answers exchange [i] *)
| ServerError                    (* the listener emits "error" *)
| Deadline.                      (* the five-minute timer fires *)

(** The callback of [server.listen] (lines 415-420). *)
Definition on_listening (f : Flow) : M Flow :=
  console_error "OAuth callback server listening on port" ;;
  console_error "Opening browser for authentication..." ;;
  console_error "If browser doesn't open, visit:" ;;
  modify (log_net (OpenBrowser (flow_authUrl f))) ;;
  ret (server_listening f).

(** The [catch] block of the request handler (lines 406-412). *)
Definition callback_failed (f : Flow) : M Flow :=
  console_error "OAuth callback error:" ;;
  ret (resolve Failure (server_close (respond 500 f))).

(** The request handler up to its [await] (lines 372-380, 399-404). *)
Definition on_request (url : option URL) (f : Flow) : M Flow :=
  try_catch
    (match url with
     | None => throw InvalidURL
     | Some url =>
         if String.eqb (pathname url) CALLBACK_PATH then
           if truthy (code_param url) then
             let code := default "" (code_param url) in
             let* c := the_client in
             modify (log_net (GetToken code)) ;;
             ret (set_exchanges (exchanges f ++ [(c, code)]) f)
           else
             ret (resolve Failure (server_close (respond 400 f)))
         else ret f
     end)
    (fun _ => callback_failed f).

(** The request handler from its [await] on (lines 380-398): the
    provider has answered the exchange of the [i]-th code in flight. *)
Definition on_token_response (i : nat) (f : Flow) : M Flow :=
  match exchanges f !! i with
  | None => ret f
  | Some (c, code) =>
      let f := set_exchanges (delete i (exchanges f)) f in
      try_catch
        (match getToken rt c code with
         | None => throw ProviderError
         | Some tokens =>
             setCredentials tokens ;;
             saveTokens tokens ;;
             modify (set_this (set_authenticated true)) ;;
             ret (resolve Success (server_close (respond 200 f)))
         end)
        (fun _ => callback_failed f)
  end.

(** The "error" handler of the listener (lines 423-426). *)
Definition on_error (f : Flow) : M Flow :=
  console_error "OAuth server error:" ;;
  ret (resolve Failure f).

(** The timer (lines 429-435). *)
Definition on_deadline (f : Flow) : M Flow :=
  let* authenticated := gets (fun s => isAuthenticated (this s)) in
  if authenticated then ret f
  else
    console_error "Authentication timeout - closing OAuth server" ;;
    ret (resolve TimedOut (server_close f)).

(** One turn of the event loop.  A request reaches the handler only
    while the listener accepts connections, and the bind succeeds only
    once. *)
Definition step (e : Event) (f : Flow) : M Flow :=
  match e with
  | Listening => match server f with Binding => on_listening f | _ => ret f end
  | Request url => match server f with Open => on_request url f | _ => ret f end
  | TokenResponse i => on_token_response i f
  | ServerError => on_error f
  | Deadline => on_deadline f
  end.

Fixpoint run (es : list Event) (f : Flow) : M Flow :=
  match es with
  | [] => ret f
  | e :: es => let* f' := step e f in run es f'
  end.

End Session.

(** * Vocabulary of the statements *)

(** An environment variable holds the non-empty value [v]. *)
Definition env_holds (h : Host) (name v : string) : Prop :=
  getenv h name = Some v /\ v <> "".

(** An environment variable is missing or holds the empty string. *)
Definition env_blank (h : Host) (name : string) : Prop :=
  getenv h name = None \/ getenv h name = Some "".

(** What a loader finds, read off the environment value and the disk
    without effects: the environment text when it is truthy, else the
    content of the file when it exists and can be read; then the parse. *)
Definition stored_text (envv : option string) (p : path) (d : FileSystem) : option string :=
  if truthy envv then envv
  else if exists_on d p then
         if bool_decide (p ∈ locked d) then None else fst <$> files d !! p
       else None.

Definition stored_json {A} (parse : string -> Parsed A)
    (envv : option string) (p : path) (d : FileSystem) : option A :=
  match stored_text envv p d with
  | Some text => match parse text with
                 | ParsedValue a => Some a
                 | _ => None
                 end
  | None => None
  end.

Definition stored_credentials (rt : Runtime) (d : FileSystem) : option CredentialsFile :=
  stored_json (parseCredentialsFile rt)
              (getenv (host rt) "GOOGLE_CREDENTIALS_JSON") (CREDENTIALS_PATH (host rt)) d.

Definition stored_tokens (rt : Runtime) (d : FileSystem) : option Credentials :=
  stored_json (parseTokens rt)
              (getenv (host rt) "GOOGLE_TOKENS_JSON") (TOKEN_PATH (host rt)) d.

(** The client handle [initialize] builds from a credentials file. *)
Definition client_of (rt : Runtime) (d : FileSystem) : option OAuth2Client :=
  match stored_credentials rt d with
  | Some c =>
      match client_keys (client_block c) with
      | Some (id, secret) => Some (new_OAuth2 id secret (first_redirect (client_block c)))
      | None => None
      end
  | None => None
  end.

Definition is_read (c : FsCall) : Prop :=
  match c with
  | ExistsSync _ | ReadFileSync _ => True
  | _ => False
  end.

(** [s'] differs from [s] by reads of the disk and console lines only. *)
Definition only_reads (s s' : State) : Prop :=
  this s' = this s /\ disk s' = disk s /\ net_calls s' = net_calls s /\
  exists l, fs_calls s' = (fs_calls s ++ l)%list /\ Forall is_read l.

(** The session fields other than the directories flag are the same. *)
Definition same_session (s s' : State) : Prop :=
  oauth2Client (this s') = oauth2Client (this s) /\
  isAuthenticated (this s') = isAuthenticated (this s).

(** The file system calls of [ensureDirectoriesExist]: existence checks
    and directory creations with mode 0700, on the two application
    directories. *)
Definition is_setup_call (rt : Runtime) (c : FsCall) : Prop :=
  match c with
  | ExistsSync p => p = getConfigDir (host rt) \/ p = getDataDir (host rt)
  | MkdirSync p mode =>
      (p = getConfigDir (host rt) \/ p = getDataDir (host rt)) /\ mode = MODE_DIR
  | _ => False
  end.

(** [d'] has the directories of [d] and possibly new ones of mode [mode];
    files and locks are those of [d]. *)
Definition dirs_added (mode : Z) (d d' : FileSystem) : Prop :=
  files d' = files d /\ locked d' = locked d /\
  (forall p m, dirs d !! p = Some m -> dirs d' !! p = Some m) /\
  (forall p m, dirs d' !! p = Some m -> dirs d !! p = Some m \/ m = mode).

Definition touches_dir (dir : path) (c : FsCall) : Prop :=
  c = ExistsSync dir \/ c = MkdirSync dir MODE_DIR.

Definition never_throws {A} (m : M A) : Prop := forall s, returns (m s).

(** The common shape of [loadCredentials] and [loadTokens]. *)
Definition loader {A} (parse : string -> Parsed A) (envv : option string)
    (p : path) (msg : string) : M (option A) :=
  try_catch
    (match envv with
     | Some text =>
         if truthy envv then JSON_parse parse text
         else read_json_file parse p
     | None => read_json_file parse p
     end)
    (fun _ => console_error msg ;; ret None).

(** One guarded creation of [ensureDirectoriesExist]. *)
Definition ensure_dir (dir : path) (msg : string) : M unit :=
  let* have := existsSync dir in
  if have then ret tt
  else mkdirSync dir MODE_DIR ;; console_error msg.

(** What [initialize] returns and how it leaves the session, by what the
    stores hold.  [c0] is the handle built from the credentials. *)
Definition initialize_outcome (rt : Runtime) (s : State) (b : bool) (s' : State) : Prop :=
  match client_of rt (disk s) with
  | None =>
      b = false /\ this s' = this s /\ disk s' = disk s /\ net_calls s' = net_calls s
  | Some c0 =>
      match stored_tokens rt (disk s) with
      | None =>
          b = false /\ this s' = set_client (Some c0) (this s) /\
          disk s' = disk s /\ net_calls s' = net_calls s
      | Some tokens =>
          let c1 := with_credentials tokens c0 in
          if needs_refresh rt tokens then
            match refreshAccessToken rt c1 with
            | None =>
                b = false /\ disk s' = disk s /\
                this s' = set_authenticated false (set_client (Some c1) (this s))
            | Some newTokens =>
                oauth2Client (this s') = Some (with_credentials newTokens c0) /\
                ((b = true /\ isAuthenticated (this s') = true) \/
                 (b = false /\ isAuthenticated (this s') = false))
            end
          else
            b = true /\ disk s' = disk s /\ net_calls s' = net_calls s /\
            this s' = set_authenticated true (set_client (Some c1) (this s))
      end
  end.

(** The part of [authenticate] after the early returns. *)
Definition authenticate_flow (rt : Runtime) : M Started :=
  let* authenticated := gets (fun s => isAuthenticated (this s)) in
  if authenticated then ret (Resolved true)
  else
    let* found :=
      try_catch
        (match findAvailablePort_default (isPortAvailable rt) with
         | PortFound port => console_error "Found available port:" ;; ret (Some port)
         | NoPortAvailable a b => throw (NoAvailablePorts a b)
         | BadPort port => throw (RangeError port)
         end)
        (fun _ =>
           console_error "Failed to find available port for OAuth callback:" ;;
           ret None) in
    match found with
    | None => ret (Resolved false)
    | Some port =>
        let redirectUri := loopback_redirect port in
        let* credentials := loadCredentials rt in
        (match credentials with
         | Some credentials =>
             match client_keys (client_block credentials) with
             | Some (id, secret) =>
                 modify (set_this (set_client (Some (new_OAuth2 id secret redirectUri))))
             | None => ret tt
             end
         | None => ret tt
         end) ;;
        let* c := the_client in
        ret (Pending (mkFlow port (generateAuthUrl rt c) Binding None [] []))
    end.

(** A flow as [authenticate] leaves it: the listener not yet bound, the
    promise pending, nothing sent, no exchange in flight. *)
Definition fresh_flow (f : Flow) : Prop :=
  server f = Binding /\ settled f = None /\ responses f = [] /\ exchanges f = [].

(** What [authenticate] leaves behind when it returns a pending flow. *)
Definition pending_ok (rt : Runtime) (r : Started) (s' : State) : Prop :=
  match r with
  | Resolved _ => True
  | Pending f =>
      fresh_flow f /\
      findAvailablePort_default (isPortAvailable rt) = PortFound (flow_port f) /\
      isAuthenticated (this s') = false /\
      is_Some (oauth2Client (this s'))
  end.

(** How one turn of the event loop can change the flow. *)
Definition step_shape (e : Event) (f : Flow) (s : State) (f' : Flow) (s' : State) : Prop :=
  (f' = f /\ isAuthenticated (this s') = isAuthenticated (this s)) \/
  (exists l, f' = set_exchanges l f /\
             isAuthenticated (this s') = isAuthenticated (this s)) \/
  (server f = Binding /\ f' = server_listening f /\
   isAuthenticated (this s') = isAuthenticated (this s)) \/
  (exists o st l, f' = resolve o (server_close (respond st (set_exchanges l f))) /\
                  (isAuthenticated (this s') = isAuthenticated (this s) \/
                   isAuthenticated (this s') = true)) \/
  (e = ServerError /\ f' = resolve Failure f /\
   isAuthenticated (this s') = isAuthenticated (this s)) \/
  (e = Deadline /\ isAuthenticated (this s) = false /\
   f' = resolve TimedOut (server_close f) /\
   isAuthenticated (this s') = isAuthenticated (this s)).

(** While the session is authenticated, the promise is settled and the
    listener closed. *)
Definition flow_inv (f : Flow) (s : State) : Prop :=
  isAuthenticated (this s) = true -> settled f <> None /\ server f = Closed.

(** What JSON keeps of a token set: [JSON.stringify] writes a [NaN] as
    [null], which [JSON.parse] reads back as no number; strings and
    integers are kept. *)
Definition json_image (t : Credentials) : Credentials :=
  mkCredentials (access_token t) (refresh_token t)
    (match expiry_date t with
     | Some NaN => None
     | e => e
     end)
    (scope t) (token_type t).

(** Nothing stands in the way of creating the directory [p]: none of its
    ancestors, [p] included, is a regular file or refused by the system. *)
Definition can_create (d : FileSystem) (p : path) : Prop :=
  forall q, q ∈ ancestors p -> (q ∉ locked d) /\ files d !! q = None.

(** A directory can be had at [p]: something is at the path already, or
    the directory can be created. *)
Definition dir_available (d : FileSystem) (p : path) : Prop :=
  exists_on d p = true \/ can_create d p.

(** * Concrete scenarios

    A Linux host, a provider and a [JSON] codec on a handful of texts, used
    to run the model on explicit inputs. *)

Definition dq : string := String (Ascii.ascii_of_nat 34) "".
Definition quoted (s : string) : string := dq +:+ s +:+ dq.

Definition json_field (name value : string) : string :=
  quoted name +:+ ": " +:+ value.

Definition json_string_field (name : string) (value : option string) : list string :=
  match value with
  | Some v => [json_field name (quoted v)]
  | None => []
  end.

Definition json_number_field (name : string) (value : option JsNumber) : list string :=
  match value with
  | Some (Finite v) => [json_field name (pretty v)]
  | Some NaN => [json_field name "null"]
  | None => []
  end.

Fixpoint json_members (l : list string) : string :=
  match l with
  | [] => ""
  | [x] => x
  | x :: rest => x +:+ ", " +:+ json_members rest
  end.

Definition nl : string := String (Ascii.ascii_of_nat 10) "".

(** The members of an object as [JSON.stringify(_, null, 2)] lays them
    out: one member a line, indented by two spaces. *)
Fixpoint json_join (sep : string) (l : list string) : string :=
  match l with
  | [] => ""
  | [x] => x
  | x :: rest => x +:+ sep +:+ json_join sep rest
  end.

Definition json_lines (l : list string) : string :=
  match l with
  | [] => ""
  | _ => nl +:+ "  " +:+ json_join ("," +:+ nl +:+ "  ") l +:+ nl
  end.

(** [JSON.stringify(tokens, null, 2)] on the token sets of the scenarios,
    whose strings need no escaping: a missing field is left out, a [NaN]
    is written as [null]. *)
Definition demo_stringify (t : Credentials) : string :=
  "{" +:+ json_lines
    (json_string_field "access_token" (access_token t) ++
     json_string_field "refresh_token" (refresh_token t) ++
     json_number_field "expiry_date" (expiry_date t) ++
     json_string_field "scope" (scope t) ++
     json_string_field "token_type" (token_type t))%list +:+ "}".

Definition tokens_valid : Credentials :=
  mkCredentials (Some "token") (Some "refresh") (Some (Finite 5000)) None None.
Definition tokens_expired : Credentials :=
  mkCredentials (Some "old") (Some "revoked") (Some (Finite 1000)) None None.
Definition tokens_expired_no_refresh : Credentials :=
  mkCredentials (Some "old") None (Some (Finite 1000)) None None.
Definition tokens_epoch : Credentials :=
  mkCredentials (Some "old") None (Some (Finite 0)) None None.
Definition tokens_new : Credentials :=
  mkCredentials (Some "new") (Some "refresh") (Some (Finite 9000)) None None.

(** A token set whose expiry date is not a number. *)
Definition tokens_nan : Credentials :=
  mkCredentials (Some "token") (Some "refresh") (Some NaN) None None.

Definition demo_token_sets : list Credentials :=
  [tokens_valid; tokens_expired; tokens_expired_no_refresh; tokens_epoch; tokens_new;
   tokens_nan].

(** [JSON.parse] on the texts of the scenarios: the serialized token sets
    are read back as JSON keeps them, [null] is falsy, anything else is a
    syntax error. *)
Definition demo_parseTokens (text : string) : Parsed Credentials :=
  match List.find (fun t => String.eqb text (demo_stringify t)) demo_token_sets with
  | Some t => ParsedValue (json_image t)
  | None => if String.eqb text "null" then ParsedFalsy else SyntaxError
  end.

Definition demo_block : ClientBlock :=
  mkClientBlock (Some "id") (Some "secret") ["http://localhost"].
Definition demo_credentials : CredentialsFile :=
  mkCredentialsFile (Some demo_block) None.
Definition demo_credentials_text : string :=
  "{" +:+ quoted "installed" +:+ ": {" +:+
    json_members [json_field "client_id" (quoted "id");
                  json_field "client_secret" (quoted "secret");
                  json_field "redirect_uris" ("[" +:+ quoted "http://localhost" +:+ "]")]
  +:+ "}}".

(** A credentials file whose [installed] block has no fields. *)
Definition empty_block_credentials : CredentialsFile :=
  mkCredentialsFile (Some (mkClientBlock None None [])) None.
Definition empty_block_credentials_text : string :=
  "{" +:+ quoted "installed" +:+ ": {}}".

Definition demo_parseCredentials (text : string) : Parsed CredentialsFile :=
  if String.eqb text demo_credentials_text then ParsedValue demo_credentials
  else if String.eqb text empty_block_credentials_text
       then ParsedValue empty_block_credentials
  else if String.eqb text "null" then ParsedFalsy
  else SyntaxError.

Definition demo_authUrl (c : OAuth2Client) : string :=
  "https://accounts.google.com/o/oauth2/v2/auth?redirect_uri=" +:+ redirectUri c.

Definition linux_host (env : gmap string string) : Host :=
  mkHost "linux" "/home/user" env.

(** The provider: a refresh needs a refresh token other than the revoked
    one; the one code it exchanges is [good-code]. *)
Definition demo_refresh (c : OAuth2Client) : option Credentials :=
  match credentials c with
  | Some t =>
      match refresh_token t with
      | Some r => if String.eqb r "revoked" then None else Some tokens_new
      | None => None
      end
  | None => None
  end.

Definition demo_getToken (c : OAuth2Client) (code : string) : option Credentials :=
  if String.eqb code "good-code" then Some tokens_valid else None.

Definition demo_runtime (env : gmap string string) (probe : Z -> bool) : Runtime :=
  mkRuntime (linux_host env) 2000
            demo_parseCredentials demo_parseTokens demo_stringify
            demo_refresh demo_getToken demo_authUrl probe.

Definition demo_config_dir : path := ["/home/user"; ".config"; "google-mcp"].
Definition demo_data_dir : path := ["/home/user"; ".local"; "share"; "google-mcp"].
Definition demo_credentials_path : path := (demo_config_dir ++ ["credentials.json"])%list.
Definition demo_token_path : path := (demo_data_dir ++ ["tokens.json"])%list.

Definition demo_dirs : gmap path Z :=
  {[ demo_config_dir := 448; demo_data_dir := 448 ]}.

(** A disk with the two application directories, the credentials file
    and, when [tokens] is given, a token file. *)
Definition demo_disk (tokens : option Credentials) (locks : gset path) : FileSystem :=
  mkFS (match tokens with
        | Some t => {[ demo_credentials_path := (demo_credentials_text, 384);
                       demo_token_path := (demo_stringify t, 384) ]}
        | None => {[ demo_credentials_path := (demo_credentials_text, 384) ]}
        end)
       demo_dirs locks.

(** The process right after [new GoogleOAuth()] found both directories. *)
Definition booted (d : FileSystem) : State :=
  mkState (mkOAuth None false true) d [] [] [].

Definition darwin_empty_xdg : Host :=
  mkHost "darwin" "/Users/user" {[ "XDG_CONFIG_HOME" := "" ]}.

Definition all_ports_free : Z -> bool := fun _ => true.

Definition blank_env_runtime : Runtime :=
  demo_runtime {[ "GOOGLE_TOKENS_JSON" := "" ]} all_ports_free.

(** The directories flag is set, but the data directory has been removed
    since. *)
Definition data_dir_removed : State :=
  mkState (mkOAuth None false true)
          (mkFS ∅ {[ demo_config_dir := 448 ]} ∅) [] [] [].

Definition malformed_env_runtime : Runtime :=
  demo_runtime {[ "GOOGLE_CREDENTIALS_JSON" := "{not json";
                  "GOOGLE_TOKENS_JSON" := "{not json" ]} all_ports_free.

Definition empty_env_runtime : Runtime :=
  demo_runtime {[ "GOOGLE_CREDENTIALS_JSON" := "";
                  "GOOGLE_TOKENS_JSON" := "" ]} all_ports_free.

(** An authenticated session whose token file cannot be removed. *)
Definition authenticated_locked : State :=
  mkState (mkOAuth (Some (with_credentials tokens_valid
                            (new_OAuth2 "id" "secret" "http://localhost")))
                   true true)
          (demo_disk (Some tokens_valid) {[ demo_token_path ]}) [] [] [].

(** The flow and the state that [authenticate] leaves in the Linux
    scenario with credentials on disk, no token file and port 3000 free. *)
Definition demo_pending_client : OAuth2Client :=
  new_OAuth2 "id" "secret" "http://localhost:3000/oauth2callback".

Definition demo_pending_flow : Flow :=
  mkFlow 3000 (demo_authUrl demo_pending_client) Binding None [] [].

Definition demo_pending_state : State :=
  mkState (mkOAuth (Some demo_pending_client) false true)
          (demo_disk None ∅)
          [ExistsSync demo_credentials_path; ReadFileSync demo_credentials_path;
           ExistsSync demo_token_path;
           ExistsSync demo_credentials_path; ReadFileSync demo_credentials_path]
          []
          ["Found available port:"].

(** The flow of the scenario once its listener is bound. *)
Definition demo_listening_flow : Flow := server_listening demo_pending_flow.

(** The scenarios of the repository's test suite: a process that has not
    run the constructor yet, on a disk given by its files and directories. *)
Definition before_constructor (fs : gmap path (string * Z)) (ds : gmap path Z)
    (locks : gset path) : State :=
  mkState fresh_session (mkFS fs ds locks) [] [] [].

Definition credentials_only (text : string) : gmap path (string * Z) :=
  {[ demo_credentials_path := (text, 384) ]}.

Definition test_runtime : Runtime := demo_runtime ∅ all_ports_free.

(** What a run returns, and what it throws. *)
Definition value_of {A} (r : Result A) : option A :=
  match r with
  | Return a _ => Some a
  | Throw _ _ => None
  end.

Definition thrown_of {A} (r : Result A) : option Error :=
  match r with
  | Return _ _ => None
  | Throw e _ => Some e
  end.

(** * Vocabulary and scenarios of the later sections *)

(** The token file can be written: its directory is there, access is not
    refused and no directory sits at its path. *)
Definition token_path_writable (rt : Runtime) (d : FileSystem) : Prop :=
  is_Some (dirs d !! getDataDir (host rt)) /\
  (TOKEN_PATH (host rt) ∉ locked d) /\
  dirs d !! TOKEN_PATH (host rt) = None.

(** [saveTokens] has nothing to do, or somewhere to put the tokens. *)
Definition can_save (rt : Runtime) (d : FileSystem) : Prop :=
  (exists v, env_holds (host rt) "GOOGLE_TOKENS_JSON" v) \/ token_path_writable rt d.

(** The token set bound to the client handle of the session. *)
Definition bound_tokens (o : GoogleOAuth) : option Credentials :=
  match oauth2Client o with
  | Some c => credentials c
  | None => None
  end.

(** The session that [logout] leaves: not authenticated, and the client
    handle, if there is one, without its token set. *)
Definition logged_out (o : GoogleOAuth) : GoogleOAuth :=
  match oauth2Client o with
  | Some c => set_client (Some (without_credentials c)) (set_authenticated false o)
  | None => set_authenticated false o
  end.

(** A file system call that only looks at [p]. *)
Definition reads_path (p : path) (c : FsCall) : Prop :=
  c = ExistsSync p \/ c = ReadFileSync p.

(** An authenticated session on a disk that holds the token file. *)
Definition authenticated_session : State :=
  mkState (mkOAuth (Some (with_credentials tokens_valid
                            (new_OAuth2 "id" "secret" "http://localhost")))
                   true true)
          (demo_disk (Some tokens_valid) ∅) [] [] [].

(** The token set is handed over in the environment. *)
Definition env_tokens_runtime : Runtime :=
  demo_runtime {[ "GOOGLE_TOKENS_JSON" := demo_stringify tokens_valid ]} all_ports_free.

(** A provider that renews every token set. *)
Definition renewing_runtime : Runtime :=
  mkRuntime (linux_host ∅) 2000
            demo_parseCredentials demo_parseTokens demo_stringify
            (fun _ => Some tokens_new) demo_getToken demo_authUrl all_ports_free.

(** A session that has its client handle and no tokens yet, on a disk
    whose token path is refused when [locks] says so. *)
Definition awaiting_code (locks : gset path) : State :=
  mkState (mkOAuth (Some (new_OAuth2 "id" "secret" "http://localhost")) false true)
          (demo_disk None locks) [] [] [].

(** The handle a new flow works with: built from the client credentials
    that [authenticate] reads again, with the loopback redirect URI of the
    port; the handle [c] of the session when they cannot be read or lack a
    key. *)
Definition flow_client (rt : Runtime) (d : FileSystem) (port : Z) (c : OAuth2Client)
    : OAuth2Client :=
  match stored_credentials rt d with
  | Some file =>
      match client_keys (client_block file) with
      | Some (id, secret) => new_OAuth2 id secret (loopback_redirect port)
      | None => c
      end
  | None => c
  end.

(** What [authenticate] leaves behind on a session that has a handle. *)
Definition authenticate_outcome (rt : Runtime) (s : State) (c : OAuth2Client)
    (r : Started) (s' : State) : Prop :=
  match r with
  | Resolved b =>
      this s' = this s /\ fs_calls s' = fs_calls s /\
      (b = true <-> isAuthenticated (this s) = true) /\
      (b = false ->
       forall q, PORT_RANGE_START <= q <= PORT_RANGE_END -> isPortAvailable rt q = false)
  | Pending f =>
      isAuthenticated (this s) = false /\ isAuthenticated (this s') = false /\
      fresh_flow f /\
      PORT_RANGE_START <= flow_port f <= PORT_RANGE_END /\
      isPortAvailable rt (flow_port f) = true /\
      (forall q, PORT_RANGE_START <= q < flow_port f -> isPortAvailable rt q = false) /\
      oauth2Client (this s') = Some (flow_client rt (disk s) (flow_port f) c) /\
      flow_authUrl f = generateAuthUrl rt (flow_client rt (disk s) (flow_port f) c)
  end.

(** The callback request that carries [code]. *)
Definition callback (code : option string) : Event :=
  Request (Some (mkURL CALLBACK_PATH code)).

(** A probe that finds the ports below [p] taken. *)
Definition free_from (p : Z) : Z -> bool := fun q => Z.leb p q.
(** * Facts about the model *)

Lemma run_eq {A} (r : Result A) (a : A) :
  value_of r = Some a -> r = Return a (final_state r).
Proof. destruct r; simpl; congruence. Qed.

Lemma throw_eq {A} (r : Result A) (e : Error) :
  thrown_of r = Some e -> r = Throw e (final_state r).
Proof. destruct r; simpl; congruence. Qed.

(** Close a closed equation by evaluation in the virtual machine; the
    proof term keeps the two sides as they are written.  A run that is
    compared with its own final state is evaluated once, for what it
    returns or throws. *)
Ltac by_vm :=
  lazymatch goal with
  | |- ?r = Return ?a (final_state _) =>
      exact (run_eq r a (@eq_refl _ (Some a) <: value_of r = Some a))
  | |- ?r = Throw ?e (final_state _) =>
      exact (throw_eq r e (@eq_refl _ (Some e) <: thrown_of r = Some e))
  | |- @eq ?T ?l ?r => exact (@eq_refl T r <: @eq T l r)
  end.

(** ** The repository's tests, run on the model

    Each example replays one case of the test suite of the module: the
    mocked file system becomes a disk, the mocked provider is the one of
    the scenarios. *)

(** "should create directories if they don't exist" *)
Example test_constructor_creates_directories :
  fs_calls (final_state (new_GoogleOAuth test_runtime (before_constructor ∅ ∅ ∅))) =
    [ExistsSync demo_config_dir; MkdirSync demo_config_dir 448;
     ExistsSync demo_data_dir; MkdirSync demo_data_dir 448] /\
  directoriesInitialized
    (this (final_state (new_GoogleOAuth test_runtime (before_constructor ∅ ∅ ∅)))) = true.
Proof. split; by_vm. Qed.

(** "should skip if directories exist": the constructor has set the flag,
    a second call makes no file system call. *)
Example test_ensure_skips_when_initialized :
  ensureDirectoriesExist test_runtime (booted (demo_disk None ∅)) =
    Return tt (booted (demo_disk None ∅)).
Proof. reflexivity. Qed.

(** "should handle errors gracefully": mkdirSync throws, the constructor
    does not. *)
Example test_constructor_survives_mkdir_error :
  returns (new_GoogleOAuth test_runtime
             (before_constructor ∅ ∅ {[ demo_config_dir; demo_data_dir ]})) /\
  directoriesInitialized
    (this (final_state (new_GoogleOAuth test_runtime
             (before_constructor ∅ ∅ {[ demo_config_dir; demo_data_dir ]})))) = false.
Proof. split; [vm_compute; exact I|by_vm]. Qed.

(** "should return false without credentials" *)
Example test_initialize_without_credentials :
  exists s', initialize test_runtime (before_constructor ∅ demo_dirs ∅) = Return false s' /\
             oauth2Client (this s') = None.
Proof.
  exists (final_state (initialize test_runtime (before_constructor ∅ demo_dirs ∅))).
  split; by_vm.
Qed.

(** "should return false with invalid credentials" *)
Example test_initialize_invalid_credentials :
  exists s',
    initialize test_runtime
      (before_constructor (credentials_only empty_block_credentials_text) demo_dirs ∅)
    = Return false s' /\
    console s' = ["Invalid credentials file format"].
Proof.
  exists (final_state (initialize test_runtime
            (before_constructor (credentials_only empty_block_credentials_text) demo_dirs ∅))).
  split; by_vm.
Qed.

(** "should initialize with valid credentials": no tokens, so the result
    is false, but the client handle is there. *)
Example test_initialize_valid_credentials :
  exists s',
    initialize test_runtime (booted (demo_disk None ∅)) = Return false s' /\
    oauth2Client (this s') = Some (new_OAuth2 "id" "secret" "http://localhost").
Proof.
  exists (final_state (initialize test_runtime (booted (demo_disk None ∅)))).
  split; by_vm.
Qed.

(** "should load existing tokens" *)
Example test_initialize_loads_tokens :
  exists s',
    initialize test_runtime (booted (demo_disk (Some tokens_valid) ∅)) = Return true s' /\
    is_ready (this s') = true.
Proof.
  exists (final_state (initialize test_runtime (booted (demo_disk (Some tokens_valid) ∅)))).
  split; by_vm.
Qed.

(** "should return false before auth", "should return null before init" *)
Example test_accessors_before_init :
  isReady (booted (demo_disk None ∅)) = Return false (booted (demo_disk None ∅)) /\
  getClient (booted (demo_disk None ∅)) = Return None (booted (demo_disk None ∅)) /\
  getAuthUrl test_runtime (booted (demo_disk None ∅)) =
    Return None (booted (demo_disk None ∅)).
Proof. repeat split. Qed.

(** "should return false without init" *)
Example test_setAuthCode_without_credentials :
  exists s',
    setAuthCode test_runtime "good-code" (before_constructor ∅ demo_dirs ∅)
    = Return false s'.
Proof.
  exists (final_state (setAuthCode test_runtime "good-code"
                         (before_constructor ∅ demo_dirs ∅))).
  by_vm.
Qed.

(** "should exchange code for tokens" *)
Example test_setAuthCode_exchanges_code :
  exists s',
    setAuthCode test_runtime "good-code" (booted (demo_disk None ∅)) = Return true s' /\
    is_ready (this s') = true /\
    files (disk s') !! demo_token_path = Some (demo_stringify tokens_valid, 384).
Proof.
  exists (final_state (setAuthCode test_runtime "good-code" (booted (demo_disk None ∅)))).
  split; [by_vm|]. split; by_vm.
Qed.

(** "should delete tokens" *)
Example test_logout_deletes_tokens :
  exists s',
    logout test_runtime (booted (demo_disk (Some tokens_valid) ∅)) = Return tt s' /\
    fs_calls s' = [ExistsSync demo_token_path; UnlinkSync demo_token_path] /\
    files (disk s') !! demo_token_path = None /\
    is_ready (this s') = false.
Proof.
  exists (final_state (logout test_runtime (booted (demo_disk (Some tokens_valid) ∅)))).
  split; [by_vm|]. split; [by_vm|]. split; by_vm.
Qed.

(** "should handle missing tokens file" *)
Example test_logout_without_token_file :
  exists s',
    logout test_runtime (booted (demo_disk None ∅)) = Return tt s' /\
    fs_calls s' = [ExistsSync demo_token_path].
Proof.
  exists (final_state (logout test_runtime (booted (demo_disk None ∅)))).
  split; by_vm.
Qed.

(** ** Truthiness *)

Lemma truthy_Some_iff (v : option string) :
  truthy v = true <-> exists s, v = Some s /\ s <> "".
Proof.
  destruct v as [s|]; simpl.
  - rewrite negb_true_iff. split.
    + intros H. exists s. split; [done|]. by apply String.eqb_neq.
    + intros (s' & [= <-] & Hne). by apply String.eqb_neq.
  - split; [done|]. by intros (s & ? & _).
Qed.

Lemma truthy_false_iff (v : option string) :
  truthy v = false <-> v = None \/ v = Some "".
Proof.
  destruct v as [s|]; simpl.
  - rewrite negb_false_iff, String.eqb_eq. split.
    + intros ->. by right.
    + by intros [|[= ->]].
  - split; [by left|done].
Qed.

(** ** Port allocator *)

Example scan_ex1 :
  findAvailablePort (fun p => Z.eqb p 3002) 3000 3100 = PortFound 3002.
Proof. reflexivity. Qed.

Example scan_ex2 :
  findAvailablePort_default (fun p => false) = NoPortAvailable 3000 3100.
Proof. by_vm. Qed.

Lemma valid_port_range (port : Z) : valid_port port = true <-> 0 <= port <= 65535.
Proof. unfold valid_port. rewrite andb_true_iff, !Z.leb_le. done. Qed.

Section PortAllocatorFacts.

Variable probe : Z -> bool.

Lemma scanPorts_spec (port endPort : Z) :
  match snd (scanPorts probe port endPort) with
  | Found p =>
      port <= p <= endPort /\ valid_port p = true /\ probe p = true /\
      (forall q, port <= q < p -> valid_port q = true /\ probe q = false) /\
      fst (scanPorts probe port endPort) = seqZ port (p - port + 1)
  | Exhausted =>
      (forall q, port <= q <= endPort -> valid_port q = true /\ probe q = false) /\
      fst (scanPorts probe port endPort) = seqZ port (Z.max 0 (endPort - port + 1))
  | OutOfRange p =>
      port <= p <= endPort /\ valid_port p = false /\
      (forall q, port <= q < p -> valid_port q = true /\ probe q = false) /\
      fst (scanPorts probe port endPort) = seqZ port (p - port + 1)
  end.
Proof.
  funelim (scanPorts probe port endPort).
  - destruct (valid_port port) eqn:Hv; simpl.
    2:{ repeat split; try lia; [done|].
        replace (port - port + 1) with 1 by lia. reflexivity. }
    destruct (probe port) eqn:Hp; simpl.
    + repeat split; try lia; [done|done|].
      replace (port - port + 1) with 1 by lia. reflexivity.
    + destruct (snd (scanPorts probe (port + 1) endPort)) as [p| |p].
      * destruct H as (Hr & Hval & Hav & Hlt & Hseq).
        split; [lia|]. split; [done|]. split; [done|]. split.
        -- intros q Hq. destruct (decide (q = port)) as [->|Hne]; [done|].
           apply Hlt. lia.
        -- rewrite Hseq, (seqZ_cons port) by lia.
           f_equal. f_equal; lia.
      * destruct H as (Hall & Hseq). split.
        -- intros q Hq. destruct (decide (q = port)) as [->|Hne]; [done|].
           apply Hall. lia.
        -- rewrite Hseq, (seqZ_cons port) by lia.
           f_equal. f_equal; lia.
      * destruct H as (Hr & Hval & Hlt & Hseq).
        split; [lia|]. split; [done|]. split.
        -- intros q Hq. destruct (decide (q = port)) as [->|Hne]; [done|].
           apply Hlt. lia.
        -- rewrite Hseq, (seqZ_cons port) by lia.
           f_equal. f_equal; lia.
  - simpl. split; [intros q Hq; lia|].
    rewrite seqZ_nil; [done|lia].
Qed.

(** The scan never probes a port twice and stops at the first success:
    the probes are the consecutive ports from [startPort] on. *)
Lemma probedPorts_consecutive (startPort endPort : Z) :
  exists n, probedPorts probe startPort endPort = seqZ startPort n /\
            n <= Z.max 0 (endPort - startPort + 1).
Proof.
  unfold probedPorts.
  pose proof (scanPorts_spec startPort endPort) as H.
  destruct (snd (scanPorts probe startPort endPort)) as [p| |p].
  - destruct H as (? & _ & _ & _ & ->). eexists; split; [done|lia].
  - destruct H as (_ & ->). eexists; split; [done|lia].
  - destruct H as (? & _ & _ & ->). eexists; split; [done|lia].
Qed.

(** Within 0..65535 the scan never meets a number that is no port. *)
Lemma scanPorts_in_range (startPort endPort : Z) :
  0 <= startPort -> endPort <= 65535 ->
  forall p, snd (scanPorts probe startPort endPort) <> OutOfRange p.
Proof.
  intros Hlo Hhi p Heq.
  pose proof (scanPorts_spec startPort endPort) as H. rewrite Heq in H.
  destruct H as (Hr & Hval & _).
  assert (valid_port p = true) as Hv by (apply valid_port_range; lia).
  congruence.
Qed.

End PortAllocatorFacts.

(** C5, the claim as stated fails.  A range may hold numbers that are no
    ports: for 70000..70010 nothing is occupied, yet findAvailablePort
    returns no port and does not fail with its no-port-available error; it
    fails with the RangeError that server.listen throws at 70000.  And for
    65535..65536 with the one port of the range taken, the failure is again
    the RangeError, at 65536. *)
Lemma findAvailablePort_range_error :
  findAvailablePort all_ports_free 70000 70010 = BadPort 70000 /\
  probedPorts all_ports_free 70000 70010 = [70000] /\
  (forall p, findAvailablePort all_ports_free 70000 70010 <> PortFound p) /\
  findAvailablePort all_ports_free 70000 70010 <> NoPortAvailable 70000 70010 /\
  findAvailablePort (fun _ => false) 65535 65536 = BadPort 65536.
Proof.
  split; [reflexivity|]. split; [reflexivity|].
  split; [intros p; discriminate|]. split; [discriminate|reflexivity].
Qed.

(** C5, amended.  For every inclusive range [startPort, endPort] of port
    numbers (0 <= startPort and endPort <= 65535), findAvailablePort
    probes the ports one after the other from startPort upwards and returns
    the first port whose bind probe succeeds: the returned port lies in the
    range, its probe succeeded and every smaller port of the range failed
    its probe.  It fails with the no-port-available error exactly when
    every port of the range is occupied (its probe fails).  The default
    range is 3000..3100, a window of 101 ports.  For any range, it fails
    with the RangeError of server.listen at p exactly when p is the first
    number of the range outside 0..65535 and every port before it is
    occupied. *)
Theorem findAvailablePort_first_free (probe : Z -> bool) (startPort endPort : Z) :
  (0 <= startPort -> endPort <= 65535 ->
   (forall p, findAvailablePort probe startPort endPort = PortFound p <->
              startPort <= p <= endPort /\ probe p = true /\
              forall q, startPort <= q < p -> probe q = false) /\
   (findAvailablePort probe startPort endPort = NoPortAvailable startPort endPort <->
    forall q, startPort <= q <= endPort -> probe q = false) /\
   ((exists p, findAvailablePort probe startPort endPort = PortFound p) \/
    findAvailablePort probe startPort endPort = NoPortAvailable startPort endPort) /\
   (forall p, findAvailablePort probe startPort endPort = PortFound p ->
              probedPorts probe startPort endPort = seqZ startPort (p - startPort + 1)) /\
   (findAvailablePort probe startPort endPort = NoPortAvailable startPort endPort ->
    probedPorts probe startPort endPort = seqZ startPort (Z.max 0 (endPort - startPort + 1)))) /\
  findAvailablePort_default probe = findAvailablePort probe 3000 3100 /\
  length (seqZ PORT_RANGE_START (PORT_RANGE_END - PORT_RANGE_START + 1)) = 101%nat /\
  (forall p, findAvailablePort probe startPort endPort = BadPort p <->
             startPort <= p <= endPort /\ ~ (0 <= p <= 65535) /\
             forall q, startPort <= q < p -> 0 <= q <= 65535 /\ probe q = false).
Proof.
  split; [|split; [done|split; [done|]]].
  - intros Hlo Hhi.
    pose proof (scanPorts_in_range probe startPort endPort Hlo Hhi) as Hin.
    unfold findAvailablePort, probedPorts.
    pose proof (scanPorts_spec probe startPort endPort) as H.
    destruct (snd (scanPorts probe startPort endPort)) as [p0| |p0].
    + destruct H as (Hr & _ & Hav & Hlt & Hseq).
      split; [|split; [|split; [|split]]]; try done.
      * intros p. split.
        -- intros [= <-]. split; [done|]. split; [done|].
           intros q Hq. by apply Hlt.
        -- intros (Hr' & Hav' & Hlt'). f_equal.
           destruct (Z.lt_trichotomy p0 p) as [Hlt0|[->|Hgt0]]; [|done|].
           ++ rewrite Hlt' in Hav by lia. done.
           ++ destruct (Hlt p) as [_ Hbusy]; [lia|]. congruence.
      * split; [done|]. intros Hall. rewrite Hall in Hav by lia. done.
      * left. by exists p0.
      * by intros p [= <-].
    + destruct H as (Hall & Hseq).
      split; [|split; [|split; [|split]]]; try done.
      * intros p. split; [done|].
        intros (Hr' & Hav' & _). destruct (Hall p) as [_ Hbusy]; [lia|]. congruence.
      * split; [|done]. intros _ q Hq. by apply Hall.
      * by right.
    + by destruct (Hin p0).
  - intros p. unfold findAvailablePort.
    pose proof (scanPorts_spec probe startPort endPort) as H.
    destruct (snd (scanPorts probe startPort endPort)) as [p0| |p0].
    + split; [done|]. intros (Hr & Hbad & Hbefore).
      destruct H as (Hr0 & Hval & Hav & Hlt & _). apply valid_port_range in Hval.
      destruct (Z.lt_trichotomy p0 p) as [Hlt0|[->|Hgt0]].
      * destruct (Hbefore p0) as [_ Hbusy]; [lia|]. congruence.
      * done.
      * destruct (Hlt p) as [Hv _]; [lia|]. by apply valid_port_range in Hv.
    + split; [done|]. intros (Hr & Hbad & _).
      destruct H as (Hall & _). destruct (Hall p Hr) as [Hv _].
      by apply valid_port_range in Hv.
    + destruct H as (Hr0 & Hbad0 & Hlt & _).
      assert (~ (0 <= p0 <= 65535)) as Hbad0'.
      { intros Hv. apply valid_port_range in Hv. congruence. }
      split.
      * intros [= <-]. split; [done|]. split; [done|].
        intros q Hq. destruct (Hlt q Hq) as [Hv Hbusy].
        by apply valid_port_range in Hv.
      * intros (Hr & Hbad & Hbefore). f_equal.
        destruct (Z.lt_trichotomy p0 p) as [Hlt0|[->|Hgt0]]; [|done|].
        -- destruct (Hbefore p0) as [Hv _]; [lia|]. done.
        -- destruct (Hlt p) as [Hv _]; [lia|]. by apply valid_port_range in Hv.
Qed.

(** C5 at a concrete input: the ports 3000 and 3001 are taken. *)
Lemma findAvailablePort_first_free_witness :
  findAvailablePort (free_from 3002) 3000 3100 = PortFound 3002 /\
  probedPorts (free_from 3002) 3000 3100 = [3000; 3001; 3002].
Proof.
  pose proof (proj1 (findAvailablePort_first_free (free_from 3002) 3000 3100)
                ltac:(lia) ltac:(lia)) as (Hfound & _ & _ & Hprobed & _).
  assert (findAvailablePort (free_from 3002) 3000 3100 = PortFound 3002) as Hport.
  { apply Hfound. split; [lia|]. split; [reflexivity|].
    intros q Hq. unfold free_from. apply Z.leb_gt. lia. }
  split; [exact Hport|]. rewrite (Hprobed _ Hport). reflexivity.
Defined.

(** ** Platform path resolver *)

Lemma env_dir_holds h name v : env_holds h name v -> env_dir h name = Some [v].
Proof.
  intros [Hv Hne]. unfold env_dir. rewrite Hv. simpl.
  apply String.eqb_neq in Hne. by rewrite Hne.
Qed.

Lemma env_dir_blank h name : env_blank h name -> env_dir h name = None.
Proof. unfold env_dir. by intros [-> | ->]. Qed.

Lemma env_holds_or_blank h name : (exists v, env_holds h name v) \/ env_blank h name.
Proof.
  unfold env_holds, env_blank. destruct (getenv h name) as [v|]; [|by right; left].
  destruct (decide (v = "")) as [->|Hne]; [by right; right|left; by exists v].
Qed.

(** C8, the claim as stated fails: on macOS with XDG_CONFIG_HOME set to
    the empty string the variable does not take precedence; the resolver
    answers ~/Library/Application Support/google-mcp. *)
Lemma getConfigDir_empty_xdg_falls_back :
  getenv darwin_empty_xdg "XDG_CONFIG_HOME" = Some "" /\
  getConfigDir darwin_empty_xdg <> path_join [[""]; [APP_NAME]] /\
  getConfigDir darwin_empty_xdg =
    ["/Users/user"; "Library"; "Application Support"; "google-mcp"].
Proof. split; [by_vm|]. split; [|by_vm]. vm_compute. discriminate. Qed.

(** C8, amended.  The resolver is a function of the platform identifier,
    the home directory and the environment, and follows the convention
    table, an environment variable counting only when it holds a non-empty
    value: on win32 both directories are APPDATA/google-mcp, or
    home/AppData/Roaming/google-mcp when APPDATA is missing or empty; on
    darwin the config (data) directory is XDG_CONFIG_HOME/google-mcp
    (XDG_DATA_HOME/google-mcp) when that variable is non-empty, else
    home/Library/Application Support/google-mcp; on every other platform
    config is XDG_CONFIG_HOME/google-mcp or home/.config/google-mcp and
    data is XDG_DATA_HOME/google-mcp or home/.local/share/google-mcp. *)
Theorem resolvePaths_convention (h : Host) :
  (platform h = "win32" ->
     (forall v, env_holds h "APPDATA" v ->
        getConfigDir h = [v; APP_NAME] /\ getDataDir h = [v; APP_NAME]) /\
     (env_blank h "APPDATA" ->
        getConfigDir h = [homedir h; "AppData"; "Roaming"; APP_NAME] /\
        getDataDir h = [homedir h; "AppData"; "Roaming"; APP_NAME])) /\
  (platform h = "darwin" ->
     (forall v, env_holds h "XDG_CONFIG_HOME" v -> getConfigDir h = [v; APP_NAME]) /\
     (env_blank h "XDG_CONFIG_HOME" ->
        getConfigDir h = [homedir h; "Library"; "Application Support"; APP_NAME]) /\
     (forall v, env_holds h "XDG_DATA_HOME" v -> getDataDir h = [v; APP_NAME]) /\
     (env_blank h "XDG_DATA_HOME" ->
        getDataDir h = [homedir h; "Library"; "Application Support"; APP_NAME])) /\
  (platform h <> "win32" -> platform h <> "darwin" ->
     (forall v, env_holds h "XDG_CONFIG_HOME" v -> getConfigDir h = [v; APP_NAME]) /\
     (env_blank h "XDG_CONFIG_HOME" ->
        getConfigDir h = [homedir h; ".config"; APP_NAME]) /\
     (forall v, env_holds h "XDG_DATA_HOME" v -> getDataDir h = [v; APP_NAME]) /\
     (env_blank h "XDG_DATA_HOME" ->
        getDataDir h = [homedir h; ".local"; "share"; APP_NAME])).
Proof.
  unfold getConfigDir, getDataDir, env_or.
  split; [|split].
  - intros ->. simpl. split.
    + intros v Hv. by rewrite (env_dir_holds _ _ _ Hv).
    + intros Hb. by rewrite (env_dir_blank _ _ Hb).
  - intros ->. simpl. repeat split.
    + intros v Hv. by rewrite (env_dir_holds _ _ _ Hv).
    + intros Hb. by rewrite (env_dir_blank _ _ Hb).
    + intros v Hv. by rewrite (env_dir_holds _ _ _ Hv).
    + intros Hb. by rewrite (env_dir_blank _ _ Hb).
  - intros Hw Hd.
    apply String.eqb_neq in Hw, Hd. rewrite Hw, Hd. repeat split.
    + intros v Hv. by rewrite (env_dir_holds _ _ _ Hv).
    + intros Hb. by rewrite (env_dir_blank _ _ Hb).
    + intros v Hv. by rewrite (env_dir_holds _ _ _ Hv).
    + intros Hb. by rewrite (env_dir_blank _ _ Hb).
Qed.

(** ** Running the monad *)

(** Unfold the monad and the primitives, then let the projections of the
    updated states compute. *)
Ltac run_m :=
  cbv beta iota zeta delta
    [bind ret throw try_catch gets modify console_error JSON_parse
     existsSync readFileSync writeFileSync mkdirSync unlinkSync
     read_json_file the_client setCredentials];
  simpl.

Lemma bind_Return {A B} (m : M A) (k : A -> M B) s a s1 :
  m s = Return a s1 -> bind m k s = k a s1.
Proof. unfold bind. by intros ->. Qed.

Lemma bind_Throw {A B} (m : M A) (k : A -> M B) s e s1 :
  m s = Throw e s1 -> bind m k s = Throw e s1.
Proof. unfold bind. by intros ->. Qed.

#[local] Instance only_reads_refl : Reflexive only_reads.
Proof.
  intros s. repeat split. exists []. by rewrite app_nil_r.
Qed.

#[local] Instance only_reads_trans : Transitive only_reads.
Proof.
  intros s1 s2 s3 (Ht & Hd & Hn & l & Hl & Hr) (Ht' & Hd' & Hn' & l' & Hl' & Hr').
  repeat split; [congruence..|].
  exists (l ++ l')%list. split; [|by apply Forall_app].
  by rewrite Hl', Hl, app_assoc.
Qed.

Lemma only_reads_console msg s : only_reads s (log_console msg s).
Proof. repeat split. exists []. by rewrite app_nil_r. Qed.

Lemma only_reads_log c s : is_read c -> only_reads s (log_fs c s).
Proof. intros Hc. repeat split. exists [c]. split; [done|by constructor]. Qed.

(** ** Credential store: the loaders *)

Lemma JSON_parse_run {A} (parse : string -> Parsed A) text msg s :
  exists s', try_catch (JSON_parse parse text) (fun _ => console_error msg ;; ret None) s
             = Return (match parse text with ParsedValue a => Some a | _ => None end) s' /\
             only_reads s s'.
Proof.
  run_m. destruct (parse text); simpl.
  - eexists; split; [done|]. apply only_reads_console.
  - eexists; split; [done|]. reflexivity.
  - eexists; split; [done|]. reflexivity.
Qed.

Lemma read_json_file_run {A} (parse : string -> Parsed A) p msg s :
  exists s', try_catch (read_json_file parse p) (fun _ => console_error msg ;; ret None) s
             = Return (stored_json parse None p (disk s)) s' /\
             only_reads s s'.
Proof.
  unfold stored_json, stored_text. run_m.
  destruct (exists_on (disk s) p) eqn:Hex; simpl.
  - case_bool_decide as Hl; simpl.
    + eexists; split; [done|].
      etrans; [apply (only_reads_log (ExistsSync p)); done|].
      etrans; [apply (only_reads_log (ReadFileSync p)); done|].
      apply only_reads_console.
    + destruct (files (disk s) !! p) as [[data mode]|] eqn:Hf; simpl.
      * destruct (parse data); simpl; (eexists; split; [done|]).
        all: etrans; [apply (only_reads_log (ExistsSync p)); done|].
        all: etrans; [apply (only_reads_log (ReadFileSync p)); done|].
        all: try apply only_reads_console; reflexivity.
      * eexists; split; [done|].
        etrans; [apply (only_reads_log (ExistsSync p)); done|].
        etrans; [apply (only_reads_log (ReadFileSync p)); done|].
        apply only_reads_console.
  - eexists; split; [done|]. by apply (only_reads_log (ExistsSync p)).
Qed.

Lemma loader_run {A} (parse : string -> Parsed A) envv p msg s :
  exists s', loader parse envv p msg s = Return (stored_json parse envv p (disk s)) s' /\
             only_reads s s'.
Proof.
  unfold loader. destruct envv as [text|].
  - destruct (truthy (Some text)) eqn:Ht.
    + unfold stored_json, stored_text. rewrite Ht. apply JSON_parse_run.
    + replace (stored_json parse (Some text) p (disk s))
        with (stored_json parse None p (disk s))
        by (unfold stored_json, stored_text; by rewrite Ht).
      apply read_json_file_run.
  - apply read_json_file_run.
Qed.

Lemma loadCredentials_run rt s :
  exists s', loadCredentials rt s = Return (stored_credentials rt (disk s)) s' /\
             only_reads s s'.
Proof. apply (loader_run (parseCredentialsFile rt)). Qed.

Lemma loadTokens_run rt s :
  exists s', loadTokens rt s = Return (stored_tokens rt (disk s)) s' /\
             only_reads s s'.
Proof. apply (loader_run (parseTokens rt)). Qed.

(** ** Credential store: directories and the token file *)

Lemma dirname_snoc (d : path) (x : string) : dirname (path_join [d; [x]]) = d.
Proof.
  unfold dirname, path_join. simpl.
  apply removelast_last.
Qed.

Lemma dirname_TOKEN_PATH h : dirname (TOKEN_PATH h) = getDataDir h.
Proof. apply dirname_snoc. Qed.

#[local] Instance dirs_added_refl mode : Reflexive (dirs_added mode).
Proof. intros d. repeat split; auto. Qed.

#[local] Instance dirs_added_trans mode : Transitive (dirs_added mode).
Proof.
  intros d1 d2 d3 (Hf & Hl & Hk & Hn) (Hf' & Hl' & Hk' & Hn').
  repeat split; [congruence..| |].
  - intros p m H. by apply Hk', Hk.
  - intros p m H. destruct (Hn' _ _ H) as [H'|]; [|by right]. by apply Hn.
Qed.

Lemma add_dir_added q mode d :
  dirs d !! q = None -> dirs_added mode d (add_dir q mode d).
Proof.
  intros Hq. repeat split; simpl; auto.
  - intros p m Hp. destruct (decide (q = p)) as [->|Hne]; [congruence|].
    by rewrite lookup_insert_ne.
  - intros p m Hp. destruct (decide (q = p)) as [->|Hne].
    + rewrite lookup_insert_eq in Hp. right. congruence.
    + rewrite lookup_insert_ne in Hp by done. by left.
Qed.

Lemma make_dirs_cons target q qs mode s :
  make_dirs target (q :: qs) mode s =
    if bool_decide (is_Some (dirs (disk s) !! q)) then make_dirs target qs mode s
    else if bool_decide (is_Some (files (disk s) !! q)) then
      Throw (FsError (if bool_decide (q = target) then "EEXIST" else "ENOTDIR") target) s
    else if bool_decide (q ∈ locked (disk s)) then Throw (FsError "EACCES" target) s
    else make_dirs target qs mode (set_disk (add_dir q mode) s).
Proof.
  simpl. unfold bind at 1, gets at 1.
  repeat case_bool_decide; reflexivity.
Qed.

(** The walk of [mkdirSync]: it only adds directories, each of them one
    of the paths walked, with the mode asked for; when it returns, every
    path walked is a directory; and it returns when none of them is a
    regular file or refused. *)
Lemma make_dirs_run target qs mode s :
  this (final_state (make_dirs target qs mode s)) = this s /\
  fs_calls (final_state (make_dirs target qs mode s)) = fs_calls s /\
  net_calls (final_state (make_dirs target qs mode s)) = net_calls s /\
  dirs_added mode (disk s) (disk (final_state (make_dirs target qs mode s))) /\
  (forall q m, dirs (disk (final_state (make_dirs target qs mode s))) !! q = Some m ->
     dirs (disk s) !! q = Some m \/ (q ∈ qs /\ m = mode)) /\
  (returns (make_dirs target qs mode s) ->
     forall q, q ∈ qs -> is_Some (dirs (disk (final_state (make_dirs target qs mode s))) !! q)) /\
  ((forall q, q ∈ qs -> (q ∉ locked (disk s)) /\ files (disk s) !! q = None) ->
     returns (make_dirs target qs mode s)).
Proof.
  revert s. induction qs as [|q qs IH]; intros s.
  { simpl. split; [done|]. split; [done|]. split; [done|]. split; [reflexivity|].
    split; [by left|]. split; [by intros _ q ?%elem_of_nil|done]. }
  rewrite make_dirs_cons.
  assert (forall s1, dirs_added mode (disk s) (disk s1) ->
            this s1 = this s -> fs_calls s1 = fs_calls s -> net_calls s1 = net_calls s ->
            (forall p m, dirs (disk s1) !! p = Some m ->
               dirs (disk s) !! p = Some m \/ (p = q /\ m = mode)) ->
            is_Some (dirs (disk s1) !! q) ->
            this (final_state (make_dirs target qs mode s1)) = this s /\
            fs_calls (final_state (make_dirs target qs mode s1)) = fs_calls s /\
            net_calls (final_state (make_dirs target qs mode s1)) = net_calls s /\
            dirs_added mode (disk s) (disk (final_state (make_dirs target qs mode s1))) /\
            (forall p m, dirs (disk (final_state (make_dirs target qs mode s1))) !! p = Some m ->
               dirs (disk s) !! p = Some m \/ (p ∈ q :: qs /\ m = mode)) /\
            (returns (make_dirs target qs mode s1) ->
               forall p, p ∈ q :: qs ->
                 is_Some (dirs (disk (final_state (make_dirs target qs mode s1))) !! p)) /\
            ((forall p, p ∈ q :: qs -> (p ∉ locked (disk s)) /\ files (disk s) !! p = None) ->
               returns (make_dirs target qs mode s1))) as Hstep.
  { intros s1 Hadd Ht Hf Hn Hnew Hq.
    destruct (IH s1) as (Ht' & Hf' & Hn' & Hadd' & Hnew' & Hall' & Hret').
    split; [congruence|]. split; [congruence|]. split; [congruence|].
    split; [by etrans|]. split; [|split].
    - intros p m Hp. destruct (Hnew' p m Hp) as [Hp1|[Hin ->]].
      + destruct (Hnew p m Hp1) as [?|[-> ->]]; [by left|right].
        split; [by left|done].
      + right. split; [by right|done].
    - intros Hr p [->|Hin]%elem_of_cons; [|by apply Hall'].
      destruct Hq as [m Hm]. destruct Hadd' as (_ & _ & Hk & _).
      exists m. by apply Hk.
    - intros Hok. apply Hret'. intros p Hin.
      destruct Hadd as (Hfiles & Hlocked & _).
      rewrite Hfiles, Hlocked. apply Hok. by right. }
  case_bool_decide as Hd.
  { apply Hstep; [reflexivity|done|done|done| |done]. intros p m Hp. by left. }
  case_bool_decide as Hfile; simpl.
  { split; [done|]. split; [done|]. split; [done|]. split; [reflexivity|].
    split; [by left|]. split; [done|].
    intros Hok. destruct (Hok q) as [_ Hnone]; [by left|].
    rewrite Hnone in Hfile. by destruct Hfile. }
  case_bool_decide as Hlock; simpl.
  { split; [done|]. split; [done|]. split; [done|]. split; [reflexivity|].
    split; [by left|]. split; [done|].
    intros Hok. destruct (Hok q) as [Hnl _]; [by left|done]. }
  assert (dirs (disk s) !! q = None) as Hnone.
  { destruct (dirs (disk s) !! q) eqn:E; [|done]. exfalso. apply Hd. eauto. }
  apply (Hstep (set_disk (add_dir q mode) s)); [|done|done|done| |].
  - by apply add_dir_added.
  - simpl. intros p m Hp. destruct (decide (q = p)) as [->|Hne].
    + rewrite lookup_insert_eq in Hp. right. split; [done|congruence].
    + rewrite lookup_insert_ne in Hp by done. by left.
  - simpl. rewrite lookup_insert_eq. eauto.
Qed.

Lemma ensure_dir_eq dir msg s :
  ensure_dir dir msg s =
    if exists_on (disk s) dir then Return tt (log_fs (ExistsSync dir) s)
    else match make_dirs dir (ancestors dir) MODE_DIR
                 (log_fs (MkdirSync dir MODE_DIR) (log_fs (ExistsSync dir) s)) with
         | Return _ s1 => Return tt (log_console msg s1)
         | Throw e s1 => Throw e s1
         end.
Proof.
  unfold ensure_dir, existsSync, mkdirSync, console_error, bind, gets, modify, ret. simpl.
  destruct (exists_on (disk s) dir); [reflexivity|].
  by destruct (make_dirs dir (ancestors dir) MODE_DIR _) as [[] s1|e s1].
Qed.

Lemma ensure_dir_run dir msg s :
  exists l,
    fs_calls (final_state (ensure_dir dir msg s)) = (fs_calls s ++ l)%list /\
    Forall (touches_dir dir) l /\
    this (final_state (ensure_dir dir msg s)) = this s /\
    net_calls (final_state (ensure_dir dir msg s)) = net_calls s /\
    dirs_added MODE_DIR (disk s) (disk (final_state (ensure_dir dir msg s))).
Proof.
  rewrite ensure_dir_eq. unfold touches_dir.
  destruct (exists_on (disk s) dir); simpl.
  - exists [ExistsSync dir]. repeat split; auto.
  - exists [ExistsSync dir; MkdirSync dir MODE_DIR].
    destruct (make_dirs_run dir (ancestors dir) MODE_DIR
                (log_fs (MkdirSync dir MODE_DIR) (log_fs (ExistsSync dir) s)))
      as (Ht & Hf & Hn & Hadd & _).
    destruct (make_dirs dir (ancestors dir) MODE_DIR _) as [[] s1|e s1]; simpl in *.
    + rewrite Hf, Ht, Hn, <- app_assoc.
      split; [done|]. split; [auto|]. split; [done|]. split; [done|exact Hadd].
    + rewrite Hf, Ht, Hn, <- app_assoc.
      split; [done|]. split; [auto|]. split; [done|]. split; [done|exact Hadd].
Qed.

Lemma ensureDirectoriesExist_unfold rt :
  ensureDirectoriesExist rt =
  (let* initialized := gets (fun s => directoriesInitialized (this s)) in
   if initialized then ret tt
   else
     try_catch
       (ensure_dir (getConfigDir (host rt)) "Created config directory" ;;
        ensure_dir (getDataDir (host rt)) "Created data directory" ;;
        modify (set_this (set_directoriesInitialized true)))
       (fun _ => console_error "Error creating directories:")).
Proof. reflexivity. Qed.

Lemma touches_setup rt c :
  touches_dir (getConfigDir (host rt)) c \/ touches_dir (getDataDir (host rt)) c ->
  is_setup_call rt c.
Proof. intros [[-> | ->] | [-> | ->]]; simpl; auto. Qed.

Lemma ensureDirectoriesExist_run rt s :
  exists s' l,
    ensureDirectoriesExist rt s = Return tt s' /\
    same_session s s' /\ net_calls s' = net_calls s /\
    dirs_added MODE_DIR (disk s) (disk s') /\
    fs_calls s' = (fs_calls s ++ l)%list /\ Forall (is_setup_call rt) l /\
    (directoriesInitialized (this s) = true -> s' = s /\ l = []).
Proof.
  rewrite ensureDirectoriesExist_unfold.
  unfold bind at 1, gets at 1.
  destruct (directoriesInitialized (this s)) eqn:Hinit.
  { exists s, []. rewrite app_nil_r. repeat split; auto. }
  unfold try_catch, bind.
  destruct (ensure_dir_run (getConfigDir (host rt)) "Created config directory" s)
    as (l1 & Hc1 & Hl1 & Ht1 & Hn1 & Hd1).
  assert (Forall (is_setup_call rt) l1) as Hs1.
  { eapply Forall_impl; [exact Hl1|]. intros c Hc. apply touches_setup. by left. }
  destruct (ensure_dir (getConfigDir (host rt)) "Created config directory" s)
    as [[] s1|e s1]; simpl in *.
  - destruct (ensure_dir_run (getDataDir (host rt)) "Created data directory" s1)
      as (l2 & Hc2 & Hl2 & Ht2 & Hn2 & Hd2).
    assert (Forall (is_setup_call rt) l2) as Hs2.
    { eapply Forall_impl; [exact Hl2|]. intros c Hc. apply touches_setup. by right. }
    destruct (ensure_dir (getDataDir (host rt)) "Created data directory" s1)
      as [[] s2|e s2]; simpl in *.
    + exists (set_this (set_directoriesInitialized true) s2), (l1 ++ l2)%list.
      split; [reflexivity|]. simpl.
      split; [unfold same_session; simpl; by rewrite Ht2, Ht1|].
      split; [congruence|]. split; [by etrans|].
      split; [by rewrite Hc2, Hc1, app_assoc|].
      split; [by apply Forall_app|done].
    + exists (log_console "Error creating directories:" s2), (l1 ++ l2)%list.
      split; [reflexivity|]. simpl.
      split; [unfold same_session; simpl; by rewrite Ht2, Ht1|].
      split; [congruence|]. split; [by etrans|].
      split; [by rewrite Hc2, Hc1, app_assoc|].
      split; [by apply Forall_app|done].
  - exists (log_console "Error creating directories:" s1), l1.
    split; [reflexivity|]. simpl.
    split; [unfold same_session; simpl; by rewrite Ht1|].
    repeat split; auto; try apply Hd1; done.
Qed.

(** ** Where the two files live *)

Lemma last_path_snoc (d : path) (x : string) : last (path_join [d; [x]]) = Some x.
Proof. unfold path_join. simpl. apply last_snoc. Qed.

Lemma getConfigDir_last h : last (getConfigDir h) = Some APP_NAME.
Proof.
  unfold getConfigDir.
  destruct (String.eqb (platform h) "win32"); [apply last_path_snoc|].
  destruct (String.eqb (platform h) "darwin"); [|apply last_path_snoc].
  destruct (env_dir h "XDG_CONFIG_HOME"); [apply last_path_snoc|reflexivity].
Qed.

Lemma getDataDir_last h : last (getDataDir h) = Some APP_NAME.
Proof.
  unfold getDataDir.
  destruct (String.eqb (platform h) "win32"); [apply last_path_snoc|].
  destruct (String.eqb (platform h) "darwin"); [|apply last_path_snoc].
  destruct (env_dir h "XDG_DATA_HOME"); [apply last_path_snoc|reflexivity].
Qed.

Lemma paths_distinct h : CREDENTIALS_PATH h <> TOKEN_PATH h.
Proof.
  intros H. apply (f_equal last) in H.
  unfold CREDENTIALS_PATH, TOKEN_PATH in H. rewrite !last_path_snoc in H.
  discriminate.
Qed.

Lemma elem_of_map_cons (x : string) (q : path) (l : list path) :
  q ∈ map (cons x) l <-> exists q', q = x :: q' /\ q' ∈ l.
Proof.
  rewrite list_elem_of_In, in_map_iff. split.
  - intros (q' & <- & Hin). exists q'. by rewrite list_elem_of_In.
  - intros (q' & -> & Hin). exists q'. by rewrite <- list_elem_of_In.
Qed.

(** Every ancestor of a directory ends in one of its components. *)
Lemma ancestors_last (p q : path) x :
  q ∈ ancestors p -> last q = Some x -> x ∈ p.
Proof.
  revert q. induction p as [|y p IH]; intros q Hq Hl; simpl in Hq.
  - by apply elem_of_nil in Hq.
  - apply elem_of_cons in Hq as [->|Hq].
    + simpl in Hl. injection Hl as <-. by left.
    + apply elem_of_map_cons in Hq as (q' & -> & Hq').
      destruct q' as [|z q'].
      * simpl in Hl. injection Hl as <-. by left.
      * right. apply (IH (z :: q')); [done|]. exact Hl.
Qed.

Lemma ancestors_length (p q : path) :
  q ∈ ancestors p -> (length q <= length p)%nat.
Proof.
  revert q. induction p as [|y p IH]; intros q Hq; simpl in Hq.
  - by apply elem_of_nil in Hq.
  - apply elem_of_cons in Hq as [->|Hq]; [simpl; lia|].
    apply elem_of_map_cons in Hq as (q' & -> & Hq').
    simpl. specialize (IH _ Hq'). lia.
Qed.

Lemma ancestors_self (p : path) : p <> [] -> p ∈ ancestors p.
Proof.
  induction p as [|x p IH]; [done|]. intros _. simpl.
  destruct p as [|y p]; [by left|].
  right. apply elem_of_map_cons. exists (y :: p). split; [done|]. by apply IH.
Qed.

Lemma env_dir_singleton h name p : env_dir h name = Some p -> exists v, p = [v].
Proof.
  unfold env_dir. destruct (getenv h name) as [s|]; [|done].
  destruct (truthy (Some s)); [|done]. intros [= <-]. eauto.
Qed.

(** Creating the application directories never creates a directory at
    the path of the token file. *)
Lemma TOKEN_PATH_not_ancestor h :
  (TOKEN_PATH h ∉ ancestors (getConfigDir h)) /\ (TOKEN_PATH h ∉ ancestors (getDataDir h)).
Proof.
  unfold TOKEN_PATH, getConfigDir, getDataDir, env_or, path_join, APP_NAME.
  destruct (String.eqb (platform h) "win32");
    [|destruct (String.eqb (platform h) "darwin")].
  all: repeat match goal with
       | |- context [env_dir ?h0 ?n] =>
           let E := fresh "E" in
           destruct (env_dir h0 n) as [?|] eqn:E;
           [apply env_dir_singleton in E as [? ->]|]
       end.
  all: simpl; split; intros Hin.
  all: repeat (apply elem_of_cons in Hin as [Hin|Hin]; [discriminate Hin|]).
  all: by apply elem_of_nil in Hin.
Qed.


(** ** Directory setup: what a guarded creation leaves behind *)

Lemma exists_on_iff d p :
  exists_on d p = true <-> is_Some (files d !! p) \/ is_Some (dirs d !! p).
Proof. unfold exists_on. by rewrite orb_true_iff, !bool_decide_eq_true. Qed.

Lemma exists_on_dirs_added mode d d' p :
  dirs_added mode d d' -> exists_on d p = true -> exists_on d' p = true.
Proof.
  intros (Hf & _ & Hk & _). rewrite !exists_on_iff, Hf.
  intros [?|[m Hm]]; [by left|right]. exists m. by apply Hk.
Qed.

Lemma dir_available_dirs_added mode d d' p :
  dirs_added mode d d' -> dir_available d p -> dir_available d' p.
Proof.
  intros Hadd [Hex|Hcan]; [left; by eapply exists_on_dirs_added|right].
  destruct Hadd as (Hf & Hl & _). intros q Hq. rewrite Hf, Hl. by apply Hcan.
Qed.

(** One guarded creation: when it returns, the directory is there, or a
    regular file was at its path; a directory that appears is the
    directory or one of its ancestors, with mode 0700; and it returns
    when something is at the path or the directory can be created. *)
Lemma ensure_dir_exists dir msg s s' :
  dir <> [] -> ensure_dir dir msg s = Return tt s' ->
  is_Some (dirs (disk s') !! dir) \/ is_Some (files (disk s) !! dir).
Proof.
  intros Hne. rewrite ensure_dir_eq.
  destruct (exists_on (disk s) dir) eqn:Hex.
  - intros [= <-]. simpl. apply exists_on_iff in Hex as [?|?]; [by right|by left].
  - destruct (make_dirs_run dir (ancestors dir) MODE_DIR
                (log_fs (MkdirSync dir MODE_DIR) (log_fs (ExistsSync dir) s)))
      as (_ & _ & _ & _ & _ & Hall & _).
    destruct (make_dirs dir (ancestors dir) MODE_DIR _) as [[] s1|e s1]; [|done].
    intros [= <-]. simpl. left. apply Hall; [done|by apply ancestors_self].
Qed.

Lemma ensure_dir_new dir msg s q m :
  dirs (disk (final_state (ensure_dir dir msg s))) !! q = Some m ->
  dirs (disk s) !! q = Some m \/ (q ∈ ancestors dir /\ m = MODE_DIR).
Proof.
  rewrite ensure_dir_eq.
  destruct (exists_on (disk s) dir) eqn:Hex; simpl; [by left|].
  destruct (make_dirs_run dir (ancestors dir) MODE_DIR
              (log_fs (MkdirSync dir MODE_DIR) (log_fs (ExistsSync dir) s)))
    as (_ & _ & _ & _ & Hnew & _).
  destruct (make_dirs dir (ancestors dir) MODE_DIR _) as [[] s1|e s1]; simpl in *; apply Hnew.
Qed.

Lemma ensure_dir_returns dir msg s :
  dir_available (disk s) dir -> returns (ensure_dir dir msg s).
Proof.
  intros Hav. rewrite ensure_dir_eq.
  destruct (exists_on (disk s) dir) eqn:Hex; [done|].
  destruct Hav as [Hav|Hcan]; [congruence|].
  destruct (make_dirs_run dir (ancestors dir) MODE_DIR
              (log_fs (MkdirSync dir MODE_DIR) (log_fs (ExistsSync dir) s)))
    as (_ & _ & _ & _ & _ & _ & Hret).
  specialize (Hret Hcan).
  by destruct (make_dirs dir (ancestors dir) MODE_DIR _) as [[] s1|e s1].
Qed.

Lemma getConfigDir_nonempty h : getConfigDir h <> [].
Proof. intros H. pose proof (getConfigDir_last h) as Hl. by rewrite H in Hl. Qed.

Lemma getDataDir_nonempty h : getDataDir h <> [].
Proof. intros H. pose proof (getDataDir_last h) as Hl. by rewrite H in Hl. Qed.

(** The facts that [ensureDirectoriesExist_run] leaves open: which
    directories can appear, what the flag stands for, and when it is
    set. *)
Lemma ensureDirectoriesExist_dirs rt s :
  (forall q m,
     dirs (disk (final_state (ensureDirectoriesExist rt s))) !! q = Some m ->
     dirs (disk s) !! q = Some m \/
     ((q ∈ ancestors (getConfigDir (host rt)) \/ q ∈ ancestors (getDataDir (host rt))) /\
      m = MODE_DIR)) /\
  (directoriesInitialized (this s) = false ->
   directoriesInitialized (this (final_state (ensureDirectoriesExist rt s))) = true ->
   (is_Some (dirs (disk (final_state (ensureDirectoriesExist rt s))) !! getConfigDir (host rt)) \/
    is_Some (files (disk s) !! getConfigDir (host rt))) /\
   (is_Some (dirs (disk (final_state (ensureDirectoriesExist rt s))) !! getDataDir (host rt)) \/
    is_Some (files (disk s) !! getDataDir (host rt)))) /\
  (dir_available (disk s) (getConfigDir (host rt)) ->
   dir_available (disk s) (getDataDir (host rt)) ->
   directoriesInitialized (this (final_state (ensureDirectoriesExist rt s))) = true).
Proof.
  remember (ensureDirectoriesExist rt s) as r eqn:Hr.
  rewrite ensureDirectoriesExist_unfold in Hr.
  unfold bind at 1, gets at 1 in Hr.
  destruct (directoriesInitialized (this s)) eqn:Hinit.
  { subst r. simpl. split; [by left|]. split; done. }
  unfold try_catch, bind in Hr.
  pose proof (ensure_dir_new (getConfigDir (host rt)) "Created config directory" s) as Hn1.
  pose proof (ensure_dir_exists (getConfigDir (host rt)) "Created config directory" s) as He1.
  pose proof (ensure_dir_returns (getConfigDir (host rt)) "Created config directory" s) as Hr1.
  destruct (ensure_dir_run (getConfigDir (host rt)) "Created config directory" s)
    as (l1 & _ & _ & Ht1 & _ & Hd1).
  destruct (ensure_dir (getConfigDir (host rt)) "Created config directory" s)
    as [[] s1|e s1]; simpl in *.
  - pose proof (ensure_dir_new (getDataDir (host rt)) "Created data directory" s1) as Hn2.
    pose proof (ensure_dir_exists (getDataDir (host rt)) "Created data directory" s1) as He2.
    pose proof (ensure_dir_returns (getDataDir (host rt)) "Created data directory" s1) as Hr2.
    destruct (ensure_dir_run (getDataDir (host rt)) "Created data directory" s1)
      as (l2 & _ & _ & Ht2 & _ & Hd2).
    assert (forall q m, dirs (disk (final_state
              (ensure_dir (getDataDir (host rt)) "Created data directory" s1))) !! q = Some m ->
            dirs (disk s) !! q = Some m \/
            ((q ∈ ancestors (getConfigDir (host rt)) \/ q ∈ ancestors (getDataDir (host rt))) /\
             m = MODE_DIR)) as Hnew.
    { intros q m H. destruct (Hn2 _ _ H) as [H1|[? ?]]; [|right; auto].
      destruct (Hn1 _ _ H1) as [?|[? ?]]; [by left|right; auto]. }
    destruct (ensure_dir (getDataDir (host rt)) "Created data directory" s1)
      as [[] s2|e s2]; simpl in *; subst r; simpl.
    + split; [exact Hnew|]. split; [|done]. intros _ _. split.
      * destruct (He1 s1 (getConfigDir_nonempty _) eq_refl) as [[m Hm]|?]; [left|by right].
        exists m. by apply Hd2.
      * destruct (He2 s2 (getDataDir_nonempty _) eq_refl) as [?|Hfile]; [by left|right].
        destruct Hd1 as (Hf1 & _). by rewrite <- Hf1.
    + split; [exact Hnew|]. split; [rewrite Ht2, Ht1, Hinit; done|].
      intros _ Hav. exfalso. apply Hr2. by eapply dir_available_dirs_added.
  - subst r; simpl. split; [|split; [rewrite Ht1, Hinit; done|]].
    + intros q m H. destruct (Hn1 _ _ H) as [?|[? ?]]; [by left|right; auto].
    + intros Hav _. exfalso. by apply Hr1.
Qed.


Lemma writeFileSync_run p data mode s :
  match writeFileSync p data mode s with
  | Return _ s' =>
      s' = set_disk (write_file p data mode) (log_fs (WriteFileSync p data mode) s) /\
      (p ∉ locked (disk s)) /\ dirs (disk s) !! p = None /\
      is_Some (dirs (disk s) !! dirname p)
  | Throw _ s' => s' = log_fs (WriteFileSync p data mode) s
  end.
Proof.
  run_m.
  case_bool_decide; simpl; [done|].
  case_bool_decide as Hd; simpl; [done|].
  case_bool_decide; simpl; [|done].
  repeat split; auto.
  destruct (dirs (disk s) !! p) eqn:E; [|done]. exfalso. apply Hd. eauto.
Qed.

Lemma saveTokens_env rt tokens s v :
  env_holds (host rt) "GOOGLE_TOKENS_JSON" v -> saveTokens rt tokens s = Return tt s.
Proof.
  intros [Hv Hne]. unfold saveTokens. rewrite Hv. simpl.
  apply String.eqb_neq in Hne. by rewrite Hne.
Qed.

Lemma saveTokens_blank rt tokens s :
  env_blank (host rt) "GOOGLE_TOKENS_JSON" ->
  saveTokens rt tokens s =
  (ensureDirectoriesExist rt ;;
   writeFileSync (TOKEN_PATH (host rt)) (stringifyTokens rt tokens) MODE_FILE) s.
Proof. unfold saveTokens. by intros [-> | ->]. Qed.

(** What [saveTokens] does when it is not short-circuited: the directory
    setup, then one write. *)
Lemma saveTokens_run rt tokens s :
  env_blank (host rt) "GOOGLE_TOKENS_JSON" ->
  exists s1 l,
    ensureDirectoriesExist rt s = Return tt s1 /\
    same_session s s1 /\ net_calls s1 = net_calls s /\
    dirs_added MODE_DIR (disk s) (disk s1) /\
    fs_calls s1 = (fs_calls s ++ l)%list /\ Forall (is_setup_call rt) l /\
    (directoriesInitialized (this s) = true -> s1 = s /\ l = []) /\
    saveTokens rt tokens s =
      writeFileSync (TOKEN_PATH (host rt)) (stringifyTokens rt tokens) MODE_FILE s1.
Proof.
  intros Hb.
  destruct (ensureDirectoriesExist_run rt s) as (s1 & l & He & Hrest).
  exists s1, l. split; [done|].
  destruct Hrest as (? & ? & ? & ? & ? & ?).
  do 6 (split; [done|]).
  rewrite saveTokens_blank by done. by rewrite (bind_Return _ _ _ _ _ He).
Qed.

Lemma env_holds_not_blank h name v : env_holds h name v -> env_blank h name -> False.
Proof. intros [Hv Hne] [Hb|Hb]; rewrite Hv in Hb; [done|]. injection Hb as ->. done. Qed.

Lemma writeFileSync_ok p data mode s :
  p ∉ locked (disk s) -> dirs (disk s) !! p = None ->
  is_Some (dirs (disk s) !! dirname p) ->
  writeFileSync p data mode s =
    Return tt (set_disk (write_file p data mode) (log_fs (WriteFileSync p data mode) s)).
Proof.
  intros Hl Hd Hp. run_m.
  rewrite (bool_decide_false _ Hl). rewrite Hd.
  rewrite (bool_decide_false (is_Some None)) by (by intros [? ?]).
  by rewrite (bool_decide_true _ Hp).
Qed.

Lemma writeFileSync_locked p data mode s :
  p ∈ locked (disk s) ->
  writeFileSync p data mode s =
    Throw (FsError "EACCES" p) (log_fs (WriteFileSync p data mode) s).
Proof. intros Hl. run_m. by rewrite (bool_decide_true _ Hl). Qed.

(** With the directories flag unset, [saveTokens] creates the data
    directory when it can be created, and writes the token file into it. *)
Lemma saveTokens_creates rt tokens s :
  env_blank (host rt) "GOOGLE_TOKENS_JSON" ->
  dir_available (disk s) (getConfigDir (host rt)) ->
  can_create (disk s) (getDataDir (host rt)) ->
  TOKEN_PATH (host rt) ∉ locked (disk s) ->
  dirs (disk s) !! TOKEN_PATH (host rt) = None ->
  exists s1,
    ensureDirectoriesExist rt s = Return tt s1 /\
    dirs_added MODE_DIR (disk s) (disk s1) /\
    (directoriesInitialized (this s) = false ->
       directoriesInitialized (this s1) = true /\
       is_Some (dirs (disk s1) !! getDataDir (host rt))) /\
    (is_Some (dirs (disk s1) !! getDataDir (host rt)) ->
     saveTokens rt tokens s =
       Return tt (set_disk (write_file (TOKEN_PATH (host rt)) (stringifyTokens rt tokens) MODE_FILE)
                    (log_fs (WriteFileSync (TOKEN_PATH (host rt)) (stringifyTokens rt tokens) MODE_FILE)
                       s1))).
Proof.
  intros Hb Hcfg Hdata Hl Hd.
  destruct (saveTokens_run rt tokens s Hb)
    as (s1 & l & He & _ & _ & Hadd & _ & _ & _ & Hsave).
  pose proof (ensureDirectoriesExist_dirs rt s) as (Hnew & Hboth & Hset).
  rewrite He in Hnew, Hboth, Hset. simpl in Hnew, Hboth, Hset.
  exists s1. split; [done|]. split; [done|]. split.
  - intros Hinit. pose proof (Hset Hcfg (or_intror Hdata)) as Hflag.
    split; [done|]. destruct (Hboth Hinit Hflag) as [_ [?|Hfile]]; [done|].
    destruct (Hdata (getDataDir (host rt))) as [_ Hnone];
      [apply ancestors_self, getDataDir_nonempty|].
    rewrite Hnone in Hfile. by destruct Hfile.
  - intros Hdir. rewrite Hsave.
    destruct Hadd as (Hf & Hlk & Hk & _).
    apply writeFileSync_ok.
    + by rewrite Hlk.
    + destruct (dirs (disk s1) !! TOKEN_PATH (host rt)) as [m'|] eqn:Hd1; [|done].
      exfalso.
      destruct (Hnew _ _ Hd1) as [Hold|[[Hin|Hin] _]]; [congruence| |].
      * by apply (proj1 (TOKEN_PATH_not_ancestor (host rt))).
      * by apply (proj2 (TOKEN_PATH_not_ancestor (host rt))).
    + by rewrite dirname_TOKEN_PATH.
Qed.

(** [saveTokens] never touches the client handle or the authenticated
    flag, whether it returns or throws. *)
Lemma saveTokens_same_session rt tokens s :
  same_session s (final_state (saveTokens rt tokens s)).
Proof.
  destruct (env_holds_or_blank (host rt) "GOOGLE_TOKENS_JSON") as [[v Hv]|Hb].
  - rewrite (saveTokens_env _ _ _ _ Hv). by split.
  - destruct (saveTokens_run rt tokens s Hb) as (s1 & l & _ & Hs & _ & _ & _ & _ & _ & ->).
    pose proof (writeFileSync_run (TOKEN_PATH (host rt)) (stringifyTokens rt tokens) MODE_FILE s1) as Hw.
    destruct (writeFileSync _ _ _ s1) as [[] s2|e s2]; simpl.
    + destruct Hw as (-> & _). exact Hs.
    + subst s2. exact Hs.
Qed.

(** C6, the claim as stated fails.  With GOOGLE_TOKENS_JSON set to the
    empty string, saveTokens writes the token file; and with the
    directories flag already set, saveTokens does not create a missing data
    directory: the write throws and the directory is still missing. *)
Lemma saveTokens_empty_env_writes :
  getenv (host blank_env_runtime) "GOOGLE_TOKENS_JSON" = Some "" /\
  (exists s',
     saveTokens blank_env_runtime tokens_valid (booted (demo_disk None ∅)) = Return tt s' /\
     fs_calls s' = [WriteFileSync demo_token_path (demo_stringify tokens_valid) 384] /\
     files (disk s') !! demo_token_path = Some (demo_stringify tokens_valid, 384) /\
     files (disk (booted (demo_disk None ∅))) !! demo_token_path = None) /\
  (exists s',
     saveTokens (demo_runtime ∅ all_ports_free) tokens_valid data_dir_removed
       = Throw (FsError "ENOENT" demo_token_path) s' /\
     dirs (disk s') !! demo_data_dir = None /\
     fs_calls s' = [WriteFileSync demo_token_path (demo_stringify tokens_valid) 384]).
Proof.
  split; [by_vm|]. split.
  - exists (final_state (saveTokens blank_env_runtime tokens_valid
                           (booted (demo_disk None ∅)))).
    repeat split; by_vm.
  - exists (final_state (saveTokens (demo_runtime ∅ all_ports_free) tokens_valid
                           data_dir_removed)).
    repeat split; by_vm.
Qed.

(** C6, amended.  When GOOGLE_TOKENS_JSON holds a non-empty value,
    saveTokens returns at once: no file system call, the state unchanged.
    When it is missing or empty, saveTokens runs the guarded directory
    setup (existence checks and creations with mode 0700 on the config and
    data directories, none at all when the directories flag is already
    set) and then makes exactly one writeFileSync call, on the token path,
    with the serialized token set and mode 0600.  When that call returns,
    the token file holds the serialization, with mode 0600 if this call
    created it; the data directory exists, with mode 0700 if this call
    created it; no other file has changed.  And with the directories flag
    unset the target directory is ensured: when something is at the
    config path or the config directory can be created, the data directory
    can be created (no ancestor of it, itself included, is a regular file
    or refused by the system) and nothing refuses the token path,
    saveTokens returns, the flag is set, the data directory is there,
    with mode 0700 if it was missing, and the token file holds the
    serialization. *)
Theorem saveTokens_effects (rt : Runtime) (tokens : Credentials) (s : State) :
  ((exists v, env_holds (host rt) "GOOGLE_TOKENS_JSON" v) ->
     saveTokens rt tokens s = Return tt s) /\
  (env_blank (host rt) "GOOGLE_TOKENS_JSON" ->
     (exists l,
        fs_calls (final_state (saveTokens rt tokens s)) =
          (fs_calls s ++ l ++
           [WriteFileSync (TOKEN_PATH (host rt)) (stringifyTokens rt tokens) MODE_FILE])%list /\
        Forall (is_setup_call rt) l /\
        (directoriesInitialized (this s) = true -> l = [])) /\
     (forall s', saveTokens rt tokens s = Return tt s' ->
        (exists m, files (disk s') !! TOKEN_PATH (host rt) = Some (stringifyTokens rt tokens, m) /\
                   (files (disk s) !! TOKEN_PATH (host rt) = None -> m = MODE_FILE)) /\
        (exists m, dirs (disk s') !! getDataDir (host rt) = Some m /\
                   (dirs (disk s) !! getDataDir (host rt) = None -> m = MODE_DIR)) /\
        (forall p, p <> TOKEN_PATH (host rt) -> files (disk s') !! p = files (disk s) !! p)) /\
     (directoriesInitialized (this s) = false ->
      dir_available (disk s) (getConfigDir (host rt)) ->
      can_create (disk s) (getDataDir (host rt)) ->
      (TOKEN_PATH (host rt) ∉ locked (disk s)) ->
      dirs (disk s) !! TOKEN_PATH (host rt) = None ->
      exists s', saveTokens rt tokens s = Return tt s' /\
        directoriesInitialized (this s') = true /\
        (exists m, dirs (disk s') !! getDataDir (host rt) = Some m /\
                   (dirs (disk s) !! getDataDir (host rt) = None -> m = MODE_DIR)) /\
        (exists m, files (disk s') !! TOKEN_PATH (host rt) =
                     Some (stringifyTokens rt tokens, m)))).
Proof.
  split.
  { intros [v Hv]. by apply (saveTokens_env _ _ _ v). }
  intros Hb.
  destruct (saveTokens_run rt tokens s Hb)
    as (s1 & l & He & _ & _ & Hd & Hc & Hl & Hflag & Hsave).
  pose proof (writeFileSync_run (TOKEN_PATH (host rt)) (stringifyTokens rt tokens) MODE_FILE s1) as Hw.
  pose proof Hd as (Hfiles & Hlocked & Hkeep & Hnew).
  split; [|split].
  - rewrite Hsave. exists l. split; [|split; [done|by intros H; apply Hflag]].
    destruct (writeFileSync _ _ _ s1) as [[] s2|e s2]; simpl.
    + destruct Hw as (-> & _). simpl. by rewrite Hc, app_assoc.
    + subst s2. simpl. by rewrite Hc, app_assoc.
  - rewrite Hsave.
    intros s' Hret. rewrite Hret in Hw. destruct Hw as (-> & Hnl & Hnd & [m Hm]).
    simpl. rewrite dirname_TOKEN_PATH in Hm. split; [|split].
    + rewrite Hfiles.
      destruct (files (disk s) !! TOKEN_PATH (host rt)) as [[data0 m0]|] eqn:Hf.
      * exists m0. by rewrite lookup_insert_eq.
      * exists MODE_FILE. by rewrite lookup_insert_eq.
    + exists m. split; [done|]. intros Hnone.
      destruct (Hnew _ _ Hm) as [Hold|]; [congruence|done].
    + intros p Hp. rewrite lookup_insert_ne by done. by rewrite Hfiles.
  - intros Hinit Hcfg Hdata Hnl Hnd.
    destruct (saveTokens_creates rt tokens s Hb Hcfg Hdata Hnl Hnd)
      as (s1' & He' & _ & Hset & Hwrite).
    rewrite He in He'. injection He' as <-.
    destruct (Hset Hinit) as [Hflag' Hdir].
    eexists. split; [exact (Hwrite Hdir)|]. simpl. split; [done|]. split.
    + destruct Hdir as [m Hm]. exists m. split; [done|]. intros Hnone.
      destruct (Hnew _ _ Hm) as [Hold|]; [congruence|done].
    + rewrite Hfiles.
      destruct (files (disk s) !! TOKEN_PATH (host rt)) as [[data0 m0]|] eqn:Hf.
      * exists m0. by rewrite lookup_insert_eq.
      * exists MODE_FILE. by rewrite lookup_insert_eq.
Qed.

(** C6 at a concrete input: nothing is on the disk and the directories
    flag is unset; saveTokens creates the data directory and writes the
    token file. *)
Lemma saveTokens_effects_witness :
  dirs (disk (before_constructor ∅ ∅ ∅)) !! getDataDir (host test_runtime) = None /\
  exists s',
    saveTokens test_runtime tokens_valid (before_constructor ∅ ∅ ∅) = Return tt s' /\
    directoriesInitialized (this s') = true /\
    (exists m, dirs (disk s') !! getDataDir (host test_runtime) = Some m /\
               (dirs (disk (before_constructor ∅ ∅ ∅)) !! getDataDir (host test_runtime) = None ->
                m = MODE_DIR)) /\
    (exists m, files (disk s') !! TOKEN_PATH (host test_runtime) =
                 Some (stringifyTokens test_runtime tokens_valid, m)).
Proof.
  split; [reflexivity|].
  apply (proj2 (proj2 (proj2 (saveTokens_effects test_runtime tokens_valid
                                (before_constructor ∅ ∅ ∅))
                         (or_introl eq_refl)))).
  - reflexivity.
  - right. intros q _. split; [apply not_elem_of_empty|reflexivity].
  - intros q _. split; [apply not_elem_of_empty|reflexivity].
  - apply not_elem_of_empty.
  - reflexivity.
Defined.

Lemma truthy_blank h name : env_blank h name -> truthy (getenv h name) = false.
Proof. by intros [-> | ->]. Qed.




(** C9, the claim as stated fails.  The empty string is no JSON text,
    yet with GOOGLE_CREDENTIALS_JSON (GOOGLE_TOKENS_JSON) set to it the
    loader goes on to the file and returns what the file holds. *)
Lemma empty_env_falls_back_to_file :
  getenv (host empty_env_runtime) "GOOGLE_CREDENTIALS_JSON" = Some "" /\
  getenv (host empty_env_runtime) "GOOGLE_TOKENS_JSON" = Some "" /\
  parseCredentialsFile empty_env_runtime "" = SyntaxError /\
  parseTokens empty_env_runtime "" = SyntaxError /\
  (exists s',
     loadCredentials empty_env_runtime (booted (demo_disk (Some tokens_valid) ∅))
       = Return (Some demo_credentials) s' /\
     fs_calls s' = [ExistsSync demo_credentials_path; ReadFileSync demo_credentials_path]) /\
  (exists s',
     loadTokens empty_env_runtime (booted (demo_disk (Some tokens_valid) ∅))
       = Return (Some tokens_valid) s' /\
     fs_calls s' = [ExistsSync demo_token_path; ReadFileSync demo_token_path]).
Proof.
  do 4 (split; [by_vm|]). split.
  - exists (final_state (loadCredentials empty_env_runtime
                           (booted (demo_disk (Some tokens_valid) ∅)))).
    split; by_vm.
  - exists (final_state (loadTokens empty_env_runtime
                           (booted (demo_disk (Some tokens_valid) ∅)))).
    split; by_vm.
Qed.

Lemma loader_env_run {A} (parse : string -> Parsed A) text p msg s :
  text <> "" ->
  exists s',
    loader parse (Some text) p msg s =
      Return (match parse text with ParsedValue a => Some a | _ => None end) s' /\
    fs_calls s' = fs_calls s /\ disk s' = disk s /\ this s' = this s.
Proof.
  intros Hne. apply String.eqb_neq in Hne.
  unfold loader. simpl. rewrite Hne. simpl.
  run_m. destruct (parse text); simpl; eauto.
Qed.

Lemma stored_json_blank {A} (parse : string -> Parsed A) h name p d :
  env_blank h name ->
  stored_json parse (getenv h name) p d = stored_json parse None p d.
Proof. unfold stored_json, stored_text. by intros [-> | ->]. Qed.

(** C9, amended.  When GOOGLE_CREDENTIALS_JSON (GOOGLE_TOKENS_JSON) holds
    a non-empty text, loadCredentials (loadTokens) makes no file system
    call, whatever the disk holds and whether or not the text parses; when
    the text is malformed JSON the loader returns absent.  When the
    variable is missing or empty, the loader returns what the file at the
    resolved path holds. *)
Theorem malformed_env_short_circuits (rt : Runtime) (s : State) :
  (forall text, env_holds (host rt) "GOOGLE_CREDENTIALS_JSON" text ->
     exists v s', loadCredentials rt s = Return v s' /\
                  fs_calls s' = fs_calls s /\ disk s' = disk s /\
                  (parseCredentialsFile rt text = SyntaxError -> v = None)) /\
  (forall text, env_holds (host rt) "GOOGLE_TOKENS_JSON" text ->
     exists v s', loadTokens rt s = Return v s' /\
                  fs_calls s' = fs_calls s /\ disk s' = disk s /\
                  (parseTokens rt text = SyntaxError -> v = None)) /\
  (env_blank (host rt) "GOOGLE_CREDENTIALS_JSON" ->
     exists s', loadCredentials rt s =
                  Return (stored_json (parseCredentialsFile rt) None
                            (CREDENTIALS_PATH (host rt)) (disk s)) s') /\
  (env_blank (host rt) "GOOGLE_TOKENS_JSON" ->
     exists s', loadTokens rt s =
                  Return (stored_json (parseTokens rt) None
                            (TOKEN_PATH (host rt)) (disk s)) s').
Proof.
  split; [|split; [|split]].
  - intros text [Hv Hne].
    destruct (loader_env_run (parseCredentialsFile rt) text (CREDENTIALS_PATH (host rt))
                "Error loading credentials:" s Hne) as (s' & Hrun & Hc & Hd & _).
    eexists; exists s'. split; [|split; [done|split; [done|]]].
    + change (loadCredentials rt s) with
        (loader (parseCredentialsFile rt) (getenv (host rt) "GOOGLE_CREDENTIALS_JSON")
           (CREDENTIALS_PATH (host rt)) "Error loading credentials:" s).
      rewrite Hv. exact Hrun.
    + by intros ->.
  - intros text [Hv Hne].
    destruct (loader_env_run (parseTokens rt) text (TOKEN_PATH (host rt))
                "Error loading tokens:" s Hne) as (s' & Hrun & Hc & Hd & _).
    eexists; exists s'. split; [|split; [done|split; [done|]]].
    + change (loadTokens rt s) with
        (loader (parseTokens rt) (getenv (host rt) "GOOGLE_TOKENS_JSON")
           (TOKEN_PATH (host rt)) "Error loading tokens:" s).
      rewrite Hv. exact Hrun.
    + by intros ->.
  - intros Hb. destruct (loadCredentials_run rt s) as (s' & Hrun & _).
    exists s'. rewrite Hrun. unfold stored_credentials.
    by rewrite (stored_json_blank _ _ _ _ _ Hb).
  - intros Hb. destruct (loadTokens_run rt s) as (s' & Hrun & _).
    exists s'. rewrite Hrun. unfold stored_tokens.
    by rewrite (stored_json_blank _ _ _ _ _ Hb).
Qed.

(** C9 at a concrete input: both variables hold a malformed text while
    valid files sit at the resolved paths. *)
Lemma malformed_env_short_circuits_witness :
  files (disk (booted (demo_disk (Some tokens_valid) ∅))) !! demo_credentials_path
    = Some (demo_credentials_text, 384) /\
  parseCredentialsFile malformed_env_runtime demo_credentials_text = ParsedValue demo_credentials /\
  exists v s',
    loadCredentials malformed_env_runtime (booted (demo_disk (Some tokens_valid) ∅))
      = Return v s' /\
    fs_calls s' = [] /\ disk s' = demo_disk (Some tokens_valid) ∅ /\
    (parseCredentialsFile malformed_env_runtime "{not json" = SyntaxError -> v = None).
Proof.
  split; [by_vm|]. split; [by_vm|].
  apply (proj1 (malformed_env_short_circuits malformed_env_runtime
                  (booted (demo_disk (Some tokens_valid) ∅))) "{not json").
  split; [by_vm|done].
Defined.

(** ** Session manager: [initialize] *)

Lemma setCredentials_run tokens s c :
  oauth2Client (this s) = Some c ->
  setCredentials tokens s =
    Return tt (set_this (set_client (Some (with_credentials tokens c))) s).
Proof. intros H. run_m. by rewrite H. Qed.

Lemma call_refreshAccessToken_run rt s c :
  oauth2Client (this s) = Some c ->
  call_refreshAccessToken rt s =
    match refreshAccessToken rt c with
    | Some t =>
        Return t (set_this (set_client (Some (with_credentials t c)))
                    (log_net RefreshAccessToken s))
    | None => Throw ProviderError (log_net RefreshAccessToken s)
    end.
Proof.
  intros H. unfold call_refreshAccessToken. run_m. rewrite H.
  by destruct (refreshAccessToken rt c).
Qed.

(** The write-back of a refreshed or exchanged token set: [saveTokens]
    and the binding of the tokens to the handle. *)
Lemma save_and_bind_run rt tokens s c :
  oauth2Client (this s) = Some c ->
  match saveTokens rt tokens s with
  | Return _ s1 =>
      (saveTokens rt tokens ;; setCredentials tokens) s =
        Return tt (set_this (set_client (Some (with_credentials tokens c))) s1) /\
      same_session s s1
  | Throw e s1 =>
      (saveTokens rt tokens ;; setCredentials tokens) s = Throw e s1 /\
      same_session s s1
  end.
Proof.
  intros Hc. pose proof (saveTokens_same_session rt tokens s) as Hs.
  destruct (saveTokens rt tokens s) as [[] s1|e s1] eqn:Hsave; simpl in Hs.
  - split; [|done]. rewrite (bind_Return _ _ _ _ _ Hsave).
    apply setCredentials_run. destruct Hs as [-> _]. done.
  - split; [|done]. by rewrite (bind_Throw _ _ _ _ _ Hsave).
Qed.

Lemma initialize_run rt s :
  exists b s', initialize rt s = Return b s' /\ initialize_outcome rt s b s'.
Proof.
  unfold initialize, initialize_outcome, client_of.
  destruct (loadCredentials_run rt s) as (s1 & H1 & Ht1 & Hd1 & Hn1 & _).
  rewrite (bind_Return _ _ _ _ _ H1).
  destruct (stored_credentials rt (disk s)) as [cf|].
  2:{ eexists _, _. split; [reflexivity|]. simpl. by rewrite Ht1, Hd1, Hn1. }
  destruct (client_keys (client_block cf)) as [[id secret]|].
  2:{ eexists _, _. split; [reflexivity|]. simpl. by rewrite Ht1, Hd1, Hn1. }
  set (c0 := new_OAuth2 id secret (first_redirect (client_block cf))).
  unfold bind at 1, modify at 1.
  destruct (loadTokens_run rt (set_this (set_client (Some c0)) s1))
    as (s2 & H2 & Ht2 & Hd2 & Hn2 & _).
  simpl in Ht2, Hd2, Hn2. rewrite Hd1 in Hd2. rewrite Hn1 in Hn2.
  simpl in H2. rewrite Hd1 in H2.
  rewrite (bind_Return _ _ _ _ _ H2).
  destruct (stored_tokens rt (disk s)) as [tokens|].
  2:{ eexists _, _. split; [reflexivity|]. by rewrite Ht2, Ht1, Hd2, Hn2. }
  assert (oauth2Client (this s2) = Some c0) as Hc2 by (by rewrite Ht2).
  rewrite (bind_Return _ _ _ _ _ (setCredentials_run tokens s2 c0 Hc2)).
  set (c1 := with_credentials tokens c0).
  set (s3 := set_this (set_client (Some c1)) s2).
  assert (this s3 = set_client (Some c1) (this s)) as Ht3.
  { unfold s3. simpl. rewrite Ht2. simpl. by rewrite Ht1. }
  destruct (needs_refresh rt tokens).
  2:{ eexists _, _. split; [reflexivity|]. simpl. rewrite Hd2, Hn2.
      do 3 (split; [done|]). rewrite Ht2. simpl. by rewrite Ht1. }
  unfold bind at 1, try_catch at 1.
  unfold bind at 1.
  assert (oauth2Client (this s3) = Some c1) as Hc3 by (by rewrite Ht3).
  rewrite (call_refreshAccessToken_run rt s3 c1 Hc3).
  destruct (refreshAccessToken rt c1) as [newTokens|].
  2:{ eexists _, _. split; [reflexivity|]. simpl. rewrite Hd2.
      do 2 (split; [done|]). rewrite Ht2. simpl. by rewrite Ht1. }
  set (s4 := set_this (set_client (Some (with_credentials newTokens c1)))
              (log_net RefreshAccessToken s3)).
  assert (oauth2Client (this s4) = Some (with_credentials newTokens c1)) as Hc4
    by reflexivity.
  pose proof (save_and_bind_run rt newTokens s4 _ Hc4) as Hsb.
  destruct (saveTokens rt newTokens s4) as [[] s5|e s5] eqn:Hsave.
  - destruct Hsb as [Hsb Hss].
    unfold bind in Hsb. rewrite Hsave in Hsb. unfold bind at 1. rewrite Hsave.
    unfold bind at 1. rewrite Hsb.
    eexists _, _. split; [reflexivity|]. simpl. split; [done|]. by left.
  - destruct Hsb as [_ [Hss1 Hss2]].
    unfold bind at 1. rewrite Hsave.
    eexists _, _. split; [reflexivity|]. simpl.
    split; [rewrite Hss1; exact Hc4|]. by right.
Qed.

Lemma needs_refresh_past rt tokens e :
  expiry_date tokens = Some (Finite e) -> e <> 0 -> e < now rt -> needs_refresh rt tokens = true.
Proof.
  intros He Hz Hlt. unfold needs_refresh. rewrite He.
  apply andb_true_iff. split.
  - apply negb_true_iff. by apply Z.eqb_neq.
  - by apply Z.ltb_lt.
Qed.

(** [initialize] on an expired token set whose refresh is rejected. *)
Lemma initialize_refresh_rejected rt s c0 tokens :
  client_of rt (disk s) = Some c0 ->
  stored_tokens rt (disk s) = Some tokens ->
  needs_refresh rt tokens = true ->
  refreshAccessToken rt (with_credentials tokens c0) = None ->
  exists s',
    initialize rt s = Return false s' /\ disk s' = disk s /\
    this s' = set_authenticated false
                (set_client (Some (with_credentials tokens c0)) (this s)).
Proof.
  intros Hc Ht Hn Hr.
  destruct (initialize_run rt s) as (b & s' & Hrun & Hout).
  unfold initialize_outcome in Hout. rewrite Hc, Ht in Hout. simpl in Hout.
  rewrite Hn, Hr in Hout. destruct Hout as (-> & Hd & Hthis).
  by exists s'.
Qed.

Lemma loadCredentials_value rt s v s1 :
  loadCredentials rt s = Return v s1 -> stored_credentials rt (disk s) = v.
Proof.
  intros H. destruct (loadCredentials_run rt s) as (s' & H' & _). congruence.
Qed.

Lemma loadTokens_value rt s v s1 :
  loadTokens rt s = Return v s1 -> stored_tokens rt (disk s) = v.
Proof.
  intros H. destruct (loadTokens_run rt s) as (s' & H' & _). congruence.
Qed.

Lemma client_of_loaded rt s file id secret s1 :
  loadCredentials rt s = Return (Some file) s1 ->
  client_keys (client_block file) = Some (id, secret) ->
  client_of rt (disk s) =
    Some (new_OAuth2 id secret (first_redirect (client_block file))).
Proof.
  intros Hl Hk. unfold client_of.
  by rewrite (loadCredentials_value _ _ _ _ Hl), Hk.
Qed.

(** C3, what the code does.  Start [initialize] in a state where
    loadCredentials finds usable client credentials and loadTokens finds a
    token set whose expiry lies in the past (and is not 0), and let the
    refresh fail.  Then initialize returns false with the authenticated
    flag cleared, isReady is false and the disk is unchanged; but the
    expired token set is not discarded: it stays bound to the client
    handle of the session. *)
Theorem initialize_failed_refresh_keeps_tokens
    (rt : Runtime) (s s1 s2 : State) (file : CredentialsFile) (id secret : string)
    (tokens : Credentials) (e : Z) :
  loadCredentials rt s = Return (Some file) s1 ->
  client_keys (client_block file) = Some (id, secret) ->
  loadTokens rt s = Return (Some tokens) s2 ->
  expiry_date tokens = Some (Finite e) -> e <> 0 -> e < now rt ->
  refreshAccessToken rt
    (with_credentials tokens
       (new_OAuth2 id secret (first_redirect (client_block file)))) = None ->
  exists s',
    initialize rt s = Return false s' /\
    isAuthenticated (this s') = false /\
    is_ready (this s') = false /\
    disk s' = disk s /\
    credentials <$> oauth2Client (this s') = Some (Some tokens).
Proof.
  intros Hl Hk Ht He Hz Hlt Hr.
  destruct (initialize_refresh_rejected rt s _ tokens
              (client_of_loaded _ _ _ _ _ _ Hl Hk) (loadTokens_value _ _ _ _ Ht)
              (needs_refresh_past rt tokens e He Hz Hlt) Hr) as (s' & Hrun & Hd & Hthis).
  exists s'. split; [done|]. unfold is_ready. by rewrite Hthis.
Qed.

(** C3 at a concrete input: the token file holds a token set that expired
    at 1000, the clock reads 2000 and the provider rejects the refresh. *)
Lemma initialize_failed_refresh_keeps_tokens_witness :
  exists s',
    initialize (demo_runtime ∅ all_ports_free) (booted (demo_disk (Some tokens_expired) ∅))
      = Return false s' /\
    isAuthenticated (this s') = false /\
    is_ready (this s') = false /\
    disk s' = disk (booted (demo_disk (Some tokens_expired) ∅)) /\
    credentials <$> oauth2Client (this s') = Some (Some tokens_expired).
Proof.
  apply (initialize_failed_refresh_keeps_tokens
           (demo_runtime ∅ all_ports_free) (booted (demo_disk (Some tokens_expired) ∅))
           (final_state (loadCredentials (demo_runtime ∅ all_ports_free)
                           (booted (demo_disk (Some tokens_expired) ∅))))
           (final_state (loadTokens (demo_runtime ∅ all_ports_free)
                           (booted (demo_disk (Some tokens_expired) ∅))))
           demo_credentials "id" "secret" tokens_expired 1000).
  - by_vm.
  - by_vm.
  - by_vm.
  - reflexivity.
  - lia.
  - simpl. lia.
  - by_vm.
Defined.

(** [initialize] on a token set that [needs_refresh] lets through. *)
Lemma initialize_no_refresh rt s c0 tokens :
  client_of rt (disk s) = Some c0 ->
  stored_tokens rt (disk s) = Some tokens ->
  needs_refresh rt tokens = false ->
  exists s',
    initialize rt s = Return true s' /\ disk s' = disk s /\
    net_calls s' = net_calls s /\
    this s' = set_authenticated true
                (set_client (Some (with_credentials tokens c0)) (this s)).
Proof.
  intros Hc Ht Hn.
  destruct (initialize_run rt s) as (b & s' & Hrun & Hout).
  unfold initialize_outcome in Hout. rewrite Hc, Ht in Hout. simpl in Hout.
  rewrite Hn in Hout. destruct Hout as (-> & Hd & Hnet & Hthis).
  by exists s'.
Qed.

(** C4, the claim as stated fails.  The token file holds expiry_date 0
    and no refresh token, the clock reads 2000: the token set expired at
    the epoch, yet initialize makes no provider call, binds it and ends
    authenticated. *)
Lemma epoch_expiry_is_authenticated :
  expiry_date tokens_epoch = Some (Finite 0) /\
  refresh_token tokens_epoch = None /\
  0 < now test_runtime /\
  loadTokens test_runtime (booted (demo_disk (Some tokens_epoch) ∅)) =
    Return (Some tokens_epoch)
      (final_state (loadTokens test_runtime (booted (demo_disk (Some tokens_epoch) ∅)))) /\
  initialize test_runtime (booted (demo_disk (Some tokens_epoch) ∅)) =
    Return true
      (final_state (initialize test_runtime (booted (demo_disk (Some tokens_epoch) ∅)))) /\
  is_ready (this (final_state
      (initialize test_runtime (booted (demo_disk (Some tokens_epoch) ∅))))) = true /\
  net_calls (final_state
      (initialize test_runtime (booted (demo_disk (Some tokens_epoch) ∅)))) = [].
Proof.
  split; [reflexivity|]. split; [reflexivity|]. split; [simpl; lia|].
  split; [by_vm|]. split; [by_vm|]. split; by_vm.
Qed.

(** C4, amended.  Let the provider reject a refresh made through a handle
    whose token set has no refresh token, and start [initialize] where
    loadCredentials finds usable client credentials and loadTokens finds a
    token set without a refresh token.  If the expiry of the token set is
    non-zero and before now, initialize returns false and the session is
    not authenticated: the one refresh call fails, the disk is unchanged
    and the token set bound to the handle is still the expired one, so
    nothing has renewed it.  An expiry of 0 is read like a missing one, as
    no expiry: initialize then makes no provider call and ends
    authenticated. *)
Theorem expired_without_refresh_token_not_renewed
    (rt : Runtime) (s s1 s2 : State) (file : CredentialsFile) (id secret : string)
    (tokens : Credentials) :
  (forall c t, credentials c = Some t -> refresh_token t = None ->
               refreshAccessToken rt c = None) ->
  loadCredentials rt s = Return (Some file) s1 ->
  client_keys (client_block file) = Some (id, secret) ->
  loadTokens rt s = Return (Some tokens) s2 ->
  refresh_token tokens = None ->
  (forall e, expiry_date tokens = Some (Finite e) -> e <> 0 -> e < now rt ->
     exists s',
       initialize rt s = Return false s' /\
       isAuthenticated (this s') = false /\ is_ready (this s') = false /\
       disk s' = disk s /\
       credentials <$> oauth2Client (this s') = Some (Some tokens)) /\
  (expiry_date tokens = Some (Finite 0) ->
     exists s',
       initialize rt s = Return true s' /\
       isAuthenticated (this s') = true /\ is_ready (this s') = true /\
       net_calls s' = net_calls s).
Proof.
  intros Hprov Hl Hk Ht Hnone.
  pose proof (client_of_loaded _ _ _ _ _ _ Hl Hk) as Hc.
  pose proof (loadTokens_value _ _ _ _ Ht) as Hst.
  split.
  - intros e He Hz Hlt.
    destruct (initialize_refresh_rejected rt s _ tokens Hc Hst
                (needs_refresh_past rt tokens e He Hz Hlt)) as (s' & Hrun & Hd & Hthis).
    + by apply (Hprov _ tokens).
    + exists s'. split; [done|]. unfold is_ready. by rewrite Hthis.
  - intros He.
    destruct (initialize_no_refresh rt s _ tokens Hc Hst) as (s' & Hrun & _ & Hn & Hthis).
    + unfold needs_refresh. by rewrite He.
    + exists s'. split; [done|]. unfold is_ready. by rewrite Hthis.
Qed.

Lemma demo_refresh_needs_refresh_token c t :
  credentials c = Some t -> refresh_token t = None -> demo_refresh c = None.
Proof. intros Hc Hn. unfold demo_refresh. by rewrite Hc, Hn. Qed.

(** C4 at a concrete input: the token file holds a token set that expired
    at 1000 and has no refresh token, the clock reads 2000. *)
Lemma expired_without_refresh_token_not_renewed_witness :
  exists s',
    initialize test_runtime (booted (demo_disk (Some tokens_expired_no_refresh) ∅))
      = Return false s' /\
    isAuthenticated (this s') = false /\ is_ready (this s') = false /\
    disk s' = disk (booted (demo_disk (Some tokens_expired_no_refresh) ∅)) /\
    credentials <$> oauth2Client (this s') = Some (Some tokens_expired_no_refresh).
Proof.
  refine (proj1 (expired_without_refresh_token_not_renewed
            test_runtime (booted (demo_disk (Some tokens_expired_no_refresh) ∅))
            (final_state (loadCredentials test_runtime
                            (booted (demo_disk (Some tokens_expired_no_refresh) ∅))))
            (final_state (loadTokens test_runtime
                            (booted (demo_disk (Some tokens_expired_no_refresh) ∅))))
            demo_credentials "id" "secret" tokens_expired_no_refresh
            demo_refresh_needs_refresh_token _ _ _ eq_refl) 1000 _ _ _).
  - by_vm.
  - by_vm.
  - by_vm.
  - reflexivity.
  - lia.
  - simpl. lia.
Defined.

(** ** Session manager: which public operations can throw *)

Lemma never_throws_ret {A} (a : A) : never_throws (ret a).
Proof. by intros s. Qed.

Lemma never_throws_gets {A} (f : State -> A) : never_throws (gets f).
Proof. by intros s. Qed.

Lemma never_throws_modify f : never_throws (modify f).
Proof. by intros s. Qed.

Lemma never_throws_console msg : never_throws (console_error msg).
Proof. by intros s. Qed.

Lemma never_throws_bind {A B} (m : M A) (k : A -> M B) :
  never_throws m -> (forall a, never_throws (k a)) -> never_throws (bind m k).
Proof.
  intros Hm Hk s. unfold bind. specialize (Hm s).
  destruct (m s) as [a s1|e s1]; [apply Hk|done].
Qed.

(** A [try] whose [catch] block cannot throw lets nothing through. *)
Lemma never_throws_try {A} (m : M A) (h : Error -> M A) :
  (forall e, never_throws (h e)) -> never_throws (try_catch m h).
Proof.
  intros Hh s. unfold try_catch.
  destruct (m s) as [a s1|e s1]; [done|apply Hh].
Qed.

Lemma never_throws_existsSync p : never_throws (existsSync p).
Proof. by intros s. Qed.

Create HintDb nothrow discriminated.
#[local] Hint Resolve never_throws_ret never_throws_gets never_throws_modify
  never_throws_console never_throws_existsSync : nothrow.

(** Peel one bind off a no-throw goal and close what the hints close. *)
Ltac nothrow_step :=
  first [ apply never_throws_bind; [solve [auto with nothrow]|intros ?]
        | apply never_throws_bind; [|intros ?] ].

Lemma never_throws_initialize rt : never_throws (initialize rt).
Proof.
  intros s. destruct (initialize_run rt s) as (b & s' & -> & _). done.
Qed.

#[local] Hint Resolve never_throws_initialize : nothrow.

Lemma never_throws_setAuthCode rt code : never_throws (setAuthCode rt code).
Proof.
  unfold setAuthCode. nothrow_step. nothrow_step.
  { case_bool_decide; [|auto with nothrow]. nothrow_step. auto with nothrow. }
  nothrow_step.
  match goal with c : option OAuth2Client |- _ => destruct c end;
    [|auto with nothrow].
  apply never_throws_try. intros e. nothrow_step. auto with nothrow.
Qed.

Lemma never_throws_accessors rt :
  never_throws getClient /\ never_throws isReady /\ never_throws (getAuthUrl rt).
Proof.
  split; [apply never_throws_gets|]. split; [apply never_throws_gets|].
  unfold getAuthUrl. apply never_throws_bind; [apply never_throws_gets|].
  intros [c|]; apply never_throws_ret.
Qed.

(** [logout] when the token file is there and unlinking is refused. *)
Lemma logout_run_locked rt s :
  is_Some (files (disk s) !! TOKEN_PATH (host rt)) ->
  TOKEN_PATH (host rt) ∈ locked (disk s) ->
  logout rt s =
    Throw (FsError "EPERM" (TOKEN_PATH (host rt)))
          (log_fs (UnlinkSync (TOKEN_PATH (host rt)))
             (log_fs (ExistsSync (TOKEN_PATH (host rt))) s)).
Proof.
  intros Hf Hl. unfold logout. run_m.
  unfold exists_on. rewrite (bool_decide_true _ Hf). simpl.
  by rewrite (bool_decide_true _ Hl).
Qed.

(** C2, what the code does.  logout has no try/catch around unlinkSync:
    when the token file exists and the system refuses to remove it, the
    error leaves logout as an exception, the authenticated flag is left as
    it was and no revocation is requested. *)
Theorem logout_propagates_unlink_error (rt : Runtime) (s : State) :
  is_Some (files (disk s) !! TOKEN_PATH (host rt)) ->
  TOKEN_PATH (host rt) ∈ locked (disk s) ->
  exists e s',
    logout rt s = Throw e s' /\
    isAuthenticated (this s') = isAuthenticated (this s) /\
    net_calls s' = net_calls s /\
    disk s' = disk s.
Proof.
  intros Hf Hl. rewrite (logout_run_locked rt s Hf Hl).
  by eexists _, _.
Qed.

(** C2 at a concrete input: the token file is there, its removal is
    refused, the session is authenticated. *)
Lemma logout_propagates_unlink_error_witness :
  isAuthenticated (this authenticated_locked) = true /\
  exists e s',
    logout (demo_runtime ∅ all_ports_free) authenticated_locked = Throw e s' /\
    isAuthenticated (this s') = isAuthenticated (this authenticated_locked) /\
    net_calls s' = net_calls authenticated_locked /\
    disk s' = disk authenticated_locked.
Proof.
  split; [reflexivity|].
  apply (logout_propagates_unlink_error (demo_runtime ∅ all_ports_free) authenticated_locked).
  - exists (demo_stringify tokens_valid, 384). by_vm.
  - vm_compute. reflexivity.
Defined.

(** Without a refused removal, [logout] returns. *)
Lemma logout_returns_unlocked rt s :
  TOKEN_PATH (host rt) ∉ locked (disk s) ->
  dirs (disk s) !! TOKEN_PATH (host rt) = None ->
  returns (logout rt s).
Proof.
  intros Hl Hd. unfold logout, revokeCredentials. run_m.
  unfold exists_on. rewrite Hd.
  rewrite (bool_decide_false (is_Some None)) by (by intros [? ?]).
  rewrite orb_false_r.
  destruct (files (disk s) !! TOKEN_PATH (host rt)) as [x|] eqn:Hf.
  - rewrite bool_decide_true by eauto. simpl.
    rewrite (bool_decide_false _ Hl). rewrite Hf. simpl.
    destruct (oauth2Client (this s)) eqn:Hc; simpl; rewrite ?Hc; done.
  - rewrite bool_decide_false by (by intros [? ?]). simpl.
    destruct (oauth2Client (this s)) eqn:Hc; simpl; rewrite ?Hc; done.
Qed.

(** ** The interactive flow *)

Lemma set_exchanges_id f : set_exchanges (exchanges f) f = f.
Proof. by destruct f. Qed.

Lemma on_request_run url f s :
  exists f' s', on_request url f s = Return f' s' /\ this s' = this s /\
    ((f' = f /\ s' = s) \/
     (exists l, f' = set_exchanges l f) \/
     (exists st, f' = resolve Failure (server_close (respond st f)))).
Proof.
  unfold on_request, callback_failed. destruct url as [url|].
  2:{ run_m. eexists _, _. split; [reflexivity|]. split; [done|].
      right; right. by exists 500. }
  destruct (String.eqb (pathname url) CALLBACK_PATH).
  2:{ run_m. eexists _, _. split; [reflexivity|]. split; [done|]. by left. }
  destruct (truthy (code_param url)).
  2:{ run_m. eexists _, _. split; [reflexivity|]. split; [done|].
      right; right. by exists 400. }
  run_m. destruct (oauth2Client (this s)) as [c|]; simpl.
  - eexists _, _. split; [reflexivity|]. split; [done|]. right; left. eauto.
  - eexists _, _. split; [reflexivity|]. split; [done|]. right; right. by exists 500.
Qed.

Lemma on_token_response_run rt i f s :
  exists f' s', on_token_response rt i f s = Return f' s' /\
    ((f' = f /\ s' = s) \/
     (exists l, f' = resolve Failure (server_close (respond 500 (set_exchanges l f))) /\
                isAuthenticated (this s') = isAuthenticated (this s)) \/
     (exists l, f' = resolve Success (server_close (respond 200 (set_exchanges l f))) /\
                isAuthenticated (this s') = true)).
Proof.
  unfold on_token_response, callback_failed.
  destruct (exchanges f !! i) as [[c0 code]|]; [|eexists _, _; split; [reflexivity|by left]].
  unfold try_catch.
  destruct (getToken rt c0 code) as [tokens|]; simpl.
  2:{ run_m. eexists _, _. split; [reflexivity|]. right; left. eauto. }
  destruct (oauth2Client (this s)) as [c|] eqn:Hc.
  2:{ run_m. rewrite Hc. simpl. eexists _, _. split; [reflexivity|]. right; left. eauto. }
  rewrite (bind_Return _ _ _ _ _ (setCredentials_run tokens s c Hc)).
  pose proof (saveTokens_same_session rt tokens
                (set_this (set_client (Some (with_credentials tokens c))) s)) as Hs.
  unfold bind at 1.
  destruct (saveTokens rt tokens _) as [[] s1|e s1]; simpl in Hs; destruct Hs as [_ Ha].
  - run_m. eexists _, _. split; [reflexivity|]. right; right. eauto.
  - run_m. eexists _, _. split; [reflexivity|]. right; left. eauto.
Qed.

Lemma step_run rt e f s :
  exists f' s', step rt e f s = Return f' s' /\ step_shape e f s f' s'.
Proof.
  unfold step_shape. destruct e as [|url|i| |]; simpl.
  - destruct (server f) eqn:Hsrv; try (eexists _, _; split; [reflexivity|by left]).
    unfold on_listening. run_m. eexists _, _. split; [reflexivity|].
    right; right; left. done.
  - destruct (server f) eqn:Hsrv; try (eexists _, _; split; [reflexivity|by left]).
    destruct (on_request_run url f s) as (f' & s' & Hrun & Ht & Hcase).
    exists f', s'. split; [done|].
    destruct Hcase as [[-> ->]|[[l ->]|[st ->]]].
    + by left.
    + right; left. exists l. by rewrite Ht.
    + right; right; right; left. exists Failure, st, (exchanges f).
      rewrite set_exchanges_id, Ht. auto.
  - destruct (on_token_response_run rt i f s) as (f' & s' & Hrun & Hcase).
    exists f', s'. split; [done|].
    destruct Hcase as [[-> ->]|[(l & -> & Ha)|(l & -> & Ha)]].
    + by left.
    + right; right; right; left. exists Failure, 500, l. auto.
    + right; right; right; left. exists Success, 200, l. auto.
  - unfold on_error. run_m. eexists _, _. split; [reflexivity|].
    right; right; right; right; left. done.
  - unfold on_deadline. run_m.
    destruct (isAuthenticated (this s)) eqn:Ha; simpl.
    + eexists _, _. split; [reflexivity|]. left. done.
    + eexists _, _. split; [reflexivity|].
      right; right; right; right; right. done.
Qed.

Lemma settled_resolve o f : settled (resolve o f) <> None.
Proof. unfold resolve. destruct (settled f) eqn:H; simpl; congruence. Qed.

Lemma settled_resolve_keep o o' f :
  settled f = Some o -> settled (resolve o' f) = Some o.
Proof. unfold resolve. intros H. by rewrite H. Qed.

Lemma server_resolve o f : server (resolve o f) = server f.
Proof. unfold resolve. by destruct (settled f). Qed.

(** The first [resolve] wins: a settled promise keeps its outcome. *)
Lemma step_settled_once rt e f s f' s' o :
  step rt e f s = Return f' s' -> settled f = Some o -> settled f' = Some o.
Proof.
  intros Hstep Hset.
  destruct (step_run rt e f s) as (f1 & s1 & Hrun & Hshape).
  rewrite Hstep in Hrun. injection Hrun as <- <-.
  destruct Hshape as [[-> _]|[(l & -> & _)|[(_ & -> & _)|[(o' & st & l & -> & _)|
                      [(_ & -> & _)|(_ & _ & -> & _)]]]]]; try done.
  all: by apply settled_resolve_keep.
Qed.

(** X24.  Every handler that settles the promise closes the listener
    first, the "error" handler apart: when one turn of the event loop
    other than a listener error takes the promise from pending to settled,
    the listener is closed afterwards. *)
Lemma step_resolution_closes rt e f s f' s' :
  step rt e f s = Return f' s' ->
  settled f = None -> settled f' <> None ->
  e <> ServerError -> server f' = Closed.
Proof.
  intros Hstep Hnone Hsome Hne.
  destruct (step_run rt e f s) as (f1 & s1 & Hrun & Hshape).
  rewrite Hstep in Hrun. injection Hrun as <- <-.
  destruct Hshape as [[-> _]|[(l & -> & _)|[(_ & -> & _)|[(o' & st & l & -> & _)|
                      [(He & _)|(_ & _ & -> & _)]]]]]; try done.
  all: by rewrite server_resolve.
Qed.

(** A closed listener stays closed. *)
Lemma step_closed_stays rt e f s f' s' :
  step rt e f s = Return f' s' -> server f = Closed -> server f' = Closed.
Proof.
  intros Hstep Hcl.
  destruct (step_run rt e f s) as (f1 & s1 & Hrun & Hshape).
  rewrite Hstep in Hrun. injection Hrun as <- <-.
  destruct Hshape as [[-> _]|[(l & -> & _)|[(Hb & _)|[(o' & st & l & -> & _)|
                      [(_ & -> & _)|(_ & _ & -> & _)]]]]]; try done.
  - congruence.
  - by rewrite server_resolve.
  - by rewrite server_resolve.
  - by rewrite server_resolve.
Qed.

Lemma step_flow_inv rt e f s f' s' :
  step rt e f s = Return f' s' -> flow_inv f s -> flow_inv f' s'.
Proof.
  intros Hstep Hinv.
  destruct (step_run rt e f s) as (f1 & s1 & Hrun & Hshape).
  rewrite Hstep in Hrun. injection Hrun as <- <-.
  unfold flow_inv in *.
  destruct Hshape as [(-> & Ha)|[(l & -> & Ha)|[(Hb & -> & Ha)|[(o' & st & l & -> & Ha)|
                      [(_ & -> & Ha)|(_ & Hf & -> & Ha)]]]]].
  - rewrite Ha. done.
  - rewrite Ha. done.
  - rewrite Ha. intros H. destruct (Hinv H) as [_ Hc]. congruence.
  - intros _. split; [apply settled_resolve|by rewrite server_resolve].
  - rewrite Ha. intros H. destruct (Hinv H) as [Hs Hc].
    split; [apply settled_resolve|by rewrite server_resolve].
  - rewrite Ha, Hf. done.
Qed.

(** When the timer fires, the promise is settled and the listener closed,
    whatever happened before. *)
Lemma step_deadline rt f s f' s' :
  step rt Deadline f s = Return f' s' -> flow_inv f s ->
  settled f' <> None /\ server f' = Closed.
Proof.
  intros Hstep Hinv. simpl in Hstep. unfold on_deadline in Hstep.
  revert Hstep. run_m.
  destruct (isAuthenticated (this s)) eqn:Ha; simpl; intros [= <- <-].
  - by apply Hinv.
  - split; [apply settled_resolve|by rewrite server_resolve].
Qed.

Lemma run_returns rt es f s : exists f' s', run rt es f s = Return f' s'.
Proof.
  revert f s. induction es as [|e es IH]; intros f s; simpl.
  - by eexists _, _.
  - destruct (step_run rt e f s) as (f1 & s1 & Hrun & _).
    rewrite (bind_Return _ _ _ _ _ Hrun). apply IH.
Qed.

Lemma run_cons rt e es f s f' s' :
  run rt (e :: es) f s = Return f' s' ->
  exists f1 s1, step rt e f s = Return f1 s1 /\ run rt es f1 s1 = Return f' s'.
Proof.
  simpl. destruct (step_run rt e f s) as (f1 & s1 & Hrun & _).
  rewrite (bind_Return _ _ _ _ _ Hrun). eauto.
Qed.

Lemma run_settled_once rt es f s f' s' o :
  run rt es f s = Return f' s' -> settled f = Some o -> settled f' = Some o.
Proof.
  revert f s. induction es as [|e es IH]; intros f s Hrun Hset.
  - simpl in Hrun. by injection Hrun as <- <-.
  - destruct (run_cons _ _ _ _ _ _ _ Hrun) as (f1 & s1 & Hstep & Hrest).
    eapply IH; [exact Hrest|]. by eapply step_settled_once.
Qed.

Lemma run_closed_stays rt es f s f' s' :
  run rt es f s = Return f' s' -> server f = Closed -> server f' = Closed.
Proof.
  revert f s. induction es as [|e es IH]; intros f s Hrun Hcl.
  - simpl in Hrun. by injection Hrun as <- <-.
  - destruct (run_cons _ _ _ _ _ _ _ Hrun) as (f1 & s1 & Hstep & Hrest).
    eapply IH; [exact Hrest|]. by eapply step_closed_stays.
Qed.

(** Every run in which the timer fires ends with the promise settled and
    the listener closed. *)
Lemma run_deadline_settles rt es f s f' s' :
  run rt es f s = Return f' s' -> flow_inv f s -> Deadline ∈ es ->
  settled f' <> None /\ server f' = Closed.
Proof.
  revert f s. induction es as [|e es IH]; intros f s Hrun Hinv Hin.
  - by apply elem_of_nil in Hin.
  - destruct (run_cons _ _ _ _ _ _ _ Hrun) as (f1 & s1 & Hstep & Hrest).
    apply elem_of_cons in Hin as [<-|Hin].
    + destruct (step_deadline _ _ _ _ _ Hstep Hinv) as [Hs Hc].
      split; [|by eapply run_closed_stays].
      destruct (settled f1) as [o|] eqn:Ho; [|done].
      by rewrite (run_settled_once _ _ _ _ _ _ _ Hrest Ho).
    + eapply IH; [exact Hrest| |exact Hin]. by eapply step_flow_inv.
Qed.

(** ** [authenticate]: the prefix that runs before the promise is pending *)

Lemma authenticate_unfold rt :
  authenticate rt =
  (let* c := gets (fun s => oauth2Client (this s)) in
   let* returned :=
     (if bool_decide (c = None) then
        let* initialized := initialize rt in
        let* c := gets (fun s => oauth2Client (this s)) in
        if negb initialized && bool_decide (c = None) then ret (Some false) else ret None
      else ret None) in
   match returned with
   | Some b => ret (Resolved b)
   | None => authenticate_flow rt
   end).
Proof. reflexivity. Qed.

Lemma authenticate_flow_run rt s :
  is_Some (oauth2Client (this s)) ->
  exists r s', authenticate_flow rt s = Return r s' /\ pending_ok rt r s'.
Proof.
  intros Hc. unfold authenticate_flow.
  unfold bind at 1, gets at 1.
  destruct (isAuthenticated (this s)) eqn:Ha; [by eexists _, _|].
  unfold bind at 1, try_catch at 1.
  destruct (findAvailablePort_default (isPortAvailable rt)) as [port|a b|bad] eqn:Hport.
  2:{ run_m. by eexists _, _. }
  2:{ run_m. by eexists _, _. }
  unfold bind at 1, console_error at 1, modify at 1. unfold ret at 1.
  set (s1 := log_console "Found available port:" s).
  destruct (loadCredentials_run rt s1) as (s2 & H2 & Ht2 & _).
  rewrite (bind_Return _ _ _ _ _ H2).
  assert (this s2 = this s) as Hthis by (by rewrite Ht2).
  destruct (stored_credentials rt (disk s1)) as [cf|].
  - destruct (client_keys (client_block cf)) as [[id secret]|].
    + run_m. eexists _, _. split; [reflexivity|]. simpl.
      rewrite Hthis, Ha. repeat split; eauto.
    + run_m. rewrite Hthis. destruct Hc as [c Hc]. rewrite Hc. simpl.
      eexists _, _. split; [reflexivity|]. simpl.
      rewrite Hthis, Ha, Hc. repeat split; eauto.
  - run_m. rewrite Hthis. destruct Hc as [c Hc]. rewrite Hc. simpl.
    eexists _, _. split; [reflexivity|]. simpl.
    rewrite Hthis, Ha, Hc. repeat split; eauto.
Qed.

Lemma initialize_true_client rt s b s' :
  initialize_outcome rt s b s' -> b = true -> is_Some (oauth2Client (this s')).
Proof.
  unfold initialize_outcome. intros Hout ->.
  destruct (client_of rt (disk s)) as [c0|]; [|by destruct Hout].
  destruct (stored_tokens rt (disk s)) as [tokens|]; [|by destruct Hout].
  simpl in Hout. destruct (needs_refresh rt tokens).
  - destruct (refreshAccessToken rt _) as [newTokens|]; [|by destruct Hout].
    destruct Hout as [-> _]. eauto.
  - destruct Hout as (_ & _ & _ & ->). simpl. eauto.
Qed.

Lemma authenticate_run rt s :
  exists r s', authenticate rt s = Return r s' /\ pending_ok rt r s'.
Proof.
  rewrite authenticate_unfold.
  unfold bind at 1, gets at 1.
  destruct (oauth2Client (this s)) as [c|] eqn:Hc.
  - rewrite bool_decide_false by done.
    unfold bind at 1, ret at 1. apply authenticate_flow_run. rewrite Hc. eauto.
  - rewrite bool_decide_true by done.
    destruct (initialize_run rt s) as (b & s1 & Hinit & Hout).
    unfold bind at 1. rewrite (bind_Return _ _ _ _ _ Hinit).
    unfold bind at 1, gets at 1.
    destruct (oauth2Client (this s1)) as [c1|] eqn:Hc1.
    + rewrite bool_decide_false by done. rewrite andb_false_r.
      unfold ret at 1. apply authenticate_flow_run. rewrite Hc1. eauto.
    + rewrite bool_decide_true by done. rewrite andb_true_r.
      destruct b; simpl.
      * pose proof (initialize_true_client rt s true s1 Hout eq_refl) as [c1 Hc1'].
        congruence.
      * by eexists _, _.
Qed.

Lemma never_throws_authenticate rt : never_throws (authenticate rt).
Proof. intros s. destruct (authenticate_run rt s) as (r & s' & -> & _). done. Qed.

Lemma never_throws_initializeWithAuth rt : never_throws (initializeWithAuth rt).
Proof.
  unfold initializeWithAuth.
  apply never_throws_bind; [apply never_throws_initialize|]. intros b.
  apply never_throws_bind; [apply never_throws_gets|]. intros a.
  destruct (b && a); [apply never_throws_ret|].
  apply never_throws_bind; [apply never_throws_gets|]. intros [c|].
  - apply never_throws_bind; [apply never_throws_console|]. intros _.
    apply never_throws_authenticate.
  - apply never_throws_ret.
Qed.

Lemma never_throws_step rt e f : never_throws (step rt e f).
Proof. intros s. destruct (step_run rt e f s) as (f' & s' & -> & _). done. Qed.

(** A listener error on a flow whose listener is accepting connections. *)
Lemma error_while_listening rt f s :
  server f = Binding -> settled f = None ->
  exists f' s',
    run rt [Listening; ServerError] f s = Return f' s' /\
    settled f' = Some Failure /\ server f' = Open /\
    responses f' = responses f /\ this s' = this s.
Proof.
  intros Hb Hn. simpl. rewrite Hb. unfold on_listening, on_error. run_m.
  eexists _, _. split; [reflexivity|].
  unfold resolve. simpl. rewrite Hn. simpl. done.
Qed.

(** C1, what the code does.  From the flow that authenticate leaves
    pending, let the listener bind and then emit an error: the "error"
    handler settles the promise as failed (the flow resolves to false) and
    does not close the listener, which is still accepting connections at
    the resolution. *)
Theorem listener_error_resolves_without_close
    (rt : Runtime) (s : State) (f : Flow) (s0 : State) :
  authenticate rt s = Return (Pending f) s0 ->
  exists f' s',
    run rt [Listening; ServerError] f s0 = Return f' s' /\
    settled f' = Some Failure /\
    promise_value f' = Some false /\
    server f' = Open.
Proof.
  intros Hauth.
  destruct (authenticate_run rt s) as (r & s1 & Hrun & Hok).
  rewrite Hauth in Hrun. injection Hrun as <- <-.
  destruct Hok as ((Hb & Hn & _) & _).
  destruct (error_while_listening rt f s0 Hb Hn) as (f' & s' & Hrun & Hs & Ho & _).
  exists f', s'. repeat split; try done. unfold promise_value. by rewrite Hs.
Qed.

Lemma demo_authenticate_pending :
  authenticate (demo_runtime ∅ all_ports_free) (booted (demo_disk None ∅))
    = Return (Pending demo_pending_flow) demo_pending_state.
Proof. by_vm. Qed.

(** C1 at a concrete input: credentials on disk, no token file, port 3000
    free; authenticate leaves a flow pending, then the listener binds and
    emits an error. *)
Lemma listener_error_resolves_without_close_witness :
  authenticate (demo_runtime ∅ all_ports_free) (booted (demo_disk None ∅))
    = Return (Pending demo_pending_flow) demo_pending_state /\
  exists f' s',
    run (demo_runtime ∅ all_ports_free) [Listening; ServerError]
        demo_pending_flow demo_pending_state = Return f' s' /\
    settled f' = Some Failure /\
    promise_value f' = Some false /\
    server f' = Open.
Proof.
  split; [by_vm|].
  apply (listener_error_resolves_without_close
           (demo_runtime ∅ all_ports_free) (booted (demo_disk None ∅))).
  by_vm.
Defined.

(** ** Requests that are not the callback *)

Lemma other_path_request_run rt url f s :
  pathname url <> CALLBACK_PATH ->
  step rt (Request (Some url)) f s = Return f s.
Proof.
  intros Hne. simpl. destruct (server f); try done.
  unfold on_request. apply String.eqb_neq in Hne. rewrite Hne. done.
Qed.

(** C10, the claim as stated fails.  A request whose target does not
    parse as a URL, such as the target [//], is not a request for
    /oauth2callback; yet it reaches the catch block of the handler, which
    answers 500, closes the listener and resolves the flow to false. *)
Lemma unparseable_request_is_answered :
  server demo_listening_flow = Open /\ settled demo_listening_flow = None /\
  responses demo_listening_flow = [] /\
  exists f' s',
    run test_runtime [Request None] demo_listening_flow demo_pending_state = Return f' s' /\
    settled f' = Some Failure /\ promise_value f' = Some false /\
    responses f' = [500] /\ server f' = Closed.
Proof.
  split; [reflexivity|]. split; [reflexivity|]. split; [reflexivity|].
  eexists _, _. split; [reflexivity|]. split; [reflexivity|].
  split; [reflexivity|]. split; reflexivity.
Qed.

(** C10, amended.  During a flow, a request whose target parses as a
    URL with a pathname other than /oauth2callback changes nothing, and so
    does any sequence of such requests: the promise is as settled or
    unsettled as before, no status code is sent, the listener is in the
    state it was in (open stays open), and the session, the disk and the
    logs are untouched. *)
Theorem other_path_requests_are_ignored
    (rt : Runtime) (f : Flow) (s : State) (urls : list URL) :
  Forall (fun url => pathname url <> CALLBACK_PATH) urls ->
  exists f' s',
    run rt (map (fun url => Request (Some url)) urls) f s = Return f' s' /\
    settled f' = settled f /\
    responses f' = responses f /\
    server f' = server f /\
    this s' = this s /\
    f' = f /\ s' = s.
Proof.
  intros Hall. exists f, s. split; [|done].
  induction Hall as [|url urls Hne _ IH]; simpl; [done|].
  rewrite (bind_Return _ _ _ _ _ (other_path_request_run rt url f s Hne)).
  exact IH.
Qed.

(** C10 at a concrete input: requests for /favicon.ico and for
    /oauth2callback/ (with a trailing slash and a code) reach the open
    listener. *)
Lemma other_path_requests_are_ignored_witness :
  server demo_listening_flow = Open /\
  exists f' s',
    run (demo_runtime ∅ all_ports_free)
        (map (fun url => Request (Some url))
             [mkURL "/favicon.ico" None; mkURL "/oauth2callback/" (Some "good-code")])
        demo_listening_flow demo_pending_state = Return f' s' /\
    settled f' = settled demo_listening_flow /\
    responses f' = responses demo_listening_flow /\
    server f' = server demo_listening_flow /\
    this s' = this demo_pending_state /\
    f' = demo_listening_flow /\ s' = demo_pending_state.
Proof.
  split; [reflexivity|].
  apply (other_path_requests_are_ignored (demo_runtime ∅ all_ports_free)).
  repeat constructor; simpl; discriminate.
Defined.

(** A request whose URL cannot be parsed is not ignored: the handler's
    catch block answers 500, closes the listener and fails the flow. *)
Lemma unparseable_request_fails_flow rt f s :
  server f = Open -> settled f = None ->
  step rt (Request None) f s =
    Return (resolve Failure (server_close (respond 500 f)))
           (log_console "OAuth callback error:" s) /\
  settled (resolve Failure (server_close (respond 500 f))) = Some Failure.
Proof.
  intros Ho Hn. simpl. rewrite Ho. split; [reflexivity|].
  unfold resolve. simpl. by rewrite Hn.
Qed.

(** X25.  With no callback and no listener error, the flow times out:
    once the listener is bound and the timer fires on a session that is
    not authenticated, the flow resolves to false, the listener is closed,
    and the session and the disk are as they were. *)
Lemma no_callback_times_out rt f s :
  fresh_flow f -> isAuthenticated (this s) = false ->
  exists f' s',
    run rt [Listening; Deadline] f s = Return f' s' /\
    settled f' = Some TimedOut /\ promise_value f' = Some false /\
    server f' = Closed /\ this s' = this s /\ disk s' = disk s.
Proof.
  intros (Hb & Hn & _) Ha. simpl. rewrite Hb.
  unfold on_listening, on_deadline. run_m. rewrite Ha. simpl.
  eexists _, _. split; [reflexivity|].
  unfold promise_value, resolve. simpl. rewrite Hn. simpl. done.
Qed.

(** X23.  Exactly one outcome, as long as only the flow acts on the
    session: in every run of a flow that authenticate left pending that
    consists of events of the flow itself (the bind, requests, answers to
    the exchanges the flow has started, listener errors, the timer), with
    no other operation of the module run in between, and in which the
    timer fires, whatever else is delivered and in whatever order, the
    promise ends settled with one outcome, no later event of the flow
    changes an outcome once it is there, and the listener ends closed. *)
Lemma flow_resolves_exactly_once rt s f s0 es f' s' :
  authenticate rt s = Return (Pending f) s0 ->
  Deadline ∈ es ->
  run rt es f s0 = Return f' s' ->
  (exists o, settled f' = Some o) /\ server f' = Closed /\
  (forall es' f'' s'', run rt es' f' s' = Return f'' s'' -> settled f'' = settled f').
Proof.
  intros Hauth Hin Hrun.
  destruct (authenticate_run rt s) as (r & s1 & Hrun1 & Hok).
  rewrite Hauth in Hrun1. injection Hrun1 as <- <-.
  destruct Hok as (_ & _ & Ha & _).
  assert (flow_inv f s0) as Hinv by (unfold flow_inv; congruence).
  destruct (run_deadline_settles rt es f s0 f' s' Hrun Hinv Hin) as [Hs Hc].
  destruct (settled f') as [o|] eqn:Ho; [|done].
  split; [eauto|]. split; [done|].
  intros es' f'' s'' Hrun'. by eapply run_settled_once.
Qed.

(** * More of the module *)

(** ** Writing the token file *)

(** With the data directory in place and the token path free,
    [saveTokens] writes the file, whatever the directories flag says. *)
Lemma saveTokens_writable rt tokens s :
  env_blank (host rt) "GOOGLE_TOKENS_JSON" ->
  token_path_writable rt (disk s) ->
  exists s1,
    ensureDirectoriesExist rt s = Return tt s1 /\
    dirs_added MODE_DIR (disk s) (disk s1) /\
    same_session s s1 /\ net_calls s1 = net_calls s /\
    saveTokens rt tokens s =
      Return tt (set_disk (write_file (TOKEN_PATH (host rt)) (stringifyTokens rt tokens) MODE_FILE)
                   (log_fs (WriteFileSync (TOKEN_PATH (host rt)) (stringifyTokens rt tokens) MODE_FILE)
                      s1)).
Proof.
  intros Hb ([m Hm] & Hl & Hd).
  destruct (saveTokens_run rt tokens s Hb)
    as (s1 & l & He & Hs & Hn & Hadd & _ & _ & _ & Hsave).
  exists s1. do 4 (split; [done|]). rewrite Hsave.
  destruct Hadd as (Hf & Hlk & Hk & _).
  apply writeFileSync_ok.
  - by rewrite Hlk.
  - destruct (dirs (disk s1) !! TOKEN_PATH (host rt)) as [m'|] eqn:Hd1; [|done].
    exfalso.
    pose proof (proj1 (ensureDirectoriesExist_dirs rt s) (TOKEN_PATH (host rt)) m') as Hnew.
    rewrite He in Hnew. simpl in Hnew.
    destruct (Hnew Hd1) as [Hold|[[Hin|Hin] _]]; [congruence| |].
    + by apply (proj1 (TOKEN_PATH_not_ancestor (host rt))).
    + by apply (proj2 (TOKEN_PATH_not_ancestor (host rt))).
  - rewrite dirname_TOKEN_PATH. exists m. by apply Hk.
Qed.

Lemma write_file_writable rt data mode d :
  token_path_writable rt d ->
  token_path_writable rt (write_file (TOKEN_PATH (host rt)) data mode d).
Proof. by intros (? & ? & ?). Qed.

Lemma dirs_added_writable rt mode d d' :
  dirs_added mode d d' -> token_path_writable rt d ->
  dirs d' !! TOKEN_PATH (host rt) = None ->
  token_path_writable rt d'.
Proof.
  intros (_ & Hl & Hk & _) ([m Hm] & Hnl & _) Hd.
  split; [exists m; by apply Hk|]. split; [by rewrite Hl|done].
Qed.

(** What [saveTokens] does when it can save: it returns; the session is
    as it was, no provider call is made, and with the environment variable
    blank the token file holds the serialized token set. *)
Lemma saveTokens_can_save rt tokens s :
  can_save rt (disk s) ->
  exists s',
    saveTokens rt tokens s = Return tt s' /\
    same_session s s' /\ net_calls s' = net_calls s /\
    ((exists v, env_holds (host rt) "GOOGLE_TOKENS_JSON" v) -> s' = s) /\
    (env_blank (host rt) "GOOGLE_TOKENS_JSON" ->
       exists s1, dirs_added MODE_DIR (disk s) (disk s1) /\
         disk s' = write_file (TOKEN_PATH (host rt)) (stringifyTokens rt tokens) MODE_FILE
                     (disk s1)).
Proof.
  intros Hcan.
  destruct (env_holds_or_blank (host rt) "GOOGLE_TOKENS_JSON") as [[v Hv]|Hb].
  - exists s. rewrite (saveTokens_env _ _ _ _ Hv).
    split; [done|]. split; [by split|]. split; [done|]. split; [done|].
    intros Hb. by destruct (env_holds_not_blank _ _ _ Hv Hb).
  - destruct Hcan as [[v Hv]|Hw]; [by destruct (env_holds_not_blank _ _ _ Hv Hb)|].
    destruct (saveTokens_writable rt tokens s Hb Hw) as (s1 & He & Hadd & Hs & Hn & ->).
    eexists. split; [reflexivity|]. split; [exact Hs|]. split; [exact Hn|]. split.
    + intros [v Hv]. by destruct (env_holds_not_blank _ _ _ Hv Hb).
    + intros _. exists s1. by split.
Qed.

(** A refused write: [saveTokens] throws, and no file has changed. *)
Lemma saveTokens_locked rt tokens s :
  env_blank (host rt) "GOOGLE_TOKENS_JSON" ->
  TOKEN_PATH (host rt) ∈ locked (disk s) ->
  exists s',
    saveTokens rt tokens s = Throw (FsError "EACCES" (TOKEN_PATH (host rt))) s' /\
    same_session s s' /\ net_calls s' = net_calls s /\
    files (disk s') = files (disk s).
Proof.
  intros Hb Hl.
  destruct (saveTokens_run rt tokens s Hb)
    as (s1 & l & He & Hs & Hn & Hadd & _ & _ & _ & Hsave).
  destruct Hadd as (Hf & Hlk & _).
  eexists. split.
  - rewrite Hsave. apply writeFileSync_locked. by rewrite Hlk.
  - simpl. split; [exact Hs|]. split; [exact Hn|exact Hf].
Qed.

(** ** Run equations of the session manager *)

(** [logout] when nothing refuses the removal. *)
Lemma logout_run rt s :
  TOKEN_PATH (host rt) ∉ locked (disk s) ->
  dirs (disk s) !! TOKEN_PATH (host rt) = None ->
  exists s',
    logout rt s = Return tt s' /\
    disk s' = remove_file (TOKEN_PATH (host rt)) (disk s) /\
    this s' = logged_out (this s) /\
    net_calls s' =
      (net_calls s ++ match oauth2Client (this s) with
                      | Some _ => [RevokeCredentials (bound_tokens (this s) ≫= access_token)]
                      | None => []
                      end)%list /\
    fs_calls s' =
      (fs_calls s ++ ExistsSync (TOKEN_PATH (host rt)) ::
         match files (disk s) !! TOKEN_PATH (host rt) with
         | Some _ => [UnlinkSync (TOKEN_PATH (host rt))]
         | None => []
         end)%list.
Proof.
  intros Hl Hd. unfold logout, revokeCredentials, logged_out, bound_tokens. run_m.
  unfold exists_on. rewrite Hd.
  rewrite (bool_decide_false (is_Some None)) by (by intros [? ?]).
  rewrite orb_false_r.
  destruct (files (disk s) !! TOKEN_PATH (host rt)) as [x|] eqn:Hf.
  - rewrite bool_decide_true by eauto. simpl.
    rewrite (bool_decide_false _ Hl). rewrite Hf. simpl.
    destruct (oauth2Client (this s)) as [c|] eqn:Hc; simpl; rewrite ?Hc; simpl;
      (eexists; split; [reflexivity|]; simpl; rewrite <- ?app_assoc, ?app_nil_r;
       try destruct (credentials c); done).
  - rewrite bool_decide_false by (by intros [? ?]). simpl.
    assert (remove_file (TOKEN_PATH (host rt)) (disk s) = disk s) as Hrm.
    { unfold remove_file. rewrite delete_id by done. by destruct (disk s). }
    destruct (oauth2Client (this s)) as [c|] eqn:Hc; simpl; rewrite ?Hc; simpl;
      (eexists; split; [reflexivity|]; simpl; rewrite ?app_nil_r, Hrm;
       try destruct (credentials c); done).
Qed.

Lemma logged_out_fields o :
  oauth2Client (logged_out o) = without_credentials <$> oauth2Client o /\
  isAuthenticated (logged_out o) = false /\
  directoriesInitialized (logged_out o) = directoriesInitialized o /\
  bound_tokens (logged_out o) = None /\
  logged_out (logged_out o) = logged_out o.
Proof. unfold logged_out, bound_tokens. by destruct (oauth2Client o) as [c|] eqn:Hc; simpl; rewrite ?Hc. Qed.

(** [initialize] up to the write-back of a refreshed token set. *)
Lemma initialize_refresh_run rt s c0 tokens newTokens :
  client_of rt (disk s) = Some c0 ->
  stored_tokens rt (disk s) = Some tokens ->
  needs_refresh rt tokens = true ->
  refreshAccessToken rt (with_credentials tokens c0) = Some newTokens ->
  exists s4,
    disk s4 = disk s /\
    this s4 = set_client (Some (with_credentials newTokens c0)) (this s) /\
    net_calls s4 = (net_calls s ++ [RefreshAccessToken])%list /\
    initialize rt s =
      match saveTokens rt newTokens s4 with
      | Return _ s5 =>
          Return true
            (set_this (set_authenticated true)
               (set_this (set_client (Some (with_credentials newTokens c0))) s5))
      | Throw _ s5 =>
          Return false
            (set_this (set_authenticated false)
               (log_console "Error refreshing token, re-authentication required:" s5))
      end.
Proof.
  intros Hc Ht Hn Hr.
  unfold initialize. unfold client_of in Hc.
  destruct (loadCredentials_run rt s) as (s1 & H1 & Ht1 & Hd1 & Hn1 & _).
  rewrite (bind_Return _ _ _ _ _ H1).
  destruct (stored_credentials rt (disk s)) as [cf|]; [|done].
  destruct (client_keys (client_block cf)) as [[id secret]|]; [|done].
  injection Hc as <-.
  set (c0 := new_OAuth2 id secret (first_redirect (client_block cf))) in *.
  unfold bind at 1, modify at 1.
  destruct (loadTokens_run rt (set_this (set_client (Some c0)) s1))
    as (s2 & H2 & Ht2 & Hd2 & Hn2 & _).
  simpl in Ht2, Hd2, Hn2. rewrite Hd1 in Hd2. rewrite Hn1 in Hn2.
  simpl in H2. rewrite Hd1 in H2.
  rewrite (bind_Return _ _ _ _ _ H2). rewrite Ht.
  assert (oauth2Client (this s2) = Some c0) as Hc2 by (by rewrite Ht2).
  rewrite (bind_Return _ _ _ _ _ (setCredentials_run tokens s2 c0 Hc2)).
  set (c1 := with_credentials tokens c0) in *.
  set (s3 := set_this (set_client (Some c1)) s2).
  assert (this s3 = set_client (Some c1) (this s)) as Ht3.
  { unfold s3. simpl. rewrite Ht2. simpl. by rewrite Ht1. }
  rewrite Hn.
  unfold bind at 1, try_catch at 1.
  unfold bind at 1.
  assert (oauth2Client (this s3) = Some c1) as Hc3 by (by rewrite Ht3).
  rewrite (call_refreshAccessToken_run rt s3 c1 Hc3). rewrite Hr.
  set (s4 := set_this (set_client (Some (with_credentials newTokens c1)))
               (log_net RefreshAccessToken s3)).
  exists s4. split; [exact Hd2|].
  split.
  { transitivity (set_client (Some (with_credentials newTokens c1)) (this s3)); [done|].
    by rewrite Ht3. }
  split; [simpl; by rewrite Hn2|].
  assert (oauth2Client (this s4) = Some (with_credentials newTokens c1)) as Hc4 by done.
  pose proof (save_and_bind_run rt newTokens s4 _ Hc4) as Hsb.
  destruct (saveTokens rt newTokens s4) as [[] s5|e s5] eqn:Hsave.
  - destruct Hsb as [Hsb Hss].
    unfold bind in Hsb. rewrite Hsave in Hsb. unfold bind at 1. rewrite Hsave.
    unfold bind at 1. rewrite Hsb. reflexivity.
  - unfold bind at 1. rewrite Hsave. reflexivity.
Qed.

(** [setAuthCode] on a session that has a client handle. *)
Lemma setAuthCode_run rt code s c :
  oauth2Client (this s) = Some c ->
  setAuthCode rt code s =
    match getToken rt c code with
    | None =>
        Return false (log_console "Error exchanging auth code:" (log_net (GetToken code) s))
    | Some tokens =>
        match saveTokens rt tokens
                (set_this (set_client (Some (with_credentials tokens c)))
                   (log_net (GetToken code) s)) with
        | Return _ s1 => Return true (set_this (set_authenticated true) s1)
        | Throw _ s1 => Return false (log_console "Error exchanging auth code:" s1)
        end
    end.
Proof.
  intros Hc. unfold setAuthCode, call_getToken.
  unfold bind at 1, gets at 1. rewrite Hc.
  rewrite bool_decide_false by done.
  unfold bind at 1, ret at 1. unfold bind at 1, gets at 1. rewrite Hc.
  unfold try_catch. unfold bind at 1. unfold bind at 1.
  unfold the_client. unfold bind at 1, gets at 1. rewrite Hc.
  unfold ret at 1. unfold bind at 1, modify at 1.
  destruct (getToken rt c code) as [tokens|]; [|reflexivity].
  unfold ret at 1.
  assert (oauth2Client (this (log_net (GetToken code) s)) = Some c) as Hc' by exact Hc.
  rewrite (bind_Return _ _ _ _ _ (setCredentials_run tokens _ c Hc')).
  unfold bind at 1.
  destruct (saveTokens rt tokens _) as [[] s1|e s1]; reflexivity.
Qed.

(** The request handler after its [await], on a session that has a
    client handle. *)
Lemma on_token_response_exchange rt i f s c0 code c :
  exchanges f !! i = Some (c0, code) ->
  oauth2Client (this s) = Some c ->
  on_token_response rt i f s =
    match getToken rt c0 code with
    | None =>
        Return (resolve Failure (server_close (respond 500
                  (set_exchanges (delete i (exchanges f)) f))))
               (log_console "OAuth callback error:" s)
    | Some tokens =>
        match saveTokens rt tokens
                (set_this (set_client (Some (with_credentials tokens c))) s) with
        | Return _ s1 =>
            Return (resolve Success (server_close (respond 200
                      (set_exchanges (delete i (exchanges f)) f))))
                   (set_this (set_authenticated true) s1)
        | Throw _ s1 =>
            Return (resolve Failure (server_close (respond 500
                      (set_exchanges (delete i (exchanges f)) f))))
                   (log_console "OAuth callback error:" s1)
        end
    end.
Proof.
  intros Hi Hc. unfold on_token_response, callback_failed. rewrite Hi.
  unfold try_catch.
  destruct (getToken rt c0 code) as [tokens|]; [|reflexivity].
  rewrite (bind_Return _ _ _ _ _ (setCredentials_run tokens s c Hc)).
  unfold bind at 1.
  destruct (saveTokens rt tokens _) as [[] s1|e s1]; reflexivity.
Qed.

(** ** Properties of the credential store *)

(** X1.  The credentials file and the token file lie directly in the
    config and the data directory, under the names credentials.json and
    tokens.json, so they are two different paths even where the two
    directories coincide; and on every platform, whatever the environment
    holds, both directories have google-mcp as their last component. *)
Theorem store_paths_layout (h : Host) :
  dirname (CREDENTIALS_PATH h) = getConfigDir h /\
  dirname (TOKEN_PATH h) = getDataDir h /\
  last (CREDENTIALS_PATH h) = Some "credentials.json" /\
  last (TOKEN_PATH h) = Some "tokens.json" /\
  CREDENTIALS_PATH h <> TOKEN_PATH h /\
  last (getConfigDir h) = Some APP_NAME /\
  last (getDataDir h) = Some APP_NAME.
Proof.
  split; [apply dirname_snoc|]. split; [apply dirname_snoc|].
  split; [apply last_path_snoc|]. split; [apply last_path_snoc|].
  split; [apply paths_distinct|].
  split; [apply getConfigDir_last|apply getDataDir_last].
Qed.

(** X2.  ensureDirectoriesExist always returns.  It changes no file and
    no permission of an existing directory; a directory that appears is
    the config directory, the data directory or an ancestor of one of
    them, and has mode 0700.  It leaves the client handle and the
    authenticated flag alone.  With the directories flag set it does
    nothing at all.  When it is the call that sets the flag, each of the
    two paths is a directory afterwards or was a regular file before the
    call, which the existence check does not tell from a directory.  The
    flag is set after the call whenever, for each of the two paths,
    something is at the path or the directory can be created; and when
    the flag was unset and both directories can be created, both are
    directories afterwards. *)
Theorem ensureDirectoriesExist_effects (rt : Runtime) (s : State) :
  exists s',
    ensureDirectoriesExist rt s = Return tt s' /\
    files (disk s') = files (disk s) /\
    locked (disk s') = locked (disk s) /\
    (forall p m, dirs (disk s) !! p = Some m -> dirs (disk s') !! p = Some m) /\
    (forall p m, dirs (disk s') !! p = Some m -> dirs (disk s) !! p = None ->
       m = MODE_DIR /\
       (p ∈ ancestors (getConfigDir (host rt)) \/ p ∈ ancestors (getDataDir (host rt)))) /\
    same_session s s' /\
    (directoriesInitialized (this s) = true -> s' = s) /\
    (directoriesInitialized (this s) = false ->
     directoriesInitialized (this s') = true ->
       (is_Some (dirs (disk s') !! getConfigDir (host rt)) \/
        is_Some (files (disk s) !! getConfigDir (host rt))) /\
       (is_Some (dirs (disk s') !! getDataDir (host rt)) \/
        is_Some (files (disk s) !! getDataDir (host rt)))) /\
    (dir_available (disk s) (getConfigDir (host rt)) ->
     dir_available (disk s) (getDataDir (host rt)) ->
       directoriesInitialized (this s') = true) /\
    (directoriesInitialized (this s) = false ->
     can_create (disk s) (getConfigDir (host rt)) ->
     can_create (disk s) (getDataDir (host rt)) ->
       is_Some (dirs (disk s') !! getConfigDir (host rt)) /\
       is_Some (dirs (disk s') !! getDataDir (host rt))).
Proof.
  destruct (ensureDirectoriesExist_run rt s)
    as (s' & l & He & Hs & _ & (Hf & Hl & Hk & _) & _ & _ & Hflag).
  pose proof (ensureDirectoriesExist_dirs rt s) as (Hnew & Hboth & Hset).
  rewrite He in Hnew, Hboth, Hset. simpl in Hnew, Hboth, Hset.
  exists s'. split; [done|]. split; [done|]. split; [done|]. split; [done|].
  split.
  { intros p m Hp Hnone. destruct (Hnew p m Hp) as [Hold|[Hin ->]]; [congruence|done]. }
  split; [done|]. split; [intros H; by destruct (Hflag H)|].
  split; [done|]. split; [done|].
  intros Hinit Hc Hd.
  destruct (Hboth Hinit (Hset (or_intror Hc) (or_intror Hd))) as [H1 H2].
  destruct (Hc (getConfigDir (host rt))) as [_ Hn1];
    [apply ancestors_self, getConfigDir_nonempty|].
  destruct (Hd (getDataDir (host rt))) as [_ Hn2];
    [apply ancestors_self, getDataDir_nonempty|].
  rewrite Hn1 in H1. rewrite Hn2 in H2.
  split; [destruct H1 as [?|[? ?]]; done|destruct H2 as [?|[? ?]]; done].
Qed.

Lemma loader_calls {A} (parse : string -> Parsed A) envv p msg s :
  exists l,
    fs_calls (final_state (loader parse envv p msg s)) = (fs_calls s ++ l)%list /\
    Forall (reads_path p) l /\ (length l <= 2)%nat /\
    (truthy envv = true -> l = []).
Proof.
  assert (exists l,
    fs_calls (final_state
       (try_catch (read_json_file parse p) (fun _ => console_error msg ;; ret None) s))
      = (fs_calls s ++ l)%list /\
    Forall (reads_path p) l /\ (length l <= 2)%nat) as Hfile.
  { run_m. destruct (exists_on (disk s) p); simpl.
    - exists [ExistsSync p; ReadFileSync p].
      split; [|split; [constructor; [by left|constructor; [by right|constructor]]|simpl; lia]].
      case_bool_decide; simpl; [by rewrite <- app_assoc|].
      destruct (files (disk s) !! p) as [[data mode]|]; simpl; [|by rewrite <- app_assoc].
      destruct (parse data); simpl; by rewrite <- app_assoc.
    - exists [ExistsSync p].
      split; [done|split; [constructor; [by left|constructor]|simpl; lia]]. }
  unfold loader. destruct envv as [text|]; simpl.
  - destruct (negb (String.eqb text "")) eqn:Ht.
    + exists []. rewrite app_nil_r. split; [|split; [constructor|split; [simpl; lia|done]]].
      run_m. by destruct (parse text).
    + destruct Hfile as (l & ? & ? & ?). exists l. done.
  - destruct Hfile as (l & ? & ? & ?). exists l. done.
Qed.

(** X3.  The two loaders always return, never write and never call the
    provider: the session and the disk are as before, and the only file
    system calls are an existence check and at most one read, both on the
    loader's own path (none at all when its environment variable holds a
    non-empty text). *)
Theorem loaders_only_read_their_file (rt : Runtime) (s : State) :
  (exists v s' l,
     loadCredentials rt s = Return v s' /\
     this s' = this s /\ disk s' = disk s /\ net_calls s' = net_calls s /\
     fs_calls s' = (fs_calls s ++ l)%list /\
     Forall (reads_path (CREDENTIALS_PATH (host rt))) l /\ (length l <= 2)%nat /\
     (truthy (getenv (host rt) "GOOGLE_CREDENTIALS_JSON") = true -> l = [])) /\
  (exists v s' l,
     loadTokens rt s = Return v s' /\
     this s' = this s /\ disk s' = disk s /\ net_calls s' = net_calls s /\
     fs_calls s' = (fs_calls s ++ l)%list /\
     Forall (reads_path (TOKEN_PATH (host rt))) l /\ (length l <= 2)%nat /\
     (truthy (getenv (host rt) "GOOGLE_TOKENS_JSON") = true -> l = [])).
Proof.
  split.
  - destruct (loadCredentials_run rt s) as (s' & Hrun & Ht & Hd & Hn & _).
    destruct (loader_calls (parseCredentialsFile rt)
                (getenv (host rt) "GOOGLE_CREDENTIALS_JSON") (CREDENTIALS_PATH (host rt))
                "Error loading credentials:" s) as (l & Hc & Hl & Hlen & Henv).
    change (loader _ _ _ _ s) with (loadCredentials rt s) in Hc.
    rewrite Hrun in Hc. simpl in Hc.
    eexists _, s', l. done.
  - destruct (loadTokens_run rt s) as (s' & Hrun & Ht & Hd & Hn & _).
    destruct (loader_calls (parseTokens rt)
                (getenv (host rt) "GOOGLE_TOKENS_JSON") (TOKEN_PATH (host rt))
                "Error loading tokens:" s) as (l & Hc & Hl & Hlen & Henv).
    change (loader _ _ _ _ s) with (loadTokens rt s) in Hc.
    rewrite Hrun in Hc. simpl in Hc.
    eexists _, s', l. done.
Qed.

(** X4.  When saveTokens throws, the environment variable is missing or
    empty and the error is a file system error on the token path, raised
    by the write of the token file, which is the last file system call.
    The damage is confined to that file: every other file is as it was,
    every directory is still there, no provider call has been made, and
    the client handle and the authenticated flag are as they were.  What
    is left of the token file itself is not stated. *)
Theorem saveTokens_failure_confined
    (rt : Runtime) (tokens : Credentials) (s s' : State) (e : Error) :
  saveTokens rt tokens s = Throw e s' ->
  env_blank (host rt) "GOOGLE_TOKENS_JSON" /\
  (exists code, e = FsError code (TOKEN_PATH (host rt))) /\
  (forall p, p <> TOKEN_PATH (host rt) -> files (disk s') !! p = files (disk s) !! p) /\
  (forall p m, dirs (disk s) !! p = Some m -> dirs (disk s') !! p = Some m) /\
  same_session s s' /\ net_calls s' = net_calls s /\
  last (fs_calls s') =
    Some (WriteFileSync (TOKEN_PATH (host rt)) (stringifyTokens rt tokens) MODE_FILE).
Proof.
  intros Hthrow.
  destruct (env_holds_or_blank (host rt) "GOOGLE_TOKENS_JSON") as [[v Hv]|Hb].
  { by rewrite (saveTokens_env _ _ _ _ Hv) in Hthrow. }
  split; [done|].
  destruct (saveTokens_run rt tokens s Hb)
    as (s1 & l & _ & Hs & Hn & (Hf & _ & Hk & _) & _ & _ & _ & Hsave).
  rewrite Hsave in Hthrow. revert Hthrow. run_m.
  assert (forall p, p <> TOKEN_PATH (host rt) ->
            files (disk s1) !! p = files (disk s) !! p) as Hother.
  { intros p _. by rewrite Hf. }
  case_bool_decide; simpl.
  { intros [= <- <-]. simpl. rewrite last_snoc. eauto 8. }
  case_bool_decide; simpl.
  { intros [= <- <-]. simpl. rewrite last_snoc. eauto 8. }
  case_bool_decide; simpl; [done|].
  intros [= <- <-]. simpl. rewrite last_snoc. eauto 8.
Qed.

(** X4 at a concrete input: the directories flag is set but the data
    directory has been removed. *)
Lemma saveTokens_failure_confined_witness :
  env_blank (host test_runtime) "GOOGLE_TOKENS_JSON" /\
  (exists code, FsError "ENOENT" demo_token_path = FsError code (TOKEN_PATH (host test_runtime))) /\
  (forall p, p <> TOKEN_PATH (host test_runtime) ->
     files (disk (final_state (saveTokens test_runtime tokens_valid data_dir_removed))) !! p =
     files (disk data_dir_removed) !! p) /\
  (forall p m, dirs (disk data_dir_removed) !! p = Some m ->
     dirs (disk (final_state (saveTokens test_runtime tokens_valid data_dir_removed))) !! p =
     Some m) /\
  same_session data_dir_removed
    (final_state (saveTokens test_runtime tokens_valid data_dir_removed)) /\
  net_calls (final_state (saveTokens test_runtime tokens_valid data_dir_removed)) =
    net_calls data_dir_removed /\
  last (fs_calls (final_state (saveTokens test_runtime tokens_valid data_dir_removed))) =
    Some (WriteFileSync (TOKEN_PATH (host test_runtime))
            (stringifyTokens test_runtime tokens_valid) MODE_FILE).
Proof.
  apply (saveTokens_failure_confined test_runtime tokens_valid data_dir_removed).
  by_vm.
Defined.

(** X5.  Of the operations of the module only saveTokens and logout can
    end in an exception: the constructor, ensureDirectoriesExist, the two
    loaders, initialize, initializeWithAuth, authenticate up to its
    pending promise, setAuthCode, the accessors and every handler of a
    pending flow return in every state. *)
Theorem operations_that_never_throw (rt : Runtime) :
  never_throws (new_GoogleOAuth rt) /\
  never_throws (ensureDirectoriesExist rt) /\
  never_throws (loadCredentials rt) /\
  never_throws (loadTokens rt) /\
  never_throws (initialize rt) /\
  never_throws (initializeWithAuth rt) /\
  never_throws (authenticate rt) /\
  (forall code, never_throws (setAuthCode rt code)) /\
  never_throws getClient /\ never_throws isReady /\ never_throws (getAuthUrl rt) /\
  (forall es f, never_throws (run rt es f)).
Proof.
  assert (never_throws (ensureDirectoriesExist rt)) as Hens.
  { intros s. destruct (ensureDirectoriesExist_run rt s) as (s' & l & -> & _). done. }
  split.
  { unfold new_GoogleOAuth. apply never_throws_bind; [apply never_throws_modify|done]. }
  split; [done|].
  split.
  { intros s. destruct (loadCredentials_run rt s) as (s' & -> & _). done. }
  split.
  { intros s. destruct (loadTokens_run rt s) as (s' & -> & _). done. }
  split; [apply never_throws_initialize|].
  split; [apply never_throws_initializeWithAuth|].
  split; [apply never_throws_authenticate|].
  split; [apply never_throws_setAuthCode|].
  destruct (never_throws_accessors rt) as (Hclient & Hready & Hurl).
  do 3 (split; [done|]).
  intros es f s. destruct (run_returns rt es f s) as (f' & s' & ->). done.
Qed.

(** ** Properties of [logout] *)

Lemma stored_text_remove_file envv p q d :
  p <> q -> stored_text envv p (remove_file q d) = stored_text envv p d.
Proof.
  intros Hne. unfold stored_text, exists_on, remove_file. simpl.
  by rewrite lookup_delete_ne.
Qed.

Lemma client_of_remove_token rt d :
  client_of rt (remove_file (TOKEN_PATH (host rt)) d) = client_of rt d.
Proof.
  unfold client_of, stored_credentials, stored_json.
  rewrite stored_text_remove_file; [done|apply paths_distinct].
Qed.

Lemma stored_tokens_removed rt d :
  env_blank (host rt) "GOOGLE_TOKENS_JSON" ->
  dirs d !! TOKEN_PATH (host rt) = None ->
  stored_tokens rt (remove_file (TOKEN_PATH (host rt)) d) = None.
Proof.
  intros Hb Hd. unfold stored_tokens, stored_json, stored_text.
  rewrite (truthy_blank _ _ Hb). unfold exists_on, remove_file. simpl.
  rewrite lookup_delete_eq, Hd.
  rewrite !bool_decide_false by (by intros [? ?]). done.
Qed.

Lemma stored_tokens_env rt d text tokens :
  env_holds (host rt) "GOOGLE_TOKENS_JSON" text ->
  parseTokens rt text = ParsedValue tokens ->
  stored_tokens rt d = Some tokens.
Proof.
  intros [Hv Hne] Hp. unfold stored_tokens, stored_json, stored_text.
  rewrite Hv. simpl. apply String.eqb_neq in Hne. rewrite Hne. simpl. by rewrite Hp.
Qed.



(** X7.  Logging out of a file-backed session sticks: with
    GOOGLE_TOKENS_JSON missing or empty, after a logout that returns,
    loadTokens finds nothing and initialize returns false with isReady
    false. *)
Theorem logout_then_initialize_is_unauthenticated (rt : Runtime) (s : State) :
  env_blank (host rt) "GOOGLE_TOKENS_JSON" ->
  TOKEN_PATH (host rt) ∉ locked (disk s) ->
  dirs (disk s) !! TOKEN_PATH (host rt) = None ->
  exists s1 s2 s3,
    logout rt s = Return tt s1 /\
    loadTokens rt s1 = Return None s2 /\
    initialize rt s1 = Return false s3 /\
    is_ready (this s3) = false.
Proof.
  intros Hb Hl Hd.
  destruct (logout_run rt s Hl Hd) as (s1 & Hrun & Hdisk & Hthis & _).
  pose proof (stored_tokens_removed rt (disk s) Hb Hd) as Hnone.
  rewrite <- Hdisk in Hnone.
  destruct (loadTokens_run rt s1) as (s2 & Hload & _).
  destruct (initialize_run rt s1) as (b & s3 & Hinit & Hout).
  exists s1, s2, s3. split; [done|]. split; [by rewrite Hload, Hnone|].
  unfold initialize_outcome in Hout. rewrite Hnone in Hout.
  assert (isAuthenticated (this s1) = false) as Ha.
  { rewrite Hthis. apply logged_out_fields. }
  unfold is_ready.
  destruct (client_of rt (disk s1)) as [c0|].
  - destruct Hout as (-> & -> & _). split; [done|]. simpl. by rewrite Ha.
  - destruct Hout as (-> & -> & _). split; [done|]. by rewrite Ha.
Qed.

(** X7 at a concrete input: the authenticated session of the Linux
    scenario. *)
Lemma logout_then_initialize_is_unauthenticated_witness :
  exists s1 s2 s3,
    logout test_runtime authenticated_session = Return tt s1 /\
    loadTokens test_runtime s1 = Return None s2 /\
    initialize test_runtime s1 = Return false s3 /\
    is_ready (this s3) = false.
Proof.
  apply (logout_then_initialize_is_unauthenticated test_runtime authenticated_session).
  - by left.
  - apply not_elem_of_empty.
  - by_vm.
Defined.

(** X8.  Logging out does not stick when the tokens come from the
    environment: with GOOGLE_TOKENS_JSON holding a token set that needs no
    refresh and usable client credentials, logout returns with isReady
    false, and the next initialize binds the same token set again and
    returns true. *)
Theorem env_tokens_survive_logout
    (rt : Runtime) (s s0 : State) (file : CredentialsFile) (id secret text : string)
    (tokens : Credentials) :
  TOKEN_PATH (host rt) ∉ locked (disk s) ->
  dirs (disk s) !! TOKEN_PATH (host rt) = None ->
  loadCredentials rt s = Return (Some file) s0 ->
  client_keys (client_block file) = Some (id, secret) ->
  env_holds (host rt) "GOOGLE_TOKENS_JSON" text ->
  parseTokens rt text = ParsedValue tokens ->
  needs_refresh rt tokens = false ->
  exists s1 s2,
    logout rt s = Return tt s1 /\ is_ready (this s1) = false /\
    initialize rt s1 = Return true s2 /\ is_ready (this s2) = true /\
    bound_tokens (this s2) = Some tokens.
Proof.
  intros Hl Hd Hload Hk Henv Hparse Hfresh.
  destruct (logout_run rt s Hl Hd) as (s1 & Hrun & Hdisk & Hthis & _).
  pose proof (client_of_loaded _ _ _ _ _ _ Hload Hk) as Hc.
  rewrite <- (client_of_remove_token rt (disk s)), <- Hdisk in Hc.
  destruct (initialize_no_refresh rt s1 _ tokens Hc
              (stored_tokens_env rt (disk s1) text tokens Henv Hparse) Hfresh)
    as (s2 & Hinit & _ & _ & Hthis2).
  exists s1, s2. split; [done|].
  split; [unfold is_ready; rewrite Hthis; by rewrite (proj1 (proj2 (logged_out_fields _)))|].
  split; [done|]. unfold is_ready, bound_tokens. by rewrite Hthis2.
Qed.

(** X8 at a concrete input: the environment holds a token set that is
    valid until 5000, the clock reads 2000. *)
Lemma env_tokens_survive_logout_witness :
  exists s1 s2,
    logout env_tokens_runtime authenticated_session = Return tt s1 /\
    is_ready (this s1) = false /\
    initialize env_tokens_runtime s1 = Return true s2 /\ is_ready (this s2) = true /\
    bound_tokens (this s2) = Some tokens_valid.
Proof.
  refine (env_tokens_survive_logout env_tokens_runtime authenticated_session
            (final_state (loadCredentials env_tokens_runtime authenticated_session))
            demo_credentials "id" "secret" (demo_stringify tokens_valid) tokens_valid
            _ _ _ _ _ _ _).
  - apply not_elem_of_empty.
  - by_vm.
  - by_vm.
  - by_vm.
  - split; [by_vm|]. vm_compute. discriminate.
  - by_vm.
  - by_vm.
Defined.

(** ** Properties of [initialize] *)

Lemma client_keys_None b :
  client_keys b = None <->
  truthy (client_id b) = false \/ truthy (client_secret b) = false.
Proof.
  unfold client_keys.
  destruct (client_id b) as [id|], (client_secret b) as [secret|]; simpl.
  - destruct (negb (String.eqb id "")), (negb (String.eqb secret "")); simpl;
      split; try done; auto; by intros [|].
  - split; auto.
  - split; auto.
  - split; auto.
Qed.

(** [initialize] when [loadCredentials] brings nothing usable. *)
Lemma initialize_unusable rt s v s1 :
  loadCredentials rt s = Return v s1 ->
  v = None \/ (exists file, v = Some file /\ client_keys (client_block file) = None) ->
  exists s',
    initialize rt s = Return false s' /\
    this s' = this s /\ disk s' = disk s /\ net_calls s' = net_calls s /\
    fs_calls s' = fs_calls s1.
Proof.
  intros Hload Hv.
  destruct (loadCredentials_run rt s) as (s1' & Hrun & Ht & Hd & Hn & _).
  rewrite Hload in Hrun. injection Hrun as _ <-.
  unfold initialize. rewrite (bind_Return _ _ _ _ _ Hload).
  destruct Hv as [->|(file & -> & Hk)].
  - eexists. split; [reflexivity|]. simpl. by rewrite Ht, Hd, Hn.
  - rewrite Hk. eexists. split; [reflexivity|]. simpl. by rewrite Ht, Hd, Hn.
Qed.

(** X9.  When loadCredentials returns nothing, or a file whose client
    block lacks a non-empty client_id or client_secret, initialize returns
    false and leaves the session as it was: no handle is created, the
    token store is not consulted, the disk is unchanged and the provider
    is not called. *)
Theorem initialize_without_usable_credentials
    (rt : Runtime) (s s1 : State) (v : option CredentialsFile) :
  loadCredentials rt s = Return v s1 ->
  (v = None \/
   exists file, v = Some file /\
     (truthy (client_id (client_block file)) = false \/
      truthy (client_secret (client_block file)) = false)) ->
  exists s',
    initialize rt s = Return false s' /\
    this s' = this s /\ disk s' = disk s /\ net_calls s' = net_calls s /\
    fs_calls s' = fs_calls s1.
Proof.
  intros Hload Hv. apply (initialize_unusable rt s v s1 Hload).
  destruct Hv as [->|(file & -> & Hk)]; [by left|right].
  exists file. split; [done|]. by apply client_keys_None.
Qed.

(** X9 at a concrete input: the credentials file has an installed block
    without fields. *)
Lemma initialize_without_usable_credentials_witness :
  exists s',
    initialize test_runtime
      (before_constructor (credentials_only empty_block_credentials_text) demo_dirs ∅)
      = Return false s' /\
    this s' =
      this (before_constructor (credentials_only empty_block_credentials_text) demo_dirs ∅) /\
    disk s' =
      disk (before_constructor (credentials_only empty_block_credentials_text) demo_dirs ∅) /\
    net_calls s' =
      net_calls (before_constructor (credentials_only empty_block_credentials_text) demo_dirs ∅) /\
    fs_calls s' =
      fs_calls (final_state (loadCredentials test_runtime
        (before_constructor (credentials_only empty_block_credentials_text) demo_dirs ∅))).
Proof.
  refine (initialize_without_usable_credentials test_runtime
            (before_constructor (credentials_only empty_block_credentials_text) demo_dirs ∅)
            _ (Some empty_block_credentials) _ _).
  - by_vm.
  - right. exists empty_block_credentials. split; [done|]. by left.
Defined.

Lemma needs_refresh_unexpired rt tokens :
  expiry_date tokens = None \/ (exists e, expiry_date tokens = Some (Finite e) /\ now rt <= e) ->
  needs_refresh rt tokens = false.
Proof.
  unfold needs_refresh. intros [->|(e & -> & He)]; [done|].
  apply andb_false_iff. right. by apply Z.ltb_ge.
Qed.

(** X10.  When the stored token set has no expiry date, or one that is
    not before now (now itself included), initialize binds it to a new
    handle built from the client credentials and the first redirect URI,
    sets the authenticated flag and returns true, without a provider call
    and without touching the disk. *)
Theorem initialize_binds_unexpired_tokens
    (rt : Runtime) (s s1 s2 : State) (file : CredentialsFile) (id secret : string)
    (tokens : Credentials) :
  loadCredentials rt s = Return (Some file) s1 ->
  client_keys (client_block file) = Some (id, secret) ->
  loadTokens rt s = Return (Some tokens) s2 ->
  (expiry_date tokens = None \/ exists e, expiry_date tokens = Some (Finite e) /\ now rt <= e) ->
  exists s',
    initialize rt s = Return true s' /\
    is_ready (this s') = true /\
    oauth2Client (this s') =
      Some (with_credentials tokens
              (new_OAuth2 id secret (first_redirect (client_block file)))) /\
    disk s' = disk s /\ net_calls s' = net_calls s.
Proof.
  intros Hl Hk Ht He.
  destruct (initialize_no_refresh rt s _ tokens
              (client_of_loaded _ _ _ _ _ _ Hl Hk) (loadTokens_value _ _ _ _ Ht)
              (needs_refresh_unexpired rt tokens He)) as (s' & Hrun & Hd & Hn & Hthis).
  exists s'. split; [done|]. unfold is_ready. by rewrite Hthis.
Qed.

(** X10 at a concrete input: the token file holds a token set that
    expires at 5000, the clock reads 2000. *)
Lemma initialize_binds_unexpired_tokens_witness :
  exists s',
    initialize test_runtime (booted (demo_disk (Some tokens_valid) ∅)) = Return true s' /\
    is_ready (this s') = true /\
    oauth2Client (this s') =
      Some (with_credentials tokens_valid
              (new_OAuth2 "id" "secret" (first_redirect (client_block demo_credentials)))) /\
    disk s' = disk (booted (demo_disk (Some tokens_valid) ∅)) /\
    net_calls s' = net_calls (booted (demo_disk (Some tokens_valid) ∅)).
Proof.
  refine (initialize_binds_unexpired_tokens test_runtime
            (booted (demo_disk (Some tokens_valid) ∅))
            (final_state (loadCredentials test_runtime (booted (demo_disk (Some tokens_valid) ∅))))
            (final_state (loadTokens test_runtime (booted (demo_disk (Some tokens_valid) ∅))))
            demo_credentials "id" "secret" tokens_valid _ _ _ _).
  - by_vm.
  - by_vm.
  - by_vm.
  - right. exists 5000. split; [reflexivity|]. simpl. lia.
Defined.

(** X11.  When the stored token set has expired, the refresh is accepted
    and saveTokens has somewhere to put the result (or is switched off by
    GOOGLE_TOKENS_JSON), initialize makes the one refresh call, binds the
    new token set to the handle and returns true with isReady true.  With
    the variable missing or empty the token file then holds the
    serialization of the new token set; with the variable set the disk is
    unchanged, so the new token set lives in memory only. *)
Theorem initialize_persists_refreshed_tokens
    (rt : Runtime) (s s1 s2 : State) (file : CredentialsFile) (id secret : string)
    (tokens newTokens : Credentials) (e : Z) :
  loadCredentials rt s = Return (Some file) s1 ->
  client_keys (client_block file) = Some (id, secret) ->
  loadTokens rt s = Return (Some tokens) s2 ->
  expiry_date tokens = Some (Finite e) -> e <> 0 -> e < now rt ->
  refreshAccessToken rt
    (with_credentials tokens
       (new_OAuth2 id secret (first_redirect (client_block file)))) = Some newTokens ->
  can_save rt (disk s) ->
  exists s',
    initialize rt s = Return true s' /\
    is_ready (this s') = true /\
    bound_tokens (this s') = Some newTokens /\
    net_calls s' = (net_calls s ++ [RefreshAccessToken])%list /\
    ((exists v, env_holds (host rt) "GOOGLE_TOKENS_JSON" v) -> disk s' = disk s) /\
    (env_blank (host rt) "GOOGLE_TOKENS_JSON" ->
       exists m, files (disk s') !! TOKEN_PATH (host rt) =
                   Some (stringifyTokens rt newTokens, m)).
Proof.
  intros Hl Hk Ht He Hz Hlt Hr Hcan.
  destruct (initialize_refresh_run rt s _ tokens newTokens
              (client_of_loaded _ _ _ _ _ _ Hl Hk) (loadTokens_value _ _ _ _ Ht)
              (needs_refresh_past rt tokens e He Hz Hlt) Hr)
    as (s4 & Hd4 & Ht4 & Hn4 & Hinit).
  rewrite <- Hd4 in Hcan.
  destruct (saveTokens_can_save rt newTokens s4 Hcan)
    as (s5 & Hsave & _ & Hn5 & Henv & Hfile).
  rewrite Hsave in Hinit.
  eexists. split; [exact Hinit|]. simpl.
  split; [done|]. split; [done|]. split; [by rewrite Hn5, Hn4|]. split.
  - intros Hv. by rewrite (Henv Hv).
  - intros Hb. destruct (Hfile Hb) as (s0 & _ & ->). simpl.
    destruct (files (disk s0) !! TOKEN_PATH (host rt)) as [[data0 m0]|];
      eexists; apply lookup_insert_eq.
Qed.

(** X11 at a concrete input: the token file holds a token set that
    expired at 1000, the clock reads 2000 and the provider renews it. *)
Lemma initialize_persists_refreshed_tokens_witness :
  exists s',
    initialize renewing_runtime (booted (demo_disk (Some tokens_expired) ∅)) = Return true s' /\
    is_ready (this s') = true /\
    bound_tokens (this s') = Some tokens_new /\
    net_calls s' =
      (net_calls (booted (demo_disk (Some tokens_expired) ∅)) ++ [RefreshAccessToken])%list /\
    ((exists v, env_holds (host renewing_runtime) "GOOGLE_TOKENS_JSON" v) ->
       disk s' = disk (booted (demo_disk (Some tokens_expired) ∅))) /\
    (env_blank (host renewing_runtime) "GOOGLE_TOKENS_JSON" ->
       exists m, files (disk s') !! TOKEN_PATH (host renewing_runtime) =
                   Some (stringifyTokens renewing_runtime tokens_new, m)).
Proof.
  refine (initialize_persists_refreshed_tokens renewing_runtime
            (booted (demo_disk (Some tokens_expired) ∅))
            (final_state (loadCredentials renewing_runtime
                            (booted (demo_disk (Some tokens_expired) ∅))))
            (final_state (loadTokens renewing_runtime
                            (booted (demo_disk (Some tokens_expired) ∅))))
            demo_credentials "id" "secret" tokens_expired tokens_new 1000
            _ _ _ _ _ _ _ _).
  - by_vm.
  - by_vm.
  - by_vm.
  - reflexivity.
  - lia.
  - simpl. lia.
  - reflexivity.
  - right. split; [exists 448; by_vm|]. split; [apply not_elem_of_empty|by_vm].
Defined.

(** X12.  With usable client credentials and no stored token set,
    initialize returns false but creates the client handle, with the first
    redirect URI of the credentials (the default when there is none), so
    that getAuthUrl answers from then on.  The authenticated flag is not
    cleared on this path: it is what it was before the call. *)
Theorem initialize_without_tokens_builds_handle
    (rt : Runtime) (s s1 s2 : State) (file : CredentialsFile) (id secret : string) :
  loadCredentials rt s = Return (Some file) s1 ->
  client_keys (client_block file) = Some (id, secret) ->
  loadTokens rt s = Return None s2 ->
  exists s',
    initialize rt s = Return false s' /\
    oauth2Client (this s') =
      Some (new_OAuth2 id secret (first_redirect (client_block file))) /\
    isAuthenticated (this s') = isAuthenticated (this s) /\
    disk s' = disk s /\ net_calls s' = net_calls s /\
    getAuthUrl rt s' =
      Return (Some (generateAuthUrl rt
                (new_OAuth2 id secret (first_redirect (client_block file))))) s' /\
    (redirect_uris (client_block file) = [] ->
       first_redirect (client_block file) = DEFAULT_REDIRECT).
Proof.
  intros Hl Hk Ht.
  destruct (initialize_run rt s) as (b & s' & Hrun & Hout).
  unfold initialize_outcome in Hout.
  rewrite (client_of_loaded _ _ _ _ _ _ Hl Hk), (loadTokens_value _ _ _ _ Ht) in Hout.
  destruct Hout as (-> & Hthis & Hd & Hn).
  exists s'. split; [done|]. rewrite Hthis. simpl.
  do 4 (split; [done|]). split.
  - unfold getAuthUrl. run_m. by rewrite Hthis.
  - unfold first_redirect. by intros ->.
Qed.

(** X12 at a concrete input: credentials on disk, no token file. *)
Lemma initialize_without_tokens_builds_handle_witness :
  exists s',
    initialize test_runtime (booted (demo_disk None ∅)) = Return false s' /\
    oauth2Client (this s') =
      Some (new_OAuth2 "id" "secret" (first_redirect (client_block demo_credentials))) /\
    isAuthenticated (this s') = isAuthenticated (this (booted (demo_disk None ∅))) /\
    disk s' = disk (booted (demo_disk None ∅)) /\
    net_calls s' = net_calls (booted (demo_disk None ∅)) /\
    getAuthUrl test_runtime s' =
      Return (Some (generateAuthUrl test_runtime
                (new_OAuth2 "id" "secret" (first_redirect (client_block demo_credentials))))) s' /\
    (redirect_uris (client_block demo_credentials) = [] ->
       first_redirect (client_block demo_credentials) = DEFAULT_REDIRECT).
Proof.
  refine (initialize_without_tokens_builds_handle test_runtime (booted (demo_disk None ∅))
            (final_state (loadCredentials test_runtime (booted (demo_disk None ∅))))
            (final_state (loadTokens test_runtime (booted (demo_disk None ∅))))
            demo_credentials "id" "secret" _ _ _).
  - by_vm.
  - by_vm.
  - by_vm.
Defined.

(** ** Properties of [setAuthCode] *)

(** X13.  On a session that has a client handle, when the provider
    accepts the code and saveTokens has somewhere to put the result (or is
    switched off by GOOGLE_TOKENS_JSON), setAuthCode makes the one
    exchange call, binds the token set to the handle, sets the
    authenticated flag and returns true; with the variable missing or
    empty the token file then holds the serialization of the token set. *)
Theorem setAuthCode_accepted_code
    (rt : Runtime) (s : State) (c : OAuth2Client) (code : string) (tokens : Credentials) :
  oauth2Client (this s) = Some c ->
  getToken rt c code = Some tokens ->
  can_save rt (disk s) ->
  exists s',
    setAuthCode rt code s = Return true s' /\
    is_ready (this s') = true /\
    oauth2Client (this s') = Some (with_credentials tokens c) /\
    net_calls s' = (net_calls s ++ [GetToken code])%list /\
    ((exists v, env_holds (host rt) "GOOGLE_TOKENS_JSON" v) -> disk s' = disk s) /\
    (env_blank (host rt) "GOOGLE_TOKENS_JSON" ->
       exists m, files (disk s') !! TOKEN_PATH (host rt) =
                   Some (stringifyTokens rt tokens, m)).
Proof.
  intros Hc Hg Hcan.
  rewrite (setAuthCode_run rt code s c Hc), Hg.
  destruct (saveTokens_can_save rt tokens
              (set_this (set_client (Some (with_credentials tokens c)))
                 (log_net (GetToken code) s)) Hcan)
    as (s1 & Hsave & [Hcl _] & Hn & Henv & Hfile).
  rewrite Hsave. eexists. split; [reflexivity|]. simpl in *.
  unfold is_ready. simpl. rewrite Hcl. simpl.
  split; [done|]. split; [done|]. split; [done|]. split.
  - intros Hv. by rewrite (Henv Hv).
  - intros Hb. destruct (Hfile Hb) as (s0 & _ & ->). simpl.
    destruct (files (disk s0) !! TOKEN_PATH (host rt)) as [[data0 m0]|];
      eexists; apply lookup_insert_eq.
Qed.

(** X13 at a concrete input: the provider of the scenarios accepts
    good-code. *)
Lemma setAuthCode_accepted_code_witness :
  exists s',
    setAuthCode test_runtime "good-code" (awaiting_code ∅) = Return true s' /\
    is_ready (this s') = true /\
    oauth2Client (this s') =
      Some (with_credentials tokens_valid (new_OAuth2 "id" "secret" "http://localhost")) /\
    net_calls s' = (net_calls (awaiting_code ∅) ++ [GetToken "good-code"])%list /\
    ((exists v, env_holds (host test_runtime) "GOOGLE_TOKENS_JSON" v) ->
       disk s' = disk (awaiting_code ∅)) /\
    (env_blank (host test_runtime) "GOOGLE_TOKENS_JSON" ->
       exists m, files (disk s') !! TOKEN_PATH (host test_runtime) =
                   Some (stringifyTokens test_runtime tokens_valid, m)).
Proof.
  apply (setAuthCode_accepted_code test_runtime (awaiting_code ∅)
           (new_OAuth2 "id" "secret" "http://localhost") "good-code" tokens_valid).
  - reflexivity.
  - reflexivity.
  - right. split; [exists 448; by_vm|]. split; [apply not_elem_of_empty|by_vm].
Defined.

(** X14.  When the provider rejects the code, setAuthCode returns false
    after the one exchange call: the session, with its handle and its
    authenticated flag, and the disk are as they were. *)
Theorem setAuthCode_rejected_code
    (rt : Runtime) (s : State) (c : OAuth2Client) (code : string) :
  oauth2Client (this s) = Some c ->
  getToken rt c code = None ->
  exists s',
    setAuthCode rt code s = Return false s' /\
    this s' = this s /\ disk s' = disk s /\ fs_calls s' = fs_calls s /\
    net_calls s' = (net_calls s ++ [GetToken code])%list.
Proof.
  intros Hc Hg. rewrite (setAuthCode_run rt code s c Hc), Hg.
  by eexists.
Qed.

(** X14 at a concrete input: the provider of the scenarios rejects
    bad-code. *)
Lemma setAuthCode_rejected_code_witness :
  exists s',
    setAuthCode test_runtime "bad-code" (awaiting_code ∅) = Return false s' /\
    this s' = this (awaiting_code ∅) /\ disk s' = disk (awaiting_code ∅) /\
    fs_calls s' = fs_calls (awaiting_code ∅) /\
    net_calls s' = (net_calls (awaiting_code ∅) ++ [GetToken "bad-code"])%list.
Proof.
  apply (setAuthCode_rejected_code test_runtime (awaiting_code ∅)
           (new_OAuth2 "id" "secret" "http://localhost") "bad-code").
  - reflexivity.
  - reflexivity.
Defined.

(** X15.  When the provider accepts the code but the write of the token
    file is refused, setAuthCode returns false and the authenticated flag
    is what it was; yet the new token set is already bound to the client
    handle, since the binding comes before the save.  No file has
    changed. *)
Theorem setAuthCode_refused_write_keeps_binding
    (rt : Runtime) (s : State) (c : OAuth2Client) (code : string) (tokens : Credentials) :
  oauth2Client (this s) = Some c ->
  getToken rt c code = Some tokens ->
  env_blank (host rt) "GOOGLE_TOKENS_JSON" ->
  TOKEN_PATH (host rt) ∈ locked (disk s) ->
  exists s',
    setAuthCode rt code s = Return false s' /\
    isAuthenticated (this s') = isAuthenticated (this s) /\
    oauth2Client (this s') = Some (with_credentials tokens c) /\
    files (disk s') = files (disk s).
Proof.
  intros Hc Hg Hb Hl.
  rewrite (setAuthCode_run rt code s c Hc), Hg.
  destruct (saveTokens_locked rt tokens
              (set_this (set_client (Some (with_credentials tokens c)))
                 (log_net (GetToken code) s)) Hb Hl)
    as (s1 & Hsave & [Hcl Ha] & _ & Hf).
  rewrite Hsave. eexists. split; [reflexivity|]. simpl in *. done.
Qed.

(** X15 at a concrete input: the token path is refused by the system. *)
Lemma setAuthCode_refused_write_keeps_binding_witness :
  exists s',
    setAuthCode test_runtime "good-code" (awaiting_code {[ demo_token_path ]})
      = Return false s' /\
    isAuthenticated (this s') = isAuthenticated (this (awaiting_code {[ demo_token_path ]})) /\
    oauth2Client (this s') =
      Some (with_credentials tokens_valid (new_OAuth2 "id" "secret" "http://localhost")) /\
    files (disk s') = files (disk (awaiting_code {[ demo_token_path ]})).
Proof.
  apply (setAuthCode_refused_write_keeps_binding test_runtime
           (awaiting_code {[ demo_token_path ]})
           (new_OAuth2 "id" "secret" "http://localhost") "good-code" tokens_valid).
  - reflexivity.
  - reflexivity.
  - by left.
  - vm_compute. reflexivity.
Defined.

(** X16.  On a session without a client handle setAuthCode runs
    initialize first; when that finds no usable client credentials,
    setAuthCode returns false without calling the provider, and the
    session and the disk are as they were. *)
Theorem setAuthCode_without_credentials
    (rt : Runtime) (s s1 : State) (v : option CredentialsFile) (code : string) :
  oauth2Client (this s) = None ->
  loadCredentials rt s = Return v s1 ->
  (v = None \/
   exists file, v = Some file /\
     (truthy (client_id (client_block file)) = false \/
      truthy (client_secret (client_block file)) = false)) ->
  exists s',
    setAuthCode rt code s = Return false s' /\
    this s' = this s /\ disk s' = disk s /\ net_calls s' = net_calls s.
Proof.
  intros Hc Hload Hv.
  destruct (initialize_unusable rt s v s1 Hload) as (s' & Hinit & Hthis & Hd & Hn & _).
  { destruct Hv as [->|(file & -> & Hk)]; [by left|right].
    exists file. split; [done|]. by apply client_keys_None. }
  exists s'. split; [|done].
  unfold setAuthCode. unfold bind at 1, gets at 1. rewrite Hc.
  rewrite bool_decide_true by done.
  unfold bind at 1. unfold bind at 1. rewrite Hinit.
  unfold ret at 1. unfold bind at 1, gets at 1. rewrite Hthis, Hc. done.
Qed.

(** X16 at a concrete input: no credentials file and no environment
    variable. *)
Lemma setAuthCode_without_credentials_witness :
  exists s',
    setAuthCode test_runtime "good-code" (before_constructor ∅ demo_dirs ∅) = Return false s' /\
    this s' = this (before_constructor ∅ demo_dirs ∅) /\
    disk s' = disk (before_constructor ∅ demo_dirs ∅) /\
    net_calls s' = net_calls (before_constructor ∅ demo_dirs ∅).
Proof.
  refine (setAuthCode_without_credentials test_runtime (before_constructor ∅ demo_dirs ∅)
            (final_state (loadCredentials test_runtime (before_constructor ∅ demo_dirs ∅)))
            None "good-code" _ _ _).
  - reflexivity.
  - by_vm.
  - by left.
Defined.

(** ** Properties of [authenticate] and [initializeWithAuth] *)

Lemma findAvailablePort_default_spec probe :
  match findAvailablePort_default probe with
  | PortFound p =>
      PORT_RANGE_START <= p <= PORT_RANGE_END /\ probe p = true /\
      (forall q, PORT_RANGE_START <= q < p -> probe q = false)
  | NoPortAvailable _ _ =>
      forall q, PORT_RANGE_START <= q <= PORT_RANGE_END -> probe q = false
  | BadPort _ => False
  end.
Proof.
  unfold findAvailablePort_default, findAvailablePort.
  pose proof (scanPorts_spec probe PORT_RANGE_START PORT_RANGE_END) as H.
  pose proof (scanPorts_in_range probe PORT_RANGE_START PORT_RANGE_END) as Hin.
  destruct (snd (scanPorts probe PORT_RANGE_START PORT_RANGE_END)) as [p| |p].
  - destruct H as (? & _ & ? & Hlt & _). split; [done|]. split; [done|].
    intros q Hq. by apply Hlt.
  - destruct H as [Hall _]. intros q Hq. by apply Hall.
  - apply (Hin ltac:(unfold PORT_RANGE_START; lia) ltac:(unfold PORT_RANGE_END; lia) p).
    reflexivity.
Qed.

Lemma authenticate_flow_spec rt s c :
  oauth2Client (this s) = Some c ->
  exists r s',
    authenticate_flow rt s = Return r s' /\
    disk s' = disk s /\ net_calls s' = net_calls s /\
    authenticate_outcome rt s c r s'.
Proof.
  intros Hc. unfold authenticate_flow, authenticate_outcome.
  unfold bind at 1, gets at 1.
  destruct (isAuthenticated (this s)) eqn:Ha.
  { eexists _, _. split; [reflexivity|]. do 4 (split; [done|]). split; done. }
  unfold bind at 1, try_catch at 1.
  pose proof (findAvailablePort_default_spec (isPortAvailable rt)) as Hport.
  destruct (findAvailablePort_default (isPortAvailable rt)) as [port|a b|bad]; [| |done].
  2:{ run_m. eexists _, _. split; [reflexivity|]. simpl.
      do 4 (split; [done|]). split; done. }
  destruct Hport as (Hrange & Hfree & Hbusy).
  unfold bind at 1, console_error at 1, modify at 1. unfold ret at 1.
  set (s1 := log_console "Found available port:" s).
  destruct (loadCredentials_run rt s1) as (s2 & H2 & Ht2 & Hd2 & Hn2 & _).
  rewrite (bind_Return _ _ _ _ _ H2).
  assert (this s2 = this s) as Hthis by (by rewrite Ht2).
  assert (disk s2 = disk s) as Hdisk by (by rewrite Hd2).
  assert (net_calls s2 = net_calls s) as Hnet by (by rewrite Hn2).
  unfold flow_client. change (disk s1) with (disk s).
  destruct (stored_credentials rt (disk s)) as [cf|].
  - destruct (client_keys (client_block cf)) as [[id secret]|].
    + run_m. eexists _, _. split; [reflexivity|]. simpl.
      rewrite Hthis, Ha. repeat split; auto; lia.
    + run_m. rewrite Hthis, Hc. simpl.
      eexists _, _. split; [reflexivity|]. simpl.
      rewrite Hthis, Ha. repeat split; auto; lia.
  - run_m. rewrite Hthis, Hc. simpl.
    eexists _, _. split; [reflexivity|]. simpl.
    rewrite Hthis, Ha. repeat split; auto; lia.
Qed.

(** X17.  On a session that has a client handle, authenticate never
    touches the disk and makes no provider call before its promise is
    pending.  It resolves at once to true exactly when the session is
    already authenticated, and at once to false only when every port of
    3000..3100 is taken; in both cases the session is as it was.
    Otherwise it leaves a flow pending on the lowest free port of the
    range, with nothing sent and no listener bound yet, and the handle
    of the session is a new one without a token set, built from the client
    credentials read again with http://localhost:PORT/oauth2callback as
    redirect URI (the old handle when they cannot be read); the
    authorization URL is generated from that handle. *)
Theorem authenticate_with_handle (rt : Runtime) (s : State) (c : OAuth2Client) :
  oauth2Client (this s) = Some c ->
  exists r s',
    authenticate rt s = Return r s' /\
    disk s' = disk s /\ net_calls s' = net_calls s /\
    authenticate_outcome rt s c r s'.
Proof.
  intros Hc. rewrite authenticate_unfold.
  unfold bind at 1, gets at 1. rewrite Hc.
  rewrite bool_decide_false by done.
  unfold bind at 1, ret at 1. by apply authenticate_flow_spec.
Qed.

(** X17 at a concrete input: credentials on disk, the ports 3000 and
    3001 taken. *)
Lemma authenticate_with_handle_witness :
  exists r s',
    authenticate (demo_runtime ∅ (free_from 3002)) (awaiting_code ∅) = Return r s' /\
    disk s' = disk (awaiting_code ∅) /\ net_calls s' = net_calls (awaiting_code ∅) /\
    authenticate_outcome (demo_runtime ∅ (free_from 3002)) (awaiting_code ∅)
      (new_OAuth2 "id" "secret" "http://localhost") r s'.
Proof.
  apply (authenticate_with_handle (demo_runtime ∅ (free_from 3002)) (awaiting_code ∅)).
  reflexivity.
Defined.

(** The scenario of X17, run: the flow is pending on port 3002 and the
    handle names that port. *)
Example authenticate_picks_lowest_free_port :
  value_of (authenticate (demo_runtime ∅ (free_from 3002)) (awaiting_code ∅)) =
    Some (Pending (mkFlow 3002
            (demo_authUrl (new_OAuth2 "id" "secret" "http://localhost:3002/oauth2callback"))
            Binding None [] [])) /\
  oauth2Client (this (final_state
      (authenticate (demo_runtime ∅ (free_from 3002)) (awaiting_code ∅)))) =
    Some (new_OAuth2 "id" "secret" "http://localhost:3002/oauth2callback").
Proof. split; by_vm. Qed.

(** X18.  initializeWithAuth is initialize followed, when needed, by
    authenticate: when initialize returns true the result is true and
    nothing else happens; when it returns false and the session has no
    client handle the result is false; when it returns false and there is
    a handle, the result is that of authenticate, run after one console
    line. *)
Theorem initializeWithAuth_composition (rt : Runtime) (s s1 : State) (b : bool) :
  initialize rt s = Return b s1 ->
  initializeWithAuth rt s =
    if b then Return (Resolved true) s1
    else match oauth2Client (this s1) with
         | Some _ =>
             authenticate rt
               (log_console "No valid tokens found, starting authentication flow..." s1)
         | None => Return (Resolved false) s1
         end.
Proof.
  intros Hinit. unfold initializeWithAuth.
  rewrite (bind_Return _ _ _ _ _ Hinit).
  unfold bind at 1, gets at 1.
  destruct b.
  - destruct (initialize_run rt s) as (b' & s' & Hrun & Hout).
    rewrite Hinit in Hrun. injection Hrun as <- <-.
    assert (isAuthenticated (this s1) = true) as ->; [|done].
    unfold initialize_outcome in Hout.
    destruct (client_of rt (disk s)) as [c0|]; [|by destruct Hout].
    destruct (stored_tokens rt (disk s)) as [tokens|]; [|by destruct Hout].
    simpl in Hout. destruct (needs_refresh rt tokens).
    + destruct (refreshAccessToken rt _) as [newTokens|]; [|by destruct Hout].
      destruct Hout as [_ [[_ ?]|[? _]]]; done.
    + destruct Hout as (_ & _ & _ & ->). done.
  - simpl. unfold bind at 1, gets at 1.
    by destruct (oauth2Client (this s1)).
Qed.

(** X18 at a concrete input: a valid token file, so that no flow is
    started. *)
Lemma initializeWithAuth_composition_witness :
  initialize test_runtime (booted (demo_disk (Some tokens_valid) ∅)) =
    Return true
      (final_state (initialize test_runtime (booted (demo_disk (Some tokens_valid) ∅)))) /\
  initializeWithAuth test_runtime (booted (demo_disk (Some tokens_valid) ∅)) =
    Return (Resolved true)
      (final_state (initialize test_runtime (booted (demo_disk (Some tokens_valid) ∅)))).
Proof.
  split; [by_vm|].
  apply (initializeWithAuth_composition test_runtime
           (booted (demo_disk (Some tokens_valid) ∅)) _ true).
  by_vm.
Defined.

(** ** Properties of a pending flow *)

Lemma resolve_unsettled o f :
  settled f = None ->
  settled (resolve o f) = Some o /\ responses (resolve o f) = responses f /\
  exchanges (resolve o f) = exchanges f.
Proof. intros H. unfold resolve. by rewrite H. Qed.

Lemma resolve_settled o f o' :
  settled f = Some o' -> resolve o f = f.
Proof. intros H. unfold resolve. by rewrite H. Qed.

(** The callback with a code, on an open listener: the exchange is
    started and the handler waits. *)
Lemma callback_code_run rt f s c code :
  server f = Open -> oauth2Client (this s) = Some c -> code <> "" ->
  step rt (callback (Some code)) f s =
    Return (set_exchanges (exchanges f ++ [(c, code)]) f) (log_net (GetToken code) s).
Proof.
  intros Ho Hc Hne. simpl. rewrite Ho. unfold on_request. simpl.
  apply String.eqb_neq in Hne. rewrite Hne. simpl.
  run_m. by rewrite Hc.
Qed.

Lemma run_step rt e es f s f1 s1 :
  step rt e f s = Return f1 s1 -> run rt (e :: es) f s = run rt es f1 s1.
Proof.
  intros H. change (run rt (e :: es) f s) with (bind (step rt e f) (run rt es) s).
  by rewrite (bind_Return _ _ _ _ _ H).
Qed.

Lemma exchange_in_flight (l : list (OAuth2Client * string)) x :
  (l ++ [x])%list !! length l = Some x /\ delete (length l) (l ++ [x])%list = l.
Proof.
  split; [apply list_lookup_middle; done|].
  rewrite delete_middle. apply app_nil_r.
Qed.

(** X19.  The request handler on an open listener whose promise is
    pending.  A request whose URL cannot be parsed is answered 500, a
    callback without a code (or with an empty one) 400; both close the
    listener and resolve the flow to false, and neither calls the provider
    or changes the session.  A callback with a code starts the exchange of
    that code through the handle of the session and settles nothing yet:
    no status is sent, the listener stays open, the promise pending. *)
Theorem request_handler_outcomes (rt : Runtime) (f : Flow) (s : State) :
  server f = Open -> settled f = None ->
  (exists f', step rt (Request None) f s =
                Return f' (log_console "OAuth callback error:" s) /\
              settled f' = Some Failure /\ server f' = Closed /\
              responses f' = (responses f ++ [500])%list) /\
  (forall code, truthy code = false ->
     exists f', step rt (callback code) f s = Return f' s /\
                settled f' = Some Failure /\ server f' = Closed /\
                responses f' = (responses f ++ [400])%list) /\
  (forall c code, oauth2Client (this s) = Some c -> code <> "" ->
     exists f', step rt (callback (Some code)) f s =
                  Return f' (log_net (GetToken code) s) /\
                settled f' = None /\ server f' = Open /\ responses f' = responses f /\
                exchanges f' = (exchanges f ++ [(c, code)])%list).
Proof.
  intros Ho Hn. split; [|split].
  - simpl. rewrite Ho. eexists. split; [reflexivity|].
    rewrite server_resolve.
    destruct (resolve_unsettled Failure (server_close (respond 500 f)) Hn) as (-> & -> & _).
    done.
  - intros code Hcode. simpl. rewrite Ho. unfold on_request. simpl. rewrite Hcode.
    eexists. split; [reflexivity|].
    rewrite server_resolve.
    destruct (resolve_unsettled Failure (server_close (respond 400 f)) Hn) as (-> & -> & _).
    done.
  - intros c code Hc Hne. rewrite (callback_code_run rt f s c code Ho Hc Hne).
    eexists. split; [reflexivity|]. done.
Qed.

(** X19 at a concrete input: the listening flow of the Linux scenario. *)
Lemma request_handler_outcomes_witness :
  (exists f', step test_runtime (Request None) demo_listening_flow demo_pending_state =
                Return f' (log_console "OAuth callback error:" demo_pending_state) /\
              settled f' = Some Failure /\ server f' = Closed /\
              responses f' = (responses demo_listening_flow ++ [500])%list) /\
  (forall code, truthy code = false ->
     exists f', step test_runtime (callback code) demo_listening_flow demo_pending_state =
                  Return f' demo_pending_state /\
                settled f' = Some Failure /\ server f' = Closed /\
                responses f' = (responses demo_listening_flow ++ [400])%list) /\
  (forall c code, oauth2Client (this demo_pending_state) = Some c -> code <> "" ->
     exists f', step test_runtime (callback (Some code)) demo_listening_flow demo_pending_state =
                  Return f' (log_net (GetToken code) demo_pending_state) /\
                settled f' = None /\ server f' = Open /\
                responses f' = responses demo_listening_flow /\
                exchanges f' = (exchanges demo_listening_flow ++ [(c, code)])%list).
Proof.
  apply (request_handler_outcomes test_runtime demo_listening_flow demo_pending_state).
  - reflexivity.
  - reflexivity.
Defined.

(** X20.  The successful flow.  On an open listener whose promise is
    pending, let the callback arrive with a code that the provider
    accepts, while saveTokens has somewhere to put the tokens (or is
    switched off).  When the provider answers, the handler binds the token
    set to the handle, sets the authenticated flag, answers 200, closes
    the listener and resolves the flow to true; the timer that fires
    later changes nothing. *)
Theorem callback_with_code_completes_flow
    (rt : Runtime) (f : Flow) (s : State) (c : OAuth2Client) (code : string)
    (tokens : Credentials) :
  server f = Open -> settled f = None ->
  oauth2Client (this s) = Some c -> code <> "" ->
  getToken rt c code = Some tokens ->
  can_save rt (disk s) ->
  exists f' s',
    run rt [callback (Some code); TokenResponse (length (exchanges f)); Deadline] f s
      = Return f' s' /\
    promise_value f' = Some true /\
    server f' = Closed /\
    responses f' = (responses f ++ [200])%list /\
    exchanges f' = exchanges f /\
    is_ready (this s') = true /\
    oauth2Client (this s') = Some (with_credentials tokens c) /\
    (env_blank (host rt) "GOOGLE_TOKENS_JSON" ->
       exists m, files (disk s') !! TOKEN_PATH (host rt) =
                   Some (stringifyTokens rt tokens, m)).
Proof.
  intros Ho Hn Hc Hne Hg Hcan.
  pose proof (callback_code_run rt f s c code Ho Hc Hne) as H1.
  destruct (exchange_in_flight (exchanges f) (c, code)) as [Hlook Hdel].
  pose proof (on_token_response_exchange rt (length (exchanges f))
                (set_exchanges (exchanges f ++ [(c, code)]) f)
                (log_net (GetToken code) s) c code c Hlook Hc) as H2.
  rewrite Hg in H2.
  destruct (saveTokens_can_save rt tokens
              (set_this (set_client (Some (with_credentials tokens c)))
                 (log_net (GetToken code) s)) Hcan)
    as (s2 & Hsave & [Hcl Ha] & _ & _ & Hfile).
  rewrite Hsave in H2. simpl exchanges in H2. rewrite Hdel in H2.
  eexists _, _. split.
  { rewrite (run_step _ _ _ _ _ _ _ H1).
    rewrite (run_step rt (TokenResponse (length (exchanges f))) _ _ _ _ _ H2).
    erewrite run_step; [reflexivity|].
    simpl. unfold on_deadline. run_m. reflexivity. }
  simpl in Hcl. unfold promise_value, is_ready. rewrite server_resolve. simpl.
  destruct (resolve_unsettled Success
              (server_close (respond 200
                 (set_exchanges (exchanges f)
                    (set_exchanges (exchanges f ++ [(c, code)]) f)))) Hn) as (-> & -> & ->).
  rewrite Hcl. simpl.
  do 6 (split; [done|]).
  intros Hb. destruct (Hfile Hb) as (s0 & _ & ->). simpl.
  destruct (files (disk s0) !! TOKEN_PATH (host rt)) as [[data0 m0]|];
    eexists; apply lookup_insert_eq.
Qed.

(** X20 at a concrete input: the listening flow of the Linux scenario and
    the code that the provider accepts. *)
Lemma callback_with_code_completes_flow_witness :
  exists f' s',
    run test_runtime
        [callback (Some "good-code"); TokenResponse (length (exchanges demo_listening_flow));
         Deadline]
        demo_listening_flow demo_pending_state = Return f' s' /\
    promise_value f' = Some true /\
    server f' = Closed /\
    responses f' = (responses demo_listening_flow ++ [200])%list /\
    exchanges f' = exchanges demo_listening_flow /\
    is_ready (this s') = true /\
    oauth2Client (this s') = Some (with_credentials tokens_valid demo_pending_client) /\
    (env_blank (host test_runtime) "GOOGLE_TOKENS_JSON" ->
       exists m, files (disk s') !! TOKEN_PATH (host test_runtime) =
                   Some (stringifyTokens test_runtime tokens_valid, m)).
Proof.
  apply (callback_with_code_completes_flow test_runtime demo_listening_flow
           demo_pending_state demo_pending_client "good-code" tokens_valid).
  - reflexivity.
  - reflexivity.
  - reflexivity.
  - discriminate.
  - reflexivity.
  - right. split; [exists 448; by_vm|]. split; [apply not_elem_of_empty|by_vm].
Defined.

(** X21.  A failed exchange.  On an open listener whose promise is
    pending, let the callback arrive with a code, and let the exchange
    fail: the provider rejects the code, or it accepts it and the write of
    the token file is refused.  Then the handler answers 500, closes the
    listener and resolves the flow to false; the authenticated flag and
    every file are as they were.  When the provider rejected the code the
    session is untouched; when only the write failed, the new token set is
    already bound to the handle. *)
Theorem failed_exchange_fails_flow
    (rt : Runtime) (f : Flow) (s : State) (c : OAuth2Client) (code : string) :
  server f = Open -> settled f = None ->
  oauth2Client (this s) = Some c -> code <> "" ->
  (getToken rt c code = None \/
   (env_blank (host rt) "GOOGLE_TOKENS_JSON" /\ TOKEN_PATH (host rt) ∈ locked (disk s))) ->
  exists f' s',
    run rt [callback (Some code); TokenResponse (length (exchanges f))] f s = Return f' s' /\
    promise_value f' = Some false /\
    server f' = Closed /\
    responses f' = (responses f ++ [500])%list /\
    isAuthenticated (this s') = isAuthenticated (this s) /\
    files (disk s') = files (disk s) /\
    (getToken rt c code = None -> this s' = this s) /\
    (forall tokens, getToken rt c code = Some tokens ->
       oauth2Client (this s') = Some (with_credentials tokens c)).
Proof.
  intros Ho Hn Hc Hne Hfail.
  pose proof (callback_code_run rt f s c code Ho Hc Hne) as H1.
  destruct (exchange_in_flight (exchanges f) (c, code)) as [Hlook Hdel].
  pose proof (on_token_response_exchange rt (length (exchanges f))
                (set_exchanges (exchanges f ++ [(c, code)]) f)
                (log_net (GetToken code) s) c code c Hlook Hc) as H2.
  destruct (getToken rt c code) as [tokens|] eqn:Hg.
  - destruct Hfail as [?|[Hb Hl]]; [done|].
    destruct (saveTokens_locked rt tokens
                (set_this (set_client (Some (with_credentials tokens c)))
                   (log_net (GetToken code) s)) Hb Hl)
      as (s2 & Hsave & [Hcl Ha] & _ & Hf).
    rewrite Hsave in H2.
    eexists _, _. split.
    { rewrite (run_step _ _ _ _ _ _ _ H1).
      rewrite (run_step rt (TokenResponse (length (exchanges f))) _ _ _ _ _ H2).
      reflexivity. }
    unfold promise_value. rewrite server_resolve.
    match goal with
    | |- context [resolve Failure ?g] =>
        destruct (resolve_unsettled Failure g Hn) as (-> & -> & _)
    end.
    simpl in *. do 5 (split; [done|]). split; [done|].
    intros tokens' [= <-]. done.
  - simpl in H2.
    eexists _, _. split.
    { rewrite (run_step _ _ _ _ _ _ _ H1).
      rewrite (run_step rt (TokenResponse (length (exchanges f))) _ _ _ _ _ H2).
      reflexivity. }
    unfold promise_value. rewrite server_resolve.
    match goal with
    | |- context [resolve Failure ?g] =>
        destruct (resolve_unsettled Failure g Hn) as (-> & -> & _)
    end.
    simpl. do 6 (split; [done|]). done.
Qed.

(** X21 at a concrete input: the provider of the scenarios rejects
    bad-code. *)
Lemma failed_exchange_fails_flow_witness :
  exists f' s',
    run test_runtime
        [callback (Some "bad-code"); TokenResponse (length (exchanges demo_listening_flow))]
        demo_listening_flow demo_pending_state = Return f' s' /\
    promise_value f' = Some false /\
    server f' = Closed /\
    responses f' = (responses demo_listening_flow ++ [500])%list /\
    isAuthenticated (this s') = isAuthenticated (this demo_pending_state) /\
    files (disk s') = files (disk demo_pending_state) /\
    (getToken test_runtime demo_pending_client "bad-code" = None ->
       this s' = this demo_pending_state) /\
    (forall tokens, getToken test_runtime demo_pending_client "bad-code" = Some tokens ->
       oauth2Client (this s') = Some (with_credentials tokens demo_pending_client)).
Proof.
  apply (failed_exchange_fails_flow test_runtime demo_listening_flow demo_pending_state
           demo_pending_client "bad-code").
  - reflexivity.
  - reflexivity.
  - reflexivity.
  - discriminate.
  - left. reflexivity.
Defined.

(** X22.  An exchange that outlives the timer.  Let the callback arrive
    with a good code, let the timer fire while the provider has not
    answered yet, and let the answer come afterwards.  The timer resolves
    the flow to false and closes the listener; the late answer still binds
    the token set, saves it and sets the authenticated flag, and the
    browser is answered 200.  So the caller has been told false while the
    session ends up ready. *)
Theorem exchange_answered_after_timeout
    (rt : Runtime) (f : Flow) (s : State) (c : OAuth2Client) (code : string)
    (tokens : Credentials) :
  server f = Open -> settled f = None ->
  isAuthenticated (this s) = false ->
  oauth2Client (this s) = Some c -> code <> "" ->
  getToken rt c code = Some tokens ->
  can_save rt (disk s) ->
  exists f' s',
    run rt [callback (Some code); Deadline; TokenResponse (length (exchanges f))] f s
      = Return f' s' /\
    settled f' = Some TimedOut /\
    promise_value f' = Some false /\
    server f' = Closed /\
    responses f' = (responses f ++ [200])%list /\
    is_ready (this s') = true /\
    oauth2Client (this s') = Some (with_credentials tokens c) /\
    (env_blank (host rt) "GOOGLE_TOKENS_JSON" ->
       exists m, files (disk s') !! TOKEN_PATH (host rt) =
                   Some (stringifyTokens rt tokens, m)).
Proof.
  intros Ho Hn Hna Hc Hne Hg Hcan.
  pose proof (callback_code_run rt f s c code Ho Hc Hne) as H1.
  destruct (exchange_in_flight (exchanges f) (c, code)) as [Hlook Hdel].
  set (f1 := set_exchanges (exchanges f ++ [(c, code)]) f) in *.
  set (s1 := log_net (GetToken code) s) in *.
  assert (step rt Deadline f1 s1 =
          Return (resolve TimedOut (server_close f1))
                 (log_console "Authentication timeout - closing OAuth server" s1)) as H2.
  { simpl. unfold on_deadline. run_m. rewrite Hna. reflexivity. }
  assert (settled (server_close f1) = None) as Hn1 by exact Hn.
  destruct (resolve_unsettled TimedOut (server_close f1) Hn1) as (Hs2 & Hr2 & He2).
  set (f2 := resolve TimedOut (server_close f1)) in *.
  set (s2 := log_console "Authentication timeout - closing OAuth server" s1) in *.
  assert (exchanges f2 !! length (exchanges f) = Some (c, code)) as Hlook2
    by (rewrite He2; exact Hlook).
  pose proof (on_token_response_exchange rt (length (exchanges f)) f2 s2 c code c
                Hlook2 Hc) as H3.
  rewrite Hg in H3.
  destruct (saveTokens_can_save rt tokens
              (set_this (set_client (Some (with_credentials tokens c))) s2) Hcan)
    as (s3 & Hsave & [Hcl Ha] & _ & _ & Hfile).
  rewrite Hsave in H3.
  eexists _, _. split.
  { rewrite (run_step _ _ _ _ _ _ _ H1), (run_step _ _ _ _ _ _ _ H2).
    rewrite (run_step rt (TokenResponse (length (exchanges f))) _ _ _ _ _ H3).
    reflexivity. }
  assert (settled (server_close (respond 200
            (set_exchanges (delete (length (exchanges f)) (exchanges f2)) f2)))
          = Some TimedOut) as Hs3 by exact Hs2.
  rewrite (resolve_settled Success _ TimedOut Hs3).
  unfold promise_value, is_ready. simpl. rewrite Hs2, Hr2. simpl in Hcl. rewrite Hcl.
  simpl. do 6 (split; [done|]).
  intros Hb. destruct (Hfile Hb) as (s0 & _ & ->). simpl.
  destruct (files (disk s0) !! TOKEN_PATH (host rt)) as [[data0 m0]|];
    eexists; apply lookup_insert_eq.
Qed.

(** X22 at a concrete input: the listening flow of the Linux scenario,
    the code that the provider accepts. *)
Lemma exchange_answered_after_timeout_witness :
  exists f' s',
    run test_runtime
        [callback (Some "good-code"); Deadline;
         TokenResponse (length (exchanges demo_listening_flow))]
        demo_listening_flow demo_pending_state = Return f' s' /\
    settled f' = Some TimedOut /\
    promise_value f' = Some false /\
    server f' = Closed /\
    responses f' = (responses demo_listening_flow ++ [200])%list /\
    is_ready (this s') = true /\
    oauth2Client (this s') = Some (with_credentials tokens_valid demo_pending_client) /\
    (env_blank (host test_runtime) "GOOGLE_TOKENS_JSON" ->
       exists m, files (disk s') !! TOKEN_PATH (host test_runtime) =
                   Some (stringifyTokens test_runtime tokens_valid, m)).
Proof.
  apply (exchange_answered_after_timeout test_runtime demo_listening_flow
           demo_pending_state demo_pending_client "good-code" tokens_valid).
  - reflexivity.
  - reflexivity.
  - reflexivity.
  - reflexivity.
  - discriminate.
  - reflexivity.
  - right. split; [exists 448; by_vm|]. split; [apply not_elem_of_empty|by_vm].
Defined.

(** ** The flow facts of the previous sections at concrete inputs *)

(** X23 at a concrete input: the flow that authenticate leaves pending in
    the Linux scenario, with the listener bound, a callback without a code
    and the timer. *)
Lemma flow_resolves_exactly_once_witness :
  exists f' s',
    run test_runtime [Listening; callback None; Deadline]
        demo_pending_flow demo_pending_state = Return f' s' /\
    (exists o, settled f' = Some o) /\ server f' = Closed /\
    (forall es' f'' s'',
       run test_runtime es' f' s' = Return f'' s'' -> settled f'' = settled f').
Proof.
  assert (run test_runtime [Listening; callback None; Deadline]
              demo_pending_flow demo_pending_state =
          Return (resolve Failure (server_close (respond 400 demo_listening_flow)))
                 (final_state (run test_runtime [Listening; callback None; Deadline]
                                   demo_pending_flow demo_pending_state))) as Hrun
    by by_vm.
  eexists _, _. split; [exact Hrun|].
  apply (flow_resolves_exactly_once test_runtime (booted (demo_disk None ∅))
           demo_pending_flow demo_pending_state [Listening; callback None; Deadline]).
  - exact demo_authenticate_pending.
  - apply elem_of_cons. right. apply elem_of_cons. right. apply elem_of_cons. by left.
  - exact Hrun.
Defined.

(** X24 at a concrete input: the timer on the listening flow of the Linux
    scenario. *)
Lemma step_resolution_closes_witness :
  server (resolve TimedOut (server_close demo_listening_flow)) = Closed.
Proof.
  apply (step_resolution_closes test_runtime Deadline demo_listening_flow demo_pending_state
           (resolve TimedOut (server_close demo_listening_flow))
           (log_console "Authentication timeout - closing OAuth server" demo_pending_state)).
  - reflexivity.
  - reflexivity.
  - discriminate.
  - discriminate.
Defined.

(** X25 at a concrete input: the flow that authenticate leaves pending in
    the Linux scenario. *)
Lemma no_callback_times_out_witness :
  exists f' s',
    run test_runtime [Listening; Deadline] demo_pending_flow demo_pending_state
      = Return f' s' /\
    settled f' = Some TimedOut /\ promise_value f' = Some false /\
    server f' = Closed /\ this s' = this demo_pending_state /\
    disk s' = disk demo_pending_state.
Proof.
  apply (no_callback_times_out test_runtime demo_pending_flow demo_pending_state).
  - repeat split.
  - reflexivity.
Defined.

(** ** The constructor, and a restart after a successful exchange *)

(** X26.  The constructor always returns and leaves a fresh session: no
    client handle, not authenticated.  It changes no file.  When the
    directories flag it leaves is true, each of the two application
    paths is a directory afterwards or was a regular file before; the
    flag is true whenever, for each of the two paths, something is at the
    path or the directory can be created (no ancestor of it, itself
    included, is a regular file or refused by the system); and when both
    directories can be created, both are directories afterwards. *)
Theorem constructor_sets_up_directories (rt : Runtime) (s : State) :
  exists s',
    new_GoogleOAuth rt s = Return tt s' /\
    oauth2Client (this s') = None /\ isAuthenticated (this s') = false /\
    files (disk s') = files (disk s) /\
    (directoriesInitialized (this s') = true ->
       (is_Some (dirs (disk s') !! getConfigDir (host rt)) \/
        is_Some (files (disk s) !! getConfigDir (host rt))) /\
       (is_Some (dirs (disk s') !! getDataDir (host rt)) \/
        is_Some (files (disk s) !! getDataDir (host rt)))) /\
    (dir_available (disk s) (getConfigDir (host rt)) ->
     dir_available (disk s) (getDataDir (host rt)) ->
       directoriesInitialized (this s') = true) /\
    (can_create (disk s) (getConfigDir (host rt)) ->
     can_create (disk s) (getDataDir (host rt)) ->
       is_Some (dirs (disk s') !! getConfigDir (host rt)) /\
       is_Some (dirs (disk s') !! getDataDir (host rt))).
Proof.
  unfold new_GoogleOAuth. unfold bind at 1, modify at 1.
  set (s0 := set_this (fun _ => fresh_session) s).
  destruct (ensureDirectoriesExist_run rt s0)
    as (s' & l & He & [Hcl Ha] & _ & (Hf & _) & _).
  pose proof (ensureDirectoriesExist_dirs rt s0) as (_ & Hboth & Hset).
  rewrite He in Hboth, Hset. simpl in Hboth, Hset.
  exists s'. split; [done|]. split; [done|]. split; [done|]. split; [done|].
  split; [by apply Hboth|]. split; [exact Hset|].
  intros Hc Hd.
  destruct (Hboth eq_refl (Hset (or_intror Hc) (or_intror Hd))) as [H1 H2].
  destruct (Hc (getConfigDir (host rt))) as [_ Hn1];
    [apply ancestors_self, getConfigDir_nonempty|].
  destruct (Hd (getDataDir (host rt))) as [_ Hn2];
    [apply ancestors_self, getDataDir_nonempty|].
  rewrite Hn1 in H1. rewrite Hn2 in H2.
  split; [destruct H1 as [?|[? ?]]; done|destruct H2 as [?|[? ?]]; done].
Qed.

(** A text that a loader finds is still found when directories appear
    and other files change. *)
Lemma stored_text_stable envv p d d' t :
  stored_text envv p d = Some t ->
  files d' !! p = files d !! p -> locked d' = locked d ->
  (forall q m, dirs d !! q = Some m -> dirs d' !! q = Some m) ->
  stored_text envv p d' = Some t.
Proof.
  unfold stored_text, exists_on. intros H Hf Hl Hk.
  destruct (truthy envv); [done|]. rewrite Hf, Hl.
  destruct (bool_decide (is_Some (files d !! p))) eqn:Hfile; simpl in *; [done|].
  destruct (bool_decide (is_Some (dirs d !! p))) eqn:Hdir; simpl in *; [|done].
  apply bool_decide_eq_true in Hdir as [m Hm].
  by rewrite (bool_decide_true (is_Some (dirs d' !! p))) by (rewrite (Hk _ _ Hm); eauto).
Qed.

Lemma client_of_stable rt d d' c0 :
  client_of rt d = Some c0 ->
  files d' !! CREDENTIALS_PATH (host rt) = files d !! CREDENTIALS_PATH (host rt) ->
  locked d' = locked d ->
  (forall q m, dirs d !! q = Some m -> dirs d' !! q = Some m) ->
  client_of rt d' = Some c0.
Proof.
  unfold client_of, stored_credentials, stored_json. intros H Hf Hl Hk.
  destruct (stored_text _ _ d) as [t|] eqn:Ht; [|done].
  by rewrite (stored_text_stable _ _ d d' t Ht Hf Hl Hk).
Qed.

(** X27.  Tokens saved by setAuthCode are found at the next start.  Let
    GOOGLE_TOKENS_JSON be missing or empty, the token path writable, the
    client credentials usable, and let JSON.parse read back what
    JSON.stringify writes for the token set.  When the provider accepts
    the code, setAuthCode returns true; and a new session constructed on
    the disk it leaves is authenticated by initialize with the same token
    set, provided the token set needs no refresh. *)
Theorem saved_tokens_authenticate_next_start
    (rt : Runtime) (s s0 : State) (c : OAuth2Client) (code : string) (tokens : Credentials)
    (file : CredentialsFile) (id secret : string) :
  oauth2Client (this s) = Some c ->
  getToken rt c code = Some tokens ->
  env_blank (host rt) "GOOGLE_TOKENS_JSON" ->
  token_path_writable rt (disk s) ->
  parseTokens rt (stringifyTokens rt tokens) = ParsedValue tokens ->
  needs_refresh rt tokens = false ->
  loadCredentials rt s = Return (Some file) s0 ->
  client_keys (client_block file) = Some (id, secret) ->
  exists s1 s2 s3,
    setAuthCode rt code s = Return true s1 /\
    new_GoogleOAuth rt s1 = Return tt s2 /\
    is_ready (this s2) = false /\
    initialize rt s2 = Return true s3 /\
    is_ready (this s3) = true /\
    bound_tokens (this s3) = Some tokens.
Proof.
  intros Hc Hg Hb Hw Hcodec Hfresh Hload Hk.
  pose proof (client_of_loaded _ _ _ _ _ _ Hload Hk) as Hclient.
  rewrite (setAuthCode_run rt code s c Hc), Hg.
  destruct (saveTokens_writable rt tokens
              (set_this (set_client (Some (with_credentials tokens c)))
                 (log_net (GetToken code) s)) Hb Hw)
    as (sa & _ & (Hfa & Hla & Hka & _) & _ & _ & ->).
  simpl in Hfa, Hla, Hka.
  eexists. 
  match goal with |- exists s2 s3, Return true ?x = _ /\ _ => set (s1 := x) end.
  assert (files (disk s1) !! TOKEN_PATH (host rt) =
          Some (stringifyTokens rt tokens,
                match files (disk sa) !! TOKEN_PATH (host rt) with
                | Some (_, m) => m
                | None => MODE_FILE
                end)) as Hfile1 by apply lookup_insert_eq.
  assert (files (disk s1) !! CREDENTIALS_PATH (host rt) =
          files (disk s) !! CREDENTIALS_PATH (host rt)) as Hcred1.
  { simpl. rewrite lookup_insert_ne by (intros H; by apply (paths_distinct (host rt))).
    by rewrite Hfa. }
  assert (locked (disk s1) = locked (disk s)) as Hl1 by exact Hla.
  assert (forall q m, dirs (disk s) !! q = Some m -> dirs (disk s1) !! q = Some m) as Hk1
    by exact Hka.
  unfold new_GoogleOAuth. unfold bind at 1, modify at 1.
  destruct (ensureDirectoriesExist_run rt (set_this (fun _ => fresh_session) s1))
    as (s2 & l & He & [Hcl2' Ha2'] & _ & (Hf2' & Hl2' & Hk2' & _) & _).
  assert (isAuthenticated (this s2) = false) as Ha2 by exact Ha2'.
  assert (files (disk s2) = files (disk s1)) as Hf2 by exact Hf2'.
  assert (locked (disk s2) = locked (disk s1)) as Hl2 by exact Hl2'.
  assert (forall q m, dirs (disk s1) !! q = Some m -> dirs (disk s2) !! q = Some m) as Hk2
    by exact Hk2'.
  clear Hcl2' Ha2' Hf2' Hl2' Hk2'.
  assert (client_of rt (disk s2) = Some (new_OAuth2 id secret (first_redirect (client_block file))))
    as Hclient2.
  { apply (client_of_stable rt (disk s) (disk s2) _ Hclient).
    - by rewrite Hf2, Hcred1.
    - by rewrite Hl2, Hl1.
    - intros q m Hq. by apply Hk2, Hk1. }
  assert (stored_tokens rt (disk s2) = Some tokens) as Htok2.
  { unfold stored_tokens, stored_json, stored_text.
    rewrite (truthy_blank _ _ Hb). unfold exists_on.
    rewrite Hf2, Hfile1. rewrite bool_decide_true by eauto. simpl.
    destruct Hw as (_ & Hnl & _).
    rewrite bool_decide_false by (by rewrite Hl2, Hl1). simpl.
    by rewrite Hcodec. }
  destruct (initialize_no_refresh rt s2 _ tokens Hclient2 Htok2 Hfresh)
    as (s3 & Hinit & _ & _ & Hthis3).
  exists s2, s3. split; [reflexivity|]. split; [exact He|].
  split; [unfold is_ready; by rewrite Ha2|].
  split; [exact Hinit|].
  unfold is_ready, bound_tokens. by rewrite Hthis3.
Qed.

(** X27 at a concrete input: the session of the Linux scenario that waits
    for its code. *)
Lemma saved_tokens_authenticate_next_start_witness :
  exists s1 s2 s3,
    setAuthCode test_runtime "good-code" (awaiting_code ∅) = Return true s1 /\
    new_GoogleOAuth test_runtime s1 = Return tt s2 /\
    is_ready (this s2) = false /\
    initialize test_runtime s2 = Return true s3 /\
    is_ready (this s3) = true /\
    bound_tokens (this s3) = Some tokens_valid.
Proof.
  refine (saved_tokens_authenticate_next_start test_runtime (awaiting_code ∅)
            (final_state (loadCredentials test_runtime (awaiting_code ∅)))
            (new_OAuth2 "id" "secret" "http://localhost") "good-code" tokens_valid
            demo_credentials "id" "secret" _ _ _ _ _ _ _ _).
  - reflexivity.
  - reflexivity.
  - by left.
  - split; [exists 448; by_vm|]. split; [apply not_elem_of_empty|by_vm].
  - by_vm.
  - by_vm.
  - by_vm.
  - by_vm.
Defined.

(** ** A code handed over while a flow is pending *)

Lemma setAuthCode_true_authenticated rt code s c s1 :
  oauth2Client (this s) = Some c ->
  setAuthCode rt code s = Return true s1 -> isAuthenticated (this s1) = true.
Proof.
  intros Hc. rewrite (setAuthCode_run rt code s c Hc).
  destruct (getToken rt c code) as [tokens|]; [|done].
  destruct (saveTokens rt tokens _) as [[] s2|e s2]; [|done].
  by intros [= <-].
Qed.

(** X28.  The timer of a flow only acts on a session that is not
    authenticated.  Once setAuthCode has returned true on the session of
    a pending flow, the timer does nothing when it fires: the promise is
    as settled or unsettled as before, the listener is in the state it was
    in, and the session and the disk are untouched.  A flow that was
    pending with its listener open stays so. *)
Theorem setAuthCode_disarms_flow_timer
    (rt : Runtime) (f : Flow) (s s1 : State) (c : OAuth2Client) (code : string) :
  oauth2Client (this s) = Some c ->
  setAuthCode rt code s = Return true s1 ->
  isAuthenticated (this s1) = true /\
  run rt [Deadline] f s1 = Return f s1.
Proof.
  intros Hc Hset.
  pose proof (setAuthCode_true_authenticated rt code s c s1 Hc Hset) as Ha.
  split; [done|]. simpl. unfold on_deadline. run_m. by rewrite Ha.
Qed.

(** X28 at a concrete input: the listener of the flow is bound, then the
    code is handed to setAuthCode, then the timer fires; the promise is
    still pending and the listener still open. *)
Lemma setAuthCode_disarms_flow_timer_witness :
  settled demo_listening_flow = None /\ server demo_listening_flow = Open /\
  isAuthenticated
    (this (final_state (setAuthCode test_runtime "good-code" demo_pending_state))) = true /\
  run test_runtime [Deadline] demo_listening_flow
      (final_state (setAuthCode test_runtime "good-code" demo_pending_state)) =
    Return demo_listening_flow
      (final_state (setAuthCode test_runtime "good-code" demo_pending_state)).
Proof.
  split; [reflexivity|]. split; [reflexivity|].
  apply (setAuthCode_disarms_flow_timer test_runtime demo_listening_flow demo_pending_state
           (final_state (setAuthCode test_runtime "good-code" demo_pending_state))
           demo_pending_client "good-code").
  - reflexivity.
  - by_vm.
Defined.
